(** * The x402 payment client of galaksio-os

    A shallow embedding of [x402-client.ts] (the Authorization Builder, the
    Payment Encoder, the Fee Calculator and the Revocation Helper), of the
    broker helper [brokerRequestWithPayment] with its callers [run] and
    [store], and of [fetchWith402], with the
    parts of the JavaScript platform they call (strings of UTF-16 code units,
    [JSON.stringify], [JSON.parse], [Buffer] with UTF-8 and base64).

    Effects (fetch, the injected wallet, the clock, the random source, timers)
    are threaded through an error-and-trace monad over an environment of
    oracles that may depend on everything that happened before. *)

From Stdlib Require Import ZArith Bool Lia Floats.
From stdpp Require Import base tactics option list strings gmap.

Local Open Scope Z_scope.

(** ** JavaScript strings *)

(** A JavaScript string is a sequence of 16-bit code units. *)
Abbreviation jsstring := (list Z).

Definition is_unit (u : Z) : Prop := 0 <= u < 65536.
Definition wf_string (s : jsstring) : Prop := Forall is_unit s.

(** String literals of the source, which are all ASCII. *)
Definition js (s : string) : jsstring :=
  map (fun a => Z.of_N (Ascii.N_of_ascii a)) (String.list_ascii_of_string s).

(** The text in which every apostrophe stands for a double quote. *)
Definition quoted (s : string) : jsstring :=
  map (fun u => if u =? 39 then 34 else u) (js s).

Definition is_high (u : Z) : bool := (55296 <=? u) && (u <=? 56319).
Definition is_low (u : Z) : bool := (56320 <=? u) && (u <=? 57343).
Definition is_surrogate (u : Z) : bool := (55296 <=? u) && (u <=? 57343).

(** [String.prototype.toLowerCase] on A-Z.  Outside ASCII only U+212A (to k)
    and U+0130 (to i followed by U+0307) have a lower case that contains an
    ASCII letter; no string this program compares with contains a k, and a
    string with U+0307 is not ASCII, so the comparisons below are the same. *)
Definition lower_unit (u : Z) : Z :=
  if (65 <=? u) && (u <=? 90) then u + 32 else u.
Definition toLowerCase (s : jsstring) : jsstring := map lower_unit s.

Definition jsstring_eqb (a b : jsstring) : bool := bool_decide (a = b).

(** [s.startsWith(p)] *)
Fixpoint startsWith (p s : jsstring) : bool :=
  match p, s with
  | [], _ => true
  | a :: p', b :: s' => (a =? b) && startsWith p' s'
  | _ :: _, [] => false
  end.

(** [s.replace(p, r)] with a string pattern: the first occurrence only. *)
Fixpoint replace_first (p r s : jsstring) : jsstring :=
  if startsWith p s then r ++ drop (length p) s
  else match s with
       | [] => []
       | c :: s' => c :: replace_first p r s'
       end.

(** [s.padStart(n, c)] with a one-unit filler [c]. *)
Definition padStart (n : nat) (c : Z) (s : jsstring) : jsstring :=
  replicate (n - length s) c ++ s.

(** Decimal digits of a non-negative integer, most significant first. *)
Fixpoint decimal_fuel (fuel : nat) (n : Z) (acc : jsstring) : jsstring :=
  match fuel with
  | O => acc
  | S f =>
      let acc' := (48 + n mod 10) :: acc in
      if n <? 10 then acc' else decimal_fuel f (n / 10) acc'
  end.
Definition decimal (n : Z) : jsstring :=
  decimal_fuel (S (Z.to_nat (Z.log2 n))) n [].

(** [String(n)] and [n.toString()] of an integer number below 10^21, where
    JavaScript prints all the digits. *)
Definition Number_toString (n : Z) : jsstring :=
  if n <? 0 then 45 :: decimal (- n) else decimal n.

(** Lower-case hexadecimal digit. *)
Definition hex_digit (d : Z) : Z := if d <? 10 then 48 + d else 87 + d.

(** [n.toString(16)] of a non-negative integer. *)
Fixpoint hex_fuel (fuel : nat) (n : Z) (acc : jsstring) : jsstring :=
  match fuel with
  | O => acc
  | S f =>
      let acc' := hex_digit (n mod 16) :: acc in
      if n <? 16 then acc' else hex_fuel f (n / 16) acc'
  end.
Definition Number_toString16 (n : Z) : jsstring :=
  hex_fuel (S (Z.to_nat (Z.log2 n))) n [].

(** ** JSON values *)

(** A number is kept as the decimal [mantissa * 10 ^ exponent] of its
    literal.  The x402 client and the broker helper write integers only and
    read no number back; [fetchWith402], which writes back what it parsed,
    takes the double of the literal (see the number values below). *)
#[warnings="-register-all"]
Inductive json : Type :=
  | JNull
  | JBool (b : bool)
  | JNum (mantissa exponent : Z)
  | JStr (s : jsstring)
  | JArr (elems : list json)
  | JObj (fields : list (jsstring * json)).

(** Property read [o.k] on a parsed object: a later duplicate key wins. *)
Fixpoint assoc_last (k : jsstring) (l : list (jsstring * json)) : option json :=
  match l with
  | [] => None
  | (k', v) :: l' =>
      match assoc_last k l' with
      | Some w => Some w
      | None => if jsstring_eqb k k' then Some v else None
      end
  end.

(** [v.k], [None] standing for [undefined]. *)
Definition json_get (k : string) (v : json) : option json :=
  match v with
  | JObj l => assoc_last (js k) l
  | _ => None
  end.

(** An object literal of the source: a property whose value is [undefined]
    is left out by [JSON.stringify]. *)
Definition obj (fields : list (string * option json)) : json :=
  JObj (omap (fun kv => match kv.2 with
                        | Some v => Some (js kv.1, v)
                        | None => None
                        end) fields).

Definition jstr (s : string) : json := JStr (js s).
Definition jint (n : Z) : json := JNum n 0.

(** ** JSON.stringify *)

Definition hex4 (u : Z) : jsstring :=
  [hex_digit (u / 4096 mod 16); hex_digit (u / 256 mod 16);
   hex_digit (u / 16 mod 16); hex_digit (u mod 16)].

(** One code unit that is not part of a surrogate pair, as QuoteJSONString
    writes it. *)
Definition quote_unit (u : Z) : jsstring :=
  if u =? 8 then [92; 98]
  else if u =? 9 then [92; 116]
  else if u =? 10 then [92; 110]
  else if u =? 12 then [92; 102]
  else if u =? 13 then [92; 114]
  else if u =? 34 then [92; 34]
  else if u =? 92 then [92; 92]
  else if (u <? 32) || is_surrogate u then 92 :: 117 :: hex4 u
  else [u].

Fixpoint quote_units (s : jsstring) : jsstring :=
  match s with
  | [] => []
  | u :: r =>
      if is_high u then
        match r with
        | v :: r' =>
            if is_low v then u :: v :: quote_units r'
            else quote_unit u ++ quote_units r
        | [] => quote_unit u
        end
      else quote_unit u ++ quote_units r
  end.

Definition JSON_quote (s : jsstring) : jsstring := 34 :: quote_units s ++ [34].

Definition stringify_num (m e : Z) : jsstring :=
  Number_toString m ++ (if e =? 0 then [] else 101 :: Number_toString e).

(** [parts.join(sep)] with a one-unit separator *)
Fixpoint join (sep : Z) (parts : list jsstring) : jsstring :=
  match parts with
  | [] => []
  | [p] => p
  | p :: (_ :: _) as r => p ++ sep :: join sep r
  end.

Fixpoint JSON_stringify (v : json) : jsstring :=
  match v with
  | JNull => js "null"
  | JBool true => js "true"
  | JBool false => js "false"
  | JNum m e => stringify_num m e
  | JStr s => JSON_quote s
  | JArr l => 91 :: join 44 (map JSON_stringify l) ++ [93]
  | JObj l =>
      123 :: join 44 (map (fun '(k, x) => JSON_quote k ++ 58 :: JSON_stringify x) l)
        ++ [125]
  end.

(** ** Buffer: UTF-8 *)

Definition utf8_code_point (c : Z) : list Z :=
  if c <? 128 then [c]
  else if c <? 2048 then [192 + c / 64; 128 + c mod 64]
  else if c <? 65536 then
    [224 + c / 4096; 128 + c / 64 mod 64; 128 + c mod 64]
  else
    [240 + c / 262144; 128 + c / 4096 mod 64; 128 + c / 64 mod 64;
     128 + c mod 64].

Definition replacement_bytes : list Z := [239; 191; 189].

(** [Buffer.from(s)]: the UTF-8 bytes of a string; a surrogate pair is one
    code point, a lone surrogate becomes U+FFFD. *)
Fixpoint utf8_encode (s : jsstring) : list Z :=
  match s with
  | [] => []
  | u :: r =>
      if is_high u then
        match r with
        | v :: r' =>
            if is_low v then
              utf8_code_point (65536 + (u - 55296) * 1024 + (v - 56320))
                ++ utf8_encode r'
            else replacement_bytes ++ utf8_encode r
        | [] => replacement_bytes
        end
      else if is_low u then replacement_bytes ++ utf8_encode r
      else utf8_code_point u ++ utf8_encode r
  end.

Definition utf16_code_point (c : Z) : jsstring :=
  if c <? 65536 then [c]
  else [55296 + (c - 65536) / 1024; 56320 + (c - 65536) mod 1024].

(** The state of the UTF-8 decoder between two bytes: the code point read so
    far, the number of continuation bytes still needed and the bounds of the
    next byte. *)
Record utf8_state : Type := Utf8State {
  code_point : Z;
  bytes_needed : nat;
  lower_boundary : Z;
  upper_boundary : Z
}.

Definition utf8_initial : utf8_state := Utf8State 0 0 128 191.

Inductive utf8_step : Type :=
  | Emit (units : jsstring)
  | Continue (st : utf8_state).

(** A byte read when no continuation byte is needed. *)
Definition utf8_lead (b : Z) : utf8_step :=
  if b <=? 127 then Emit [b]
  else if (194 <=? b) && (b <=? 223) then
    Continue (Utf8State (b - 192) 1 128 191)
  else if (224 <=? b) && (b <=? 239) then
    Continue (Utf8State (b - 224) 2
                (if b =? 224 then 160 else 128) (if b =? 237 then 159 else 191))
  else if (240 <=? b) && (b <=? 244) then
    Continue (Utf8State (b - 240) 3
                (if b =? 240 then 144 else 128) (if b =? 244 then 143 else 191))
  else Emit [65533].

(** [buf.toString()]: the decoder of the Encoding Standard, which writes
    U+FFFD for a malformed sequence and reads the offending byte again. *)
Fixpoint utf8_decode_from (st : utf8_state) (bs : list Z) : jsstring :=
  match bs with
  | [] => match bytes_needed st with O => [] | S _ => [65533] end
  | b :: r =>
      match bytes_needed st with
      | O =>
          match utf8_lead b with
          | Emit us => us ++ utf8_decode_from utf8_initial r
          | Continue st' => utf8_decode_from st' r
          end
      | S n =>
          if (lower_boundary st <=? b) && (b <=? upper_boundary st) then
            let c := code_point st * 64 + (b - 128) in
            match n with
            | O => utf16_code_point c ++ utf8_decode_from utf8_initial r
            | S _ => utf8_decode_from (Utf8State c n 128 191) r
            end
          else
            65533 ::
            match utf8_lead b with
            | Emit us => us ++ utf8_decode_from utf8_initial r
            | Continue st' => utf8_decode_from st' r
            end
      end
  end.

Definition utf8_decode (bs : list Z) : jsstring :=
  utf8_decode_from utf8_initial bs.

(** ** Buffer: base64 *)

Definition base64_char (i : Z) : Z :=
  if i <? 26 then 65 + i
  else if i <? 52 then 71 + i
  else if i <? 62 then i - 4
  else if i =? 62 then 43
  else 47.

(** The decoder reads the standard and the URL-safe alphabet. *)
Definition base64_index (c : Z) : option Z :=
  if (65 <=? c) && (c <=? 90) then Some (c - 65)
  else if (97 <=? c) && (c <=? 122) then Some (c - 71)
  else if (48 <=? c) && (c <=? 57) then Some (c + 4)
  else if (c =? 43) || (c =? 45) then Some 62
  else if (c =? 47) || (c =? 95) then Some 63
  else None.

(** [buf.toString('base64')] *)
Fixpoint base64_encode (bs : list Z) : jsstring :=
  match bs with
  | [] => []
  | [a] => [base64_char (a / 4); base64_char (a mod 4 * 16); 61; 61]
  | [a; b] =>
      [base64_char (a / 4); base64_char (a mod 4 * 16 + b / 16);
       base64_char (b mod 16 * 4); 61]
  | a :: b :: c :: r =>
      base64_char (a / 4) :: base64_char (a mod 4 * 16 + b / 16)
        :: base64_char (b mod 16 * 4 + c / 64) :: base64_char (c mod 64)
        :: base64_encode r
  end.

(** The 6-bit values of a base64 text: units outside the alphabet are
    skipped and the first [=] ends the data. *)
Fixpoint sextets (s : jsstring) : list Z :=
  match s with
  | [] => []
  | c :: r =>
      if c =? 61 then []
      else match base64_index c with
           | Some i => i :: sextets r
           | None => sextets r
           end
  end.

Fixpoint bytes_of_sextets (l : list Z) : list Z :=
  match l with
  | a :: b :: c :: d :: r =>
      (a * 4 + b / 16) :: (b mod 16 * 16 + c / 4) :: (c mod 4 * 64 + d)
        :: bytes_of_sextets r
  | [a; b; c] => [a * 4 + b / 16; b mod 16 * 16 + c / 4]
  | [a; b] => [a * 4 + b / 16]
  | _ => []
  end.

(** [Buffer.from(s, 'base64')] *)
Definition base64_decode (s : jsstring) : list Z := bytes_of_sextets (sextets s).

(** [Buffer.from(s).toString('base64')] and
    [Buffer.from(s, 'base64').toString()] *)
Definition to_base64 (s : jsstring) : jsstring := base64_encode (utf8_encode s).
Definition from_base64 (s : jsstring) : jsstring := utf8_decode (base64_decode s).

(** ** JSON.parse *)

Definition is_ws (c : Z) : bool :=
  (c =? 32) || (c =? 9) || (c =? 10) || (c =? 13).

Fixpoint skip_ws (s : jsstring) : jsstring :=
  match s with
  | c :: r => if is_ws c then skip_ws r else s
  | [] => []
  end.

Definition is_digit (c : Z) : bool := (48 <=? c) && (c <=? 57).

Definition hex_value (c : Z) : option Z :=
  if is_digit c then Some (c - 48)
  else if (97 <=? c) && (c <=? 102) then Some (c - 87)
  else if (65 <=? c) && (c <=? 70) then Some (c - 55)
  else None.

(** The unit an escape letter stands for. *)
Definition unescape (e : Z) : option Z :=
  if (e =? 34) || (e =? 92) || (e =? 47) then Some e
  else if e =? 98 then Some 8
  else if e =? 102 then Some 12
  else if e =? 110 then Some 10
  else if e =? 114 then Some 13
  else if e =? 116 then Some 9
  else None.

(** The text after an opening quote, up to the closing one. *)
Fixpoint parse_string (s : jsstring) : option (jsstring * jsstring) :=
  match s with
  | [] => None
  | c :: r =>
      if c =? 34 then Some ([], r)
      else if c =? 92 then
        match r with
        | [] => None
        | e :: r1 =>
            if e =? 117 then
              match r1 with
              | h1 :: h2 :: h3 :: h4 :: r2 =>
                  match hex_value h1, hex_value h2, hex_value h3, hex_value h4 with
                  | Some a, Some b, Some c', Some d =>
                      match parse_string r2 with
                      | Some (t, rest) =>
                          Some ((a * 4096 + b * 256 + c' * 16 + d) :: t, rest)
                      | None => None
                      end
                  | _, _, _, _ => None
                  end
              | _ => None
              end
            else
              match unescape e with
              | Some u =>
                  match parse_string r1 with
                  | Some (t, rest) => Some (u :: t, rest)
                  | None => None
                  end
              | None => None
              end
        end
      else if c <? 32 then None
      else
        match parse_string r with
        | Some (t, rest) => Some (c :: t, rest)
        | None => None
        end
  end.

(** The leading decimal digits of a text, as values, and what follows. *)
Fixpoint span_digits (s : jsstring) : list Z * jsstring :=
  match s with
  | c :: r =>
      if is_digit c then
        let '(ds, rest) := span_digits r in ((c - 48) :: ds, rest)
      else ([], s)
  | [] => ([], [])
  end.

Definition digits_value (ds : list Z) : Z :=
  fold_left (fun a d => a * 10 + d) ds 0.

(** fraction: a dot and at least one digit *)
Definition parse_fraction (s : jsstring) : option (list Z * jsstring) :=
  match s with
  | c :: r =>
      if c =? 46 then
        match span_digits r with
        | ([], _) => None
        | (ds, rest) => Some (ds, rest)
        end
      else Some ([], s)
  | [] => Some ([], [])
  end.

(** exponent: e or E, an optional sign and at least one digit *)
Definition parse_exponent (s : jsstring) : option (Z * jsstring) :=
  match s with
  | c :: r =>
      if (c =? 101) || (c =? 69) then
        let '(neg, r1) :=
          match r with
          | sg :: r' =>
              if sg =? 45 then (true, r')
              else if sg =? 43 then (false, r') else (false, r)
          | [] => (false, r)
          end in
        match span_digits r1 with
        | ([], _) => None
        | (ds, rest) =>
            Some (if neg then - digits_value ds else digits_value ds, rest)
        end
      else Some (0, s)
  | [] => Some (0, [])
  end.

(** number: an optional minus, then 0 or a digit string that does not start
    with 0, then an optional fraction and an optional exponent *)
Definition parse_number (s : jsstring) : option (json * jsstring) :=
  let '(neg, s1) :=
    match s with
    | c :: r => if c =? 45 then (true, r) else (false, s)
    | [] => (false, s)
    end in
  match span_digits s1 with
  | ([], _) => None
  | (d :: ds, s2) =>
      if (d =? 0) && negb (bool_decide (ds = [])) then None
      else
        match parse_fraction s2 with
        | None => None
        | Some (fs, s3) =>
            match parse_exponent s3 with
            | None => None
            | Some (e, s4) =>
                let m := digits_value (d :: ds ++ fs) in
                Some (JNum (if neg then - m else m) (e - Z.of_nat (length fs)),
                      s4)
            end
        end
  end.

Fixpoint parse_value (fuel : nat) (s : jsstring) : option (json * jsstring) :=
  match fuel with
  | O => None
  | S f =>
      match skip_ws s with
      | [] => None
      | c :: r =>
          if c =? 123 then
            match skip_ws r with
            | c' :: r' =>
                if c' =? 125 then Some (JObj [], r') else parse_members f r []
            | [] => None
            end
          else if c =? 91 then
            match skip_ws r with
            | c' :: r' =>
                if c' =? 93 then Some (JArr [], r') else parse_elements f r []
            | [] => None
            end
          else if c =? 34 then
            match parse_string r with
            | Some (t, rest) => Some (JStr t, rest)
            | None => None
            end
          else if startsWith (js "true") (c :: r) then
            Some (JBool true, drop 4 (c :: r))
          else if startsWith (js "false") (c :: r) then
            Some (JBool false, drop 5 (c :: r))
          else if startsWith (js "null") (c :: r) then
            Some (JNull, drop 4 (c :: r))
          else parse_number (c :: r)
      end
  end
with parse_elements (fuel : nat) (s : jsstring) (acc : list json)
    : option (json * jsstring) :=
  match fuel with
  | O => None
  | S f =>
      match parse_value f s with
      | None => None
      | Some (v, r) =>
          match skip_ws r with
          | c :: r' =>
              if c =? 44 then parse_elements f r' (v :: acc)
              else if c =? 93 then Some (JArr (rev (v :: acc)), r')
              else None
          | [] => None
          end
      end
  end
with parse_members (fuel : nat) (s : jsstring) (acc : list (jsstring * json))
    : option (json * jsstring) :=
  match fuel with
  | O => None
  | S f =>
      match skip_ws s with
      | c :: r =>
          if c =? 34 then
            match parse_string r with
            | None => None
            | Some (k, r1) =>
                match skip_ws r1 with
                | c1 :: r2 =>
                    if c1 =? 58 then
                      match parse_value f r2 with
                      | None => None
                      | Some (v, r3) =>
                          match skip_ws r3 with
                          | c3 :: r4 =>
                              if c3 =? 44 then parse_members f r4 ((k, v) :: acc)
                              else if c3 =? 125 then
                                Some (JObj (rev ((k, v) :: acc)), r4)
                              else None
                          | [] => None
                          end
                      end
                    else None
                | [] => None
                end
            end
          else None
      | [] => None
      end
  end.

(** [JSON.parse(s)], [None] when it throws a SyntaxError. *)
Definition JSON_parse (s : jsstring) : option json :=
  match parse_value (2 * length s + 2) s with
  | Some (v, r) => match skip_ws r with [] => Some v | _ :: _ => None end
  | None => None
  end.

(** ** Number values *)

(** The size of a number value that is not NaN: zero, infinity, or
    [mantissa * 2 ^ exponent] with the mantissa below 2^53, and at least 2^52
    unless the exponent is -1074. *)
Inductive magnitude : Type :=
  | MagZero
  | MagInfinity
  | MagFinite (mantissa exponent : Z).

(** [num / (den * 2 ^ E)] as a fraction *)
Definition shift_ratio (num den E : Z) : Z * Z :=
  if 0 <=? E then (num, den * 2 ^ E) else (num * 2 ^ (- E), den).

(** The integer nearest to [n / d], the even one of two that are as near. *)
Definition round_half_even (n d : Z) : Z :=
  let q := n / d in
  match 2 * (n mod d) ?= d with
  | Lt => q
  | Gt => q + 1
  | Eq => if Z.even q then q else q + 1
  end.

(** The double nearest to [p * 10 ^ e], for [p] not negative: the value of
    a number literal. *)
Definition nearest_double (p e : Z) : magnitude :=
  if p =? 0 then MagZero
  else if 400 <? e then MagInfinity
  else if e + Z.log2 p + 1 <? -400 then MagZero
  else
    let '(num, den) := if 0 <=? e then (p * 10 ^ e, 1) else (p, 10 ^ (- e)) in
    let E1 := Z.log2 num - Z.log2 den - 52 in
    let '(n1, d1) := shift_ratio num den E1 in
    let E2 := if n1 / d1 <? 2 ^ 52 then E1 - 1 else E1 in
    let E := Z.max E2 (-1074) in
    let '(n, d) := shift_ratio num den E in
    let q := round_half_even n d in
    if q =? 0 then MagZero
    else
      let '(M, E') := if q =? 2 ^ 53 then (2 ^ 52, E + 1) else (q, E) in
      if 971 <? E' then MagInfinity else MagFinite M E'.

Definition magnitude_eqb (a b : magnitude) : bool :=
  match a, b with
  | MagZero, MagZero | MagInfinity, MagInfinity => true
  | MagFinite m e, MagFinite m' e' => (m =? m') && (e =? e')
  | _, _ => false
  end.

(** [vn / vd < 10 ^ n] *)
Definition below_power (vn vd n : Z) : bool :=
  if 0 <=? n then vn <? 10 ^ n * vd else vn * 10 ^ (- n) <? vd.

Fixpoint first_power (fuel : nat) (vn vd n : Z) : Z :=
  match fuel with
  | O => n
  | S f => if below_power vn vd n then n else first_power f vn vd (n + 1)
  end.

(** The least [n] with [vn / vd < 10 ^ n] *)
Definition decimal_exponent (vn vd : Z) : Z :=
  first_power 8 vn vd ((Z.log2 vn - Z.log2 vd) * 30103 / 100000 - 2).

(** The [k]-digit decimals next to [vn / vd], where [10 ^ (n - 1) <= vn / vd
    < 10 ^ n]: the one that reads back as the double [M * 2 ^ E] and is
    nearest (the even one of two as near), if there is one. *)
Definition digits_at (M E vn vd n k : Z) : option (Z * Z) :=
  let t := k - n in
  let '(sn, sd) := if 0 <=? t then (vn * 10 ^ t, vd) else (vn, vd * 10 ^ (- t)) in
  let lo := sn / sd in
  let hi := lo + 1 in
  let reads s := magnitude_eqb (nearest_double s (n - k)) (MagFinite M E) in
  let up := if hi =? 10 ^ k then (1, n + 1) else (hi, n) in
  match reads lo, reads hi with
  | true, true =>
      match 2 * (sn mod sd) ?= sd with
      | Lt => Some (lo, n)
      | Gt => Some up
      | Eq => if Z.even lo then Some (lo, n) else Some up
      end
  | true, false => Some (lo, n)
  | false, true => Some up
  | false, false => None
  end.

Fixpoint shortest_from (fuel : nat) (M E vn vd n k : Z) : Z * Z :=
  match fuel with
  | O => (vn * 10 ^ (17 - n) / vd, n)
  | S f =>
      match digits_at M E vn vd n k with
      | Some r => r
      | None => shortest_from f M E vn vd n (k + 1)
      end
  end.

(** The digits [s] and the exponent [n] of Number::toString: the fewest
    digits with which [s * 10 ^ (n - k)] reads back as the double. *)
Definition shortest_digits (M E : Z) : Z * Z :=
  let '(vn, vd) := if 0 <=? E then (M * 2 ^ E, 1) else (M, 2 ^ (- E)) in
  shortest_from 17 M E vn vd (decimal_exponent vn vd) 1.

(** The text of Number::toString for the digits [s] and the exponent [n]. *)
Definition number_format (s n : Z) : jsstring :=
  let digits := decimal s in
  let k := Z.of_nat (length digits) in
  if (k <=? n) && (n <=? 21) then digits ++ replicate (Z.to_nat (n - k)) 48
  else if (0 <? n) && (n <=? 21) then
    take (Z.to_nat n) digits ++ 46 :: drop (Z.to_nat n) digits
  else if (-6 <? n) && (n <=? 0) then
    48 :: 46 :: replicate (Z.to_nat (- n)) 48 ++ digits
  else
    let exponent := (if 0 <=? n - 1 then 43 else 45) :: decimal (Z.abs (n - 1)) in
    match digits with
    | [] => []
    | [d] => d :: 101 :: exponent
    | d :: rest => d :: 46 :: rest ++ 101 :: exponent
    end.

(** [String(x)] of the number that the literal [m * 10 ^ e] denotes, with
    [infinity] for the text of an infinite one. *)
Definition number_text (infinity : bool -> jsstring) (m e : Z) : jsstring :=
  match nearest_double (Z.abs m) e with
  | MagZero => [48]
  | MagInfinity => infinity (m <? 0)
  | MagFinite M E =>
      let '(s, n) := shortest_digits M E in
      (if m <? 0 then [45] else []) ++ number_format s n
  end.

(** ** Objects *)

(** An array index: the digits, without a leading zero, of an integer up to
    2^32 - 2. *)
Definition array_index (k : jsstring) : option Z :=
  match k with
  | [] => None
  | c :: r =>
      if forallb is_digit k && ((negb (c =? 48)) || bool_decide (r = [])) then
        let n := digits_value (map (fun u => u - 48) k) in
        if n <=? 4294967294 then Some n else None
      else None
  end.

(** CreateDataProperty on the properties so far: the value of a key that is
    there already is replaced where it stands. *)
Fixpoint define {A} (k : jsstring) (v : A) (l : list (jsstring * A))
    : list (jsstring * A) :=
  match l with
  | [] => [(k, v)]
  | (k', v') :: r =>
      if jsstring_eqb k k' then (k, v) :: r else (k', v') :: define k v r
  end.

Fixpoint insert_index {A} (n : Z) (kv : jsstring * A)
    (l : list (Z * (jsstring * A))) : list (Z * (jsstring * A)) :=
  match l with
  | [] => [(n, kv)]
  | (n', kv') :: r =>
      if n <? n' then (n, kv) :: l else (n', kv') :: insert_index n kv r
  end.

(** The properties of the object that [JSON.parse] makes of the members [l],
    in the order in which they are enumerated: array indices in ascending
    order, then the other keys in the order of their first appearance. *)
Definition own_properties {A} (l : list (jsstring * A)) : list (jsstring * A) :=
  let props := fold_left (fun acc kv => define kv.1 kv.2 acc) l [] in
  let indexed :=
    fold_left (fun acc kv => match array_index kv.1 with
                             | Some n => insert_index n kv acc
                             | None => acc
                             end) props [] in
  map snd indexed
    ++ filter (fun kv => array_index kv.1 = None) props.

(** ** Values that JSON.parse made *)

(** [JSON.stringify(v)] for the value that [JSON.parse] made of [v]: a number
    is the double nearest to its literal (an infinite one is written
    [null]), and an object has its properties as they are enumerated. *)
Fixpoint JSON_stringify_parsed (v : json) : jsstring :=
  match v with
  | JNull => js "null"
  | JBool true => js "true"
  | JBool false => js "false"
  | JNum m e => number_text (fun _ => js "null") m e
  | JStr s => JSON_quote s
  | JArr l => 91 :: join 44 (map JSON_stringify_parsed l) ++ [93]
  | JObj l =>
      123 :: join 44 (map (fun '(k, t) => JSON_quote k ++ 58 :: t)
                        (own_properties
                           (map (fun '(k, x) => (k, JSON_stringify_parsed x)) l)))
        ++ [125]
  end.

Definition infinity_text (negative : bool) : jsstring :=
  if negative then js "-Infinity" else js "Infinity".

(** [String(v)] for the value that [JSON.parse] made of [v]; an array is
    joined with commas, [null] elements being empty. *)
Fixpoint String_of_parsed (v : json) : jsstring :=
  match v with
  | JNull => js "null"
  | JBool true => js "true"
  | JBool false => js "false"
  | JNum m e => number_text infinity_text m e
  | JStr s => s
  | JArr l =>
      join 44 (map (fun x => match x with
                             | JNull => []
                             | _ => String_of_parsed x
                             end) l)
  | JObj _ => js "[object Object]"
  end.

(** ** Effects *)

(** What this code and its environment throw.  [Error] is [new Error(m)];
    [TypeError] and [SyntaxError] come from the engine (a property read on
    [null] or [undefined], [JSON.parse]); [Rejection] is any value a promise of
    the environment rejects with, with its [code] and [message] if it has
    them. *)
Inductive thrown : Type :=
  | Error (message : jsstring)
  | TypeError (message : jsstring)
  | SyntaxError (message : jsstring)
  | Rejection (code : option Z) (message : option jsstring).

(** [err.message] inside a template literal *)
Definition message_of (e : thrown) : jsstring :=
  match e with
  | Error m | TypeError m | SyntaxError m => m
  | Rejection _ (Some m) => m
  | Rejection _ None => js "undefined"
  end.

Definition code_of (e : thrown) : option Z :=
  match e with
  | Rejection c _ => c
  | _ => None
  end.

(** [RequestInit] as the callers build it: [method], a text [body], and
    [headers] as a plain object (absent headers are the empty object, which
    is what the spreads of the source make of them). *)
Record RequestInit : Type := mkInit {
  method : option jsstring;
  body : option jsstring;
  headers : gmap jsstring jsstring
}.

Record Response : Type := mkResponse {
  status : Z;
  text : jsstring
}.

(** [response.ok] *)
Definition ok (r : Response) : bool := (200 <=? status r) && (status r <=? 299).

Record Receipt : Type := mkReceipt { receipt_status : option jsstring }.

(** The calls this code makes on [window.ethereum.request]. *)
Inductive WalletRequest : Type :=
  | eth_chainId
  | eth_accounts
  | eth_requestAccounts
  | wallet_switchEthereumChain (params : json)
  | wallet_addEthereumChain (params : json)
  | eth_signTypedData_v4 (address : jsstring) (typedData : jsstring)
  | eth_sendTransaction (tx : json)
  | eth_getTransactionReceipt (txHash : jsstring).

(** What a call resolves to, at the type the source casts it to; [None] is
    [null]. *)
Definition reply (r : WalletRequest) : Type :=
  match r with
  | eth_accounts | eth_requestAccounts => option (list jsstring)
  | eth_getTransactionReceipt _ => option Receipt
  | wallet_switchEthereumChain _ | wallet_addEthereumChain _ => unit
  | eth_chainId | eth_signTypedData_v4 _ _ | eth_sendTransaction _ => jsstring
  end.

Inductive Event : Type :=
  | Fetch (url : jsstring) (init : option RequestInit)
  | Wallet (req : WalletRequest)
  | GetRandomValues (n : nat)
  | DateNow
  | Sleep (ms : Z).

(** The environment: every answer may depend on all the events so far. *)
Record World : Type := mkWorld {
  window_ethereum : list Event -> bool;
  fetch_result : list Event -> jsstring -> option RequestInit -> thrown + Response;
  ethereum_request : list Event -> forall r : WalletRequest, thrown + reply r;
  clock_ms : list Event -> Z;
  random_byte : list Event -> nat -> Z;
  NEXT_PUBLIC_BROKER_API_URL : option jsstring;
  NEXT_PUBLIC_HTTPAYER_RELAY : option jsstring;
  (** the message of the SyntaxError of [JSON.parse] on a text, which is the
      engine's own wording *)
  JSON_parse_message : jsstring -> jsstring
}.

(** A computation takes the events so far and gives its outcome and the
    events it adds, in order. *)
Definition M (A : Type) : Type := list Event -> (thrown + A) * list Event.

Definition throw {A} (e : thrown) : M A := fun _ => (inl e, []).

(** [k] run after the events [evs], which are put in front of its own. *)
Definition after {A} (evs : list Event) (k : M A) : M A := fun h =>
  let '(r, evs') := k (h ++ evs) in (r, evs ++ evs').

#[global] Instance M_ret : MRet M := fun A a _ => (inr a, []).
#[global] Instance M_bind : MBind M := fun A B f m h =>
  match m h with
  | (inr a, evs) => after evs (f a) h
  | (inl e, evs) => (inl e, evs)
  end.

(** Sequencing of expressions that may throw but have no effect. *)
#[global] Instance thrown_bind : MBind (sum thrown) := fun A B f x =>
  match x with
  | inr a => f a
  | inl e => inl e
  end.

(** [try { m } catch (e) { handler e }] *)
Definition try_catch {A} (m : M A) (handler : thrown -> M A) : M A := fun h =>
  match m h with
  | (inr a, evs) => (inr a, evs)
  | (inl e, evs) => after evs (handler e) h
  end.

(** A throwing expression lifted into the computation. *)
Definition lift {A} (x : thrown + A) : M A :=
  match x with inl e => throw e | inr a => mret a end.

Definition fetches (h : list Event) : list (jsstring * option RequestInit) :=
  omap (fun e => match e with Fetch u i => Some (u, i) | _ => None end) h.

Section Client.
Variable W : World.

Definition has_ethereum : M bool := fun h => (inr (window_ethereum W h), []).

Definition fetch (url : jsstring) (init : option RequestInit) : M Response :=
  fun h => (fetch_result W h url init, [Fetch url init]).

Definition request (r : WalletRequest) : M (reply r) :=
  fun h => (ethereum_request W h r, [Wallet r]).

(** [crypto.getRandomValues(new Uint8Array(n))] *)
Definition getRandomValues (n : nat) : M (list Z) :=
  fun h => (inr (map (fun i => random_byte W h i mod 256) (seq 0 n)),
            [GetRandomValues n]).

(** [Date.now()] *)
Definition Date_now : M Z := fun h => (inr (clock_ms W h), [DateNow]).

(** [await new Promise(resolve => setTimeout(resolve, ms))] *)
Definition sleep (ms : Z) : M unit := fun h => (inr tt, [Sleep ms]).

(** ** x402-client.ts *)

(** The members of [X402PaymentRequirements['accepts'][0]] the client reads.
    The interface declares them as strings; a JSON body cast to it may lack
    any of them, so each is optional here ([None] is [undefined]). *)
Record PaymentOption : Type := mkOption {
  scheme : option jsstring;
  network : option jsstring;
  payTo : option jsstring;
  asset : option jsstring;
  maxAmountRequired : option jsstring
}.

(** [accepts] is [None] when the member is absent or is not an array. *)
Record X402PaymentRequirements : Type := mkRequirements {
  x402Version : option Z;
  accepts : option (list PaymentOption)
}.

Record PaymentInfo : Type := mkInfo {
  info_network : option jsstring;
  spender : option jsstring;
  info_asset : option jsstring;
  userAddress : option jsstring
}.

Record PaymentResult : Type := mkResult {
  paymentHeader : jsstring;
  paymentInfo : PaymentInfo
}.

(** Own properties of the [chainIds] object literal. *)
Definition chainIds : gmap jsstring Z :=
  list_to_map
    [(js "avalanche", 43114); (js "avalanche-c", 43114);
     (js "avalanche-c-chain", 43114); (js "avax", 43114);
     (js "base", 8453); (js "base-mainnet", 8453); (js "base-sepolia", 84532);
     (js "ethereum", 1); (js "eth-mainnet", 1);
     (js "polygon", 137); (js "polygon-mainnet", 137);
     (js "arbitrum", 42161); (js "optimism", 10)].

(** What [chainIds[key] || 43114] evaluates to.  The object literal inherits
    from [Object.prototype], whose only members with an all-lower-case name
    are [constructor] and [__proto__]; both are truthy objects. *)
Inductive chain_lookup : Type :=
  | ChainId (n : Z)
  | Inherited (member : jsstring).

Definition getChainIdFromNetwork (network : jsstring) : chain_lookup :=
  let key := toLowerCase network in
  match chainIds !! key with
  | Some n => if n =? 0 then ChainId 43114 else ChainId n
  | None =>
      if bool_decide (key = js "constructor") || bool_decide (key = js "__proto__")
      then Inherited key else ChainId 43114
  end.

Definition targetChainId : Z := 43114.
Definition targetChainIdHex : jsstring := js "0x" ++ Number_toString16 targetChainId.

Definition json_opt (s : option jsstring) : option json := JStr <$> s.

(** [String(x)] of a string or [undefined] *)
Definition String_of (s : option jsstring) : jsstring :=
  match s with Some t => t | None => js "undefined" end.

(** ['0x' + Array.from(nonceBytes).map(b => b.toString(16).padStart(2, '0')).join('')] *)
Definition nonce_of_bytes (nonceBytes : list Z) : jsstring :=
  js "0x" ++ concat (map (fun b => padStart 2 48 (Number_toString16 b)) nonceBytes).

Definition addChainParams : json :=
  obj [("chainId", Some (JStr targetChainIdHex));
       ("chainName", Some (jstr "Avalanche C-Chain"));
       ("nativeCurrency",
        Some (obj [("name", Some (jstr "AVAX")); ("symbol", Some (jstr "AVAX"));
                   ("decimals", Some (jint 18))]));
       ("rpcUrls", Some (JArr [jstr "https://api.avax.network/ext/bc/C/rpc"]));
       ("blockExplorerUrls", Some (JArr [jstr "https://snowtrace.io/"]))].

(** The EIP-712 domain of the signing request. *)
Definition domain (paymentOption : PaymentOption) : json :=
  obj [("name", Some (jstr "USD Coin"));
       ("version", Some (jstr "2"));
       ("chainId", Some (jint targetChainId));
       ("verifyingContract", json_opt (asset paymentOption))].

Definition types : json :=
  let field (n t : string) : json :=
    obj [("name", Some (jstr n)); ("type", Some (jstr t))] in
  obj [("TransferWithAuthorization",
        Some (JArr [field "from" "address"; field "to" "address";
                    field "value" "uint256"; field "validAfter" "uint256";
                    field "validBefore" "uint256"; field "nonce" "bytes32"]))].

(** The TransferWithAuthorization message that is signed. *)
Definition message (paymentOption : PaymentOption) (userAddress : jsstring)
    (validAfter validBefore : Z) (nonce : jsstring) : json :=
  obj [("from", Some (JStr userAddress));
       ("to", json_opt (payTo paymentOption));
       ("value", json_opt (maxAmountRequired paymentOption));
       ("validAfter", Some (jint validAfter));
       ("validBefore", Some (jint validBefore));
       ("nonce", Some (JStr nonce))].

Definition typedData (paymentOption : PaymentOption) (userAddress : jsstring)
    (validAfter validBefore : Z) (nonce : jsstring) : json :=
  obj [("domain", Some (domain paymentOption));
       ("types", Some types);
       ("primaryType", Some (jstr "TransferWithAuthorization"));
       ("message",
        Some (message paymentOption userAddress validAfter validBefore nonce))].

(** The x402 payment that goes into the header, before encoding. *)
Definition paymentData (signature : jsstring) (paymentOption : PaymentOption)
    (userAddress : jsstring) (validAfter validBefore : Z) (nonce : jsstring)
    : json :=
  obj [("x402Version", Some (jint 1));
       ("scheme", Some (jstr "exact"));
       ("network", Some (jstr "avalanche"));
       ("payload",
        Some (obj [("signature", Some (JStr signature));
                   ("authorization",
                    Some (obj [("from", Some (JStr userAddress));
                               ("to", json_opt (payTo paymentOption));
                               ("value", Some (JStr (String_of (maxAmountRequired paymentOption))));
                               ("validAfter", Some (JStr (Number_toString validAfter)));
                               ("validBefore", Some (JStr (Number_toString validBefore)));
                               ("nonce", Some (JStr nonce))]))]))].

(** [Buffer.from(JSON.stringify(paymentData)).toString('base64')] *)
Definition encode_payment (data : json) : jsstring :=
  to_base64 (JSON_stringify data).

Definition MetaMaskNotFound : thrown :=
  Error (js "MetaMask not found. Please connect your wallet first.").

Definition MetaMaskPaymentFailed (e : thrown) : thrown :=
  Error (js "MetaMask payment failed: " ++ message_of e).

(** The network check at the head of [signWithMetaMask]. *)
Definition ensureNetwork : M unit :=
  currentChainId ← request eth_chainId;
  if bool_decide (currentChainId ≠ targetChainIdHex) then
    try_catch
      (request (wallet_switchEthereumChain
                  (JArr [obj [("chainId", Some (JStr targetChainIdHex))]])))
      (fun switchError =>
         if bool_decide (code_of switchError = Some 4902) then
           request (wallet_addEthereumChain (JArr [addChainParams]))
         else throw switchError)
  else mret tt.

Definition signWithMetaMask (paymentOption : PaymentOption)
    (userAddress : jsstring) : M jsstring :=
  present ← has_ethereum;
  if negb present then throw MetaMaskNotFound
  else
    try_catch
      (ensureNetwork;;
       nonceBytes ← getRandomValues 32;
       let nonce := nonce_of_bytes nonceBytes in
       now ← Date_now;
       let validAfter := now / 1000 in
       let validBefore := validAfter + 900 in
       signature ← request
         (eth_signTypedData_v4 userAddress
            (JSON_stringify
               (typedData paymentOption userAddress validAfter validBefore nonce)));
       mret (encode_payment
               (paymentData signature paymentOption userAddress
                  validAfter validBefore nonce)))
      (fun error => throw (MetaMaskPaymentFailed error)).

Definition InvalidChallenge : thrown :=
  Error (js "Invalid x402 payment requirements: missing 'accepts' array").

(** [o.k] where [o] may be [undefined] or [null] *)
Definition read (k : string) (o : option json) : thrown + option json :=
  match o with
  | None =>
      inl (TypeError (js "Cannot read properties of undefined (reading '"
                        ++ js k ++ js "')"))
  | Some JNull =>
      inl (TypeError (js "Cannot read properties of null (reading '"
                        ++ js k ++ js "')"))
  | Some v => inr (json_get k v)
  end.

(** A value read from parsed JSON, at the type [string] that [PaymentInfo]
    declares for it. *)
Definition as_string (v : option json) : option jsstring :=
  match v with
  | Some (JStr s) => Some s
  | _ => None
  end.

(** [JSON.parse(s)] as a throwing expression *)
Definition JSON_parse_or_throw (s : jsstring) : thrown + json :=
  match JSON_parse s with
  | Some v => inr v
  | None => inl (SyntaxError (JSON_parse_message W s))
  end.

(** The decoding of the header into [PaymentInfo]. *)
Definition decode_payment_info (paymentHeader : jsstring)
    (paymentOption : PaymentOption) : thrown + PaymentInfo :=
  decodedHeader ← JSON_parse_or_throw (from_base64 paymentHeader);
  net ← read "network" (Some decodedHeader);
  payload ← read "payload" (Some decodedHeader);
  authorization ← read "authorization" payload;
  to ← read "to" authorization;
  payload' ← read "payload" (Some decodedHeader);
  authorization' ← read "authorization" payload';
  from ← read "from" authorization';
  inr {| info_network := as_string net;
         spender := as_string to;
         info_asset := asset paymentOption;
         userAddress := as_string from |}.

Definition createX402Payment (requirements : X402PaymentRequirements)
    (walletAddress : jsstring) : M PaymentResult :=
  match accepts requirements with
  | None | Some [] => throw InvalidChallenge
  | Some (paymentOption :: _) =>
      paymentHeader ← signWithMetaMask paymentOption walletAddress;
      paymentInfo ← lift (decode_payment_info paymentHeader paymentOption);
      mret {| paymentHeader := paymentHeader; paymentInfo := paymentInfo |}
  end.

(** ** Revocation *)

Definition RevocationTransactionFailed : thrown :=
  Error (js "Revocation transaction failed").

Definition FailedToRevoke (e : thrown) : thrown :=
  Error (js "Failed to revoke approval: " ++ message_of e).

Definition approveSignature : jsstring := js "0x095ea7b3".

(** The calldata of [approve(spender, 0)]. *)
Definition approve_zero_data (spender : jsstring) : jsstring :=
  let paddedSpender := padStart 64 48 (replace_first (js "0x") [] spender) in
  let paddedAmount := padStart 64 48 (js "0") in
  approveSignature ++ paddedSpender ++ paddedAmount.

Definition maxAttempts : nat := 30.

(** The receipt loop, by the number of attempts that are left
    ([maxAttempts - attempts]); it stops with the first receipt. *)
Fixpoint wait_for_receipt (left : nat) (txHash : jsstring) : M (option Receipt) :=
  match left with
  | O => mret None
  | S left' =>
      receipt ← try_catch (request (eth_getTransactionReceipt txHash))
                          (fun _ => mret None);
      match receipt with
      | Some r => mret (Some r)
      | None => sleep 2000;; wait_for_receipt left' txHash
      end
  end.

Definition revokeApproval (paymentInfo : PaymentInfo) : M unit :=
  present ← has_ethereum;
  if negb present then throw (Error (js "MetaMask not found"))
  else
    try_catch
      (accounts ← request eth_requestAccounts;
       userAddress ← lift (match accounts with
                           | None => inl (TypeError (js "Cannot read properties of null (reading '0')"))
                           | Some l => inr (head l)
                           end);
       data ← lift (match spender paymentInfo with
                    | None => inl (TypeError (js "Cannot read properties of undefined (reading 'replace')"))
                    | Some s => inr (approve_zero_data s)
                    end);
       txHash ← request
         (eth_sendTransaction
            (JArr [obj [("from", json_opt userAddress);
                        ("to", json_opt (info_asset paymentInfo));
                        ("data", Some (JStr data));
                        ("value", Some (jstr "0x0"))]]));
       receipt ← wait_for_receipt maxAttempts txHash;
       match receipt with
       | None => throw RevocationTransactionFailed
       | Some r =>
           if bool_decide (receipt_status r = Some (js "0x0"))
           then throw RevocationTransactionFailed
           else mret tt
       end)
      (fun error => throw (FailedToRevoke error)).

(** ** The broker helper *)

Definition default_broker : jsstring :=
  js "https://multidimensional-reviewless-freda.ngrok-free.dev".

(** [a || b] on an optional string: the empty string is falsy too. *)
Definition or_else (a : option jsstring) (b : jsstring) : jsstring :=
  match a with
  | Some (c :: s) => c :: s
  | _ => b
  end.

Definition BROKER_API_BASE : jsstring :=
  or_else (NEXT_PUBLIC_BROKER_API_URL W) default_broker.

Definition MalformedChallenge : thrown :=
  Error (js "Invalid payment requirements from broker").

Definition WalletUnavailable : thrown :=
  Error (js "Payment required but wallet not connected. Please connect your wallet.").

Definition WalletNotConnected : thrown :=
  Error (js "Wallet not connected. Please connect your wallet first.").

Definition BrokerRequestFailed (r : Response) : thrown :=
  Error (js "Broker request failed (" ++ Number_toString (status r) ++ js "): "
           ++ text r).

(** [v as X402PaymentRequirements['accepts'][0]]: the members at their
    declared type; a member of another type is off the interface and is read
    as absent. *)
Definition as_option (v : json) : PaymentOption :=
  {| scheme := as_string (json_get "scheme" v);
     network := as_string (json_get "network" v);
     payTo := as_string (json_get "payTo" v);
     asset := as_string (json_get "asset" v);
     maxAmountRequired := as_string (json_get "maxAmountRequired" v) |}.

(** [JSON.parse(text) as X402PaymentRequirements].  The parsed value may be
    [null], on which the first property read of [createX402Payment] throws. *)
Definition as_requirements (v : json) : thrown + X402PaymentRequirements :=
  match v with
  | JNull =>
      inl (TypeError (js "Cannot read properties of null (reading 'accepts')"))
  | _ =>
      inr {| x402Version := match json_get "x402Version" v with
                            | Some (JNum m 0) => Some m
                            | _ => None
                            end;
             accepts := match json_get "accepts" v with
                        | Some (JArr l) => Some (map as_option l)
                        | _ => None
                        end |}
  end.

(** [JSON.stringify(paymentResult)] *)
Definition stringify_result (r : PaymentResult) : jsstring :=
  JSON_stringify
    (obj [("paymentHeader", Some (JStr (paymentHeader r)));
          ("paymentInfo",
           Some (obj [("network", json_opt (info_network (paymentInfo r)));
                      ("spender", json_opt (spender (paymentInfo r)));
                      ("asset", json_opt (info_asset (paymentInfo r)));
                      ("userAddress", json_opt (userAddress (paymentInfo r)))]))]).

(** [{ 'Content-Type': 'application/json', ...options.headers }] *)
Definition first_headers (options : RequestInit) : gmap jsstring jsstring :=
  headers options ∪ {[ js "Content-Type" := js "application/json" ]}.

Definition first_init (options : RequestInit) : RequestInit :=
  {| method := method options; body := body options;
     headers := first_headers options |}.

(** [{ 'Content-Type': 'application/json', ...options.headers, 'X-Payment': h }] *)
Definition retry_init (options : RequestInit) (h : jsstring) : RequestInit :=
  {| method := method options; body := body options;
     headers := <[ js "X-Payment" := h ]> (first_headers options) |}.

(** The tail shared by both paths: check the final response. *)
Definition finish (response : Response) : M json :=
  if negb (ok response) then throw (BrokerRequestFailed response)
  else lift (JSON_parse_or_throw (text response)).

Definition brokerRequestWithPayment (endpoint : jsstring)
    (options : RequestInit) : M json :=
  let url := BROKER_API_BASE ++ endpoint in
  response ← fetch url (Some (first_init options));
  if status response =? 402 then
    parsed ← try_catch (lift (JSON_parse_or_throw (text response)))
                       (fun _ => throw MalformedChallenge);
    present ← has_ethereum;
    if negb present then throw WalletUnavailable
    else
      accounts ← request eth_accounts;
      match accounts with
      | None | Some [] => throw WalletNotConnected
      | Some (userAddress :: _) =>
          paymentRequirements ← lift (as_requirements parsed);
          paymentResult ← createX402Payment paymentRequirements userAddress;
          let paymentHeader := stringify_result paymentResult in
          response ← fetch url (Some (retry_init options paymentHeader));
          finish response
      end
  else finish response.

(** ** run and store *)

(** The parameters of [run]: the members its type declares, in the order in
    which the caller writes them; [gpu_count] and [timeout] are whole
    numbers (below 10^21 in size, where [JSON.stringify] prints all the
    digits). *)
Record RunParams : Type := mkRunParams {
  code : jsstring;
  language : jsstring;
  gpu_type : option jsstring;
  gpu_count : option Z; timeout : option Z;
  on_demand : option bool
}.

(** [params] as [JSON.stringify] sees it. *)
Definition run_body (params : RunParams) : json :=
  obj [("code", Some (JStr (code params)));
       ("language", Some (JStr (language params)));
       ("gpu_type", json_opt (gpu_type params));
       ("gpu_count", jint <$> gpu_count params);
       ("timeout", jint <$> timeout params);
       ("on_demand", JBool <$> on_demand params)].

Definition run (params : RunParams) : M json :=
  brokerRequestWithPayment (js "/run")
    {| method := Some (js "POST");
       body := Some (JSON_stringify (run_body params));
       headers := ∅ |}.

(** A [File]: its name and the bytes that [arrayBuffer()] resolves to. *)
Record File : Type := mkFile {
  name : jsstring;
  arrayBuffer : list Byte.byte
}.

(** The [options] of [store], with [ttl] a whole number of seconds. *)
Record StoreOptions : Type := mkStoreOptions {
  permanent : option bool;
  ttl : option Z;
  provider : option jsstring
}.

Record StoreParams : Type := mkStoreParams {
  data : jsstring + File;
  filename : option jsstring;
  options : option StoreOptions
}.

(** [/^[A-Za-z0-9+/=]+$/.test(u)] for one unit *)
Definition is_base64_unit (u : Z) : bool :=
  ((65 <=? u) && (u <=? 90)) || ((97 <=? u) && (u <=? 122))
  || ((48 <=? u) && (u <=? 57)) || (u =? 43) || (u =? 47) || (u =? 61).

(** [s.match(/^[A-Za-z0-9+/=]+$/)] as a condition *)
Definition looks_base64 (s : jsstring) : bool :=
  negb (bool_decide (s = [])) && forallb is_base64_unit s.

(** The [DOMException] named InvalidCharacterError (legacy code 5) that
    [btoa] throws; the words of its message are the engine's. *)
Definition InvalidCharacterError : thrown :=
  Rejection (Some 5) (Some (js "Invalid character")).

(** [btoa(s)]: the base64 text of a string of units below 256 *)
Definition btoa (s : jsstring) : thrown + jsstring :=
  if forallb (fun u => u <=? 255) s then inr (base64_encode s)
  else inl InvalidCharacterError.

(** The loop [binary += String.fromCharCode(bytes[i])] *)
Definition binary_of (bytes : list Byte.byte) : jsstring :=
  map (fun b => Z.of_N (Byte.to_N b)) bytes.

(** [base64Data] and [finalFilename] of [store] *)
Definition store_payload (params : StoreParams) : thrown + jsstring * jsstring :=
  match data params with
  | inr file =>
      base64Data ← btoa (binary_of (arrayBuffer file));
      inr (base64Data, or_else (filename params) (name file))
  | inl text =>
      base64Data ← (if looks_base64 text then inr text else btoa text);
      inr (base64Data, or_else (filename params) (js "data.txt"))
  end.

Definition options_json (o : StoreOptions) : json :=
  obj [("permanent", JBool <$> permanent o);
       ("ttl", jint <$> ttl o);
       ("provider", json_opt (provider o))].

(** The [body] object of [store] *)
Definition store_body (base64Data finalFilename : jsstring)
    (params : StoreParams) : json :=
  obj [("data", Some (JStr base64Data));
       ("filename", Some (JStr finalFilename));
       ("options", options_json <$> options params)].

Definition store (params : StoreParams) : M json :=
  payload ← lift (store_payload params);
  brokerRequestWithPayment (js "/store")
    {| method := Some (js "POST");
       body := Some (JSON_stringify (store_body payload.1 payload.2 params));
       headers := ∅ |}.

(** ** utils/httpayer.ts *)

(** A value that [JSON.parse] made, as a condition: a number counts when the
    double of its literal is not zero. *)
Definition truthy (v : json) : bool :=
  match v with
  | JNull => false
  | JBool b => b
  | JNum m e => negb (magnitude_eqb (nearest_double (Z.abs m) e) MagZero)
  | JStr s => negb (bool_decide (s = []))
  | JArr _ | JObj _ => true
  end.

(** [body?.payUrl || `${relay}/pay`]; [fetch] makes a string of what it is
    given as the address. *)
Definition payUrl_of (body : option json) : jsstring :=
  let relay := or_else (NEXT_PUBLIC_HTTPAYER_RELAY W) [] in
  match body ≫= json_get "payUrl" with
  | Some v => if truthy v then String_of_parsed v else relay ++ js "/pay"
  | None => relay ++ js "/pay"
  end.

(** [body?.invoice || body], [None] being [null] *)
Definition invoice_of (body : option json) : json :=
  match body ≫= json_get "invoice" with
  | Some v => if truthy v then v else default JNull body
  | None => default JNull body
  end.

Definition pay_init (body : option json) : RequestInit :=
  {| method := Some (js "POST");
     body := Some (JSON_stringify_parsed (invoice_of body));
     headers := {[ js "Content-Type" := js "application/json" ]} |}.

Definition PaymentFailed : thrown := Error (js "Payment failed").

Definition fetchWith402 (input : jsstring) (init : option RequestInit)
    : M Response :=
  res ← fetch input init;
  if negb (status res =? 402) then mret res
  else
    let body := JSON_parse (text res) in
    let payUrl := payUrl_of body in
    payRes ← fetch payUrl (Some (pay_init body));
    if negb (ok payRes) then throw PaymentFailed
    else fetch input init.

End Client.

(** ** The fee calculator *)

Module Fee.
Local Open Scope float_scope.

(** [Math.max(a, b)] on IEEE doubles: NaN if either is NaN, and +0 above -0. *)
Definition Math_max (a b : float) : float :=
  match PrimFloat.compare a b with
  | FLt => b
  | FGt => a
  | FEq => if PrimFloat.is_zero a && PrimFloat.get_sign a then b else a
  | FNotComparable => nan
  end%bool.

(** The doubles that the literals [0.03], [0.002] and [0.01] denote. *)
#[warnings="-inexact-float"]
Definition lit_0_03 : float := 0.03.
#[warnings="-inexact-float"]
Definition lit_0_002 : float := 0.002.
#[warnings="-inexact-float"]
Definition lit_0_01 : float := 0.01.

Definition calculateRelayFee (targetAmountUSD : float) : float :=
  let threePercent := targetAmountUSD * lit_0_03 in
  let minFee := lit_0_002 in
  Math_max threePercent minFee.

Definition calculateTotalAmount (targetAmountUSD : float) : float :=
  targetAmountUSD + calculateRelayFee targetAmountUSD.

End Fee.

(** * Vocabulary of the properties *)

(** ** Events *)

(** The signature requests among some events. *)
Definition is_signature (e : Event) : bool :=
  match e with
  | Wallet (eth_signTypedData_v4 _ _) => true
  | _ => false
  end.

Definition is_fetch (e : Event) : bool :=
  match e with
  | Fetch _ _ => true
  | _ => false
  end.

Definition count (p : Event -> bool) (evs : list Event) : nat :=
  length (List.filter p evs).

(** ** Signing and the executor *)

Definition is_byte (b : Z) : Prop := 0 <= b < 256.

(** The two hexadecimal digits of a byte. *)
Definition hex2 (b : Z) : jsstring := padStart 2 48 (Number_toString16 b).

(** The same two digits, read off the sixteen digits in their order. *)
Definition hex_digits : jsstring := js "0123456789abcdef".

Definition two_hex_digits (b : Z) : jsstring :=
  [nth (Z.to_nat (b / 16)) hex_digits 0; nth (Z.to_nat (b mod 16)) hex_digits 0].

(** What [createX402Payment] returns once the header is signed. *)
Definition payment_result (W : World) (o : PaymentOption)
    (signed : thrown + jsstring) : thrown + PaymentResult :=
  match signed with
  | inl e => inl e
  | inr header =>
      match decode_payment_info W header o with
      | inl e => inl e
      | inr info => inr {| paymentHeader := header; paymentInfo := info |}
      end
  end.

(** The outcome of the final check on a response. *)
Definition finish_result (W : World) (response : Response) : thrown + json :=
  if ok response then JSON_parse_or_throw W (text response)
  else inl (BrokerRequestFailed response).

Section Vocabulary.
Variable W : World.

(** The nonce and the timestamp of a signing that starts its random draw
    after the events [hist]. *)
Definition nonceBytes_at (hist : list Event) : list Z :=
  map (fun i => random_byte W hist i mod 256) (seq 0 32).

Definition validAfter_at (hist : list Event) : Z :=
  clock_ms W (hist ++ [GetRandomValues 32]) / 1000.

Definition signing_request (hist : list Event) (o : PaymentOption)
    (addr : jsstring) : WalletRequest :=
  let validAfter := validAfter_at hist in
  eth_signTypedData_v4 addr
    (JSON_stringify
       (typedData o addr validAfter (validAfter + 900)
          (nonce_of_bytes (nonceBytes_at hist)))).

Definition signed_payment (hist : list Event) (o : PaymentOption)
    (addr signature : jsstring) : jsstring :=
  let validAfter := validAfter_at hist in
  encode_payment
    (paymentData signature o addr validAfter (validAfter + 900)
       (nonce_of_bytes (nonceBytes_at hist))).

Definition broker_url (endpoint : jsstring) : jsstring :=
  BROKER_API_BASE W ++ endpoint.

Definition first_fetch (endpoint : jsstring) (options : RequestInit) : Event :=
  Fetch (broker_url endpoint) (Some (first_init options)).

Definition retry_fetch (endpoint : jsstring) (options : RequestInit)
    (paymentResult : PaymentResult) : Event :=
  Fetch (broker_url endpoint)
        (Some (retry_init options (stringify_result paymentResult))).

(** The paid leg of the executor: what happens after a 402 whose body parsed
    to [parsed], from the check of the wallet on. *)
Inductive paid_leg (endpoint : jsstring) (options : RequestInit)
    (h : list Event) (parsed : json) : thrown + json -> list Event -> Prop :=
  | leg_no_wallet :
      window_ethereum W h = false ->
      paid_leg endpoint options h parsed (inl WalletUnavailable) []
  | leg_accounts_rejected e :
      window_ethereum W h = true ->
      ethereum_request W h eth_accounts = inl e ->
      paid_leg endpoint options h parsed (inl e) [Wallet eth_accounts]
  | leg_no_account accounts :
      window_ethereum W h = true ->
      ethereum_request W h eth_accounts = inr accounts ->
      accounts = None \/ accounts = Some [] ->
      paid_leg endpoint options h parsed (inl WalletNotConnected)
        [Wallet eth_accounts]
  | leg_null userAddress others e :
      window_ethereum W h = true ->
      ethereum_request W h eth_accounts = inr (Some (userAddress :: others)) ->
      as_requirements parsed = inl e ->
      paid_leg endpoint options h parsed (inl e) [Wallet eth_accounts]
  | leg_payment_failed userAddress others reqs e pevs :
      window_ethereum W h = true ->
      ethereum_request W h eth_accounts = inr (Some (userAddress :: others)) ->
      as_requirements parsed = inr reqs ->
      createX402Payment W reqs userAddress (h ++ [Wallet eth_accounts])
        = (inl e, pevs) ->
      paid_leg endpoint options h parsed (inl e) (Wallet eth_accounts :: pevs)
  | leg_retry userAddress others reqs paymentResult pevs answer :
      window_ethereum W h = true ->
      ethereum_request W h eth_accounts = inr (Some (userAddress :: others)) ->
      as_requirements parsed = inr reqs ->
      createX402Payment W reqs userAddress (h ++ [Wallet eth_accounts])
        = (inr paymentResult, pevs) ->
      fetch_result W (h ++ Wallet eth_accounts :: pevs) (broker_url endpoint)
        (Some (retry_init options (stringify_result paymentResult))) = answer ->
      paid_leg endpoint options h parsed
        (match answer with
         | inl e => inl e
         | inr response => finish_result W response
         end)
        (Wallet eth_accounts :: pevs ++ [retry_fetch endpoint options paymentResult]).

(** Every way [brokerRequestWithPayment] can run. *)
Inductive broker_run (endpoint : jsstring) (options : RequestInit)
    (h : list Event) : thrown + json -> list Event -> Prop :=
  | run_rejected e :
      fetch_result W h (broker_url endpoint) (Some (first_init options)) = inl e ->
      broker_run endpoint options h (inl e) [first_fetch endpoint options]
  | run_direct response :
      fetch_result W h (broker_url endpoint) (Some (first_init options))
        = inr response ->
      status response <> 402 ->
      broker_run endpoint options h (finish_result W response)
        [first_fetch endpoint options]
  | run_malformed response :
      fetch_result W h (broker_url endpoint) (Some (first_init options))
        = inr response ->
      status response = 402 ->
      JSON_parse (text response) = None ->
      broker_run endpoint options h (inl MalformedChallenge)
        [first_fetch endpoint options]
  | run_paid response parsed r evs :
      fetch_result W h (broker_url endpoint) (Some (first_init options))
        = inr response ->
      status response = 402 ->
      JSON_parse (text response) = Some parsed ->
      paid_leg endpoint options (h ++ [first_fetch endpoint options]) parsed r evs ->
      broker_run endpoint options h r (first_fetch endpoint options :: evs).

End Vocabulary.

(** ** Revocation *)

Definition RevocationFailure : thrown :=
  Error (js "Failed to revoke approval: Revocation transaction failed").

Definition is_poll (e : Event) : bool :=
  match e with
  | Wallet (eth_getTransactionReceipt _) => true
  | _ => false
  end.

(** [k] polls without a receipt, each followed by its pause. *)
Definition idle_polls (k : nat) (txHash : jsstring) : list Event :=
  concat (replicate k [Wallet (eth_getTransactionReceipt txHash); Sleep 2000]).

(** The transaction that [revokeApproval] sends. *)
Definition revoke_tx (from : option jsstring) (info : PaymentInfo)
    (spender : jsstring) : json :=
  JArr [obj [("from", json_opt from);
             ("to", json_opt (info_asset info));
             ("data",
              Some (JStr (js "0x095ea7b3"
                            ++ padStart 64 48 (replace_first (js "0x") [] spender)
                            ++ replicate 64 48)));
             ("value", Some (jstr "0x0"))]].

(** ** Encoding and decoding *)

(** Strings in which every surrogate is half of a pair: the strings whose
    UTF-8 encoding loses nothing. *)
Inductive scalar_string : jsstring -> Prop :=
  | scalar_nil : scalar_string []
  | scalar_unit u s :
      is_unit u -> is_surrogate u = false ->
      scalar_string s -> scalar_string (u :: s)
  | scalar_pair u v s :
      is_high u = true -> is_low v = true ->
      scalar_string s -> scalar_string (u :: v :: s).

Definition is_digit_value (d : Z) : Prop := 0 <= d <= 9.

(** The units of a list of digit values. *)
Definition digit_units (ds : list Z) : jsstring := map (fun d => 48 + d) ds.

(** What may follow a value in the output of [JSON.stringify]: nothing, a
    comma, or a closing bracket or brace. *)
Definition value_end (rest : jsstring) : Prop :=
  match rest with
  | [] => True
  | c :: _ => c = 44 \/ c = 93 \/ c = 125
  end.

Definition not_digit_start (rest : jsstring) : Prop :=
  match rest with
  | [] => True
  | c :: _ => is_digit c = false
  end.

(** Values all of whose strings are strings of 16-bit units. *)
#[warnings="-register-all"]
Inductive wf_json : json -> Prop :=
  | wf_null : wf_json JNull
  | wf_bool b : wf_json (JBool b)
  | wf_num m e : wf_json (JNum m e)
  | wf_str s : wf_string s -> wf_json (JStr s)
  | wf_arr l : Forall wf_json l -> wf_json (JArr l)
  | wf_obj l : Forall (fun kv => wf_string kv.1 /\ wf_json kv.2) l -> wf_json (JObj l).

(** The text of one member of an object. *)
Definition stringify_member (kv : jsstring * json) : jsstring :=
  JSON_quote kv.1 ++ 58 :: JSON_stringify kv.2.

(** The first unit of the text of a value opens a value. *)
Definition starts_value (s : jsstring) : Prop :=
  exists c r, s = c :: r /\ is_ws c = false /\ c <> 93 /\ c <> 125.

(** [JSON.parse] reads the text of [v] back, whatever follows it. *)
Definition parses (v : json) : Prop :=
  forall fuel rest,
    (length (JSON_stringify v) < fuel)%nat -> value_end rest ->
    parse_value fuel (JSON_stringify v ++ rest) = Some (v, rest).

(** The payment object of [signWithMetaMask] with its scheme, network and
    authorization left open. *)
Definition payment_token (scheme network signature from : jsstring)
    (to : option jsstring) (value validAfter validBefore nonce : jsstring) : json :=
  obj [("x402Version", Some (jint 1));
       ("scheme", Some (JStr scheme));
       ("network", Some (JStr network));
       ("payload",
        Some (obj [("signature", Some (JStr signature));
                   ("authorization",
                    Some (obj [("from", Some (JStr from));
                               ("to", json_opt to);
                               ("value", Some (JStr value));
                               ("validAfter", Some (JStr validAfter));
                               ("validBefore", Some (JStr validBefore));
                               ("nonce", Some (JStr nonce))]))]))].

Definition wf_option (s : option jsstring) : Prop :=
  match s with
  | Some t => wf_string t
  | None => True
  end.

(** ** The network check *)

Definition switch_request : WalletRequest :=
  wallet_switchEthereumChain (JArr [obj [("chainId", Some (JStr targetChainIdHex))]]).

Definition add_request : WalletRequest :=
  wallet_addEthereumChain (JArr [addChainParams]).

(** The random draw and the clock read, then the signing request. *)
Definition draws_and_signs (evs : list Event) : Prop :=
  exists a d,
    evs = [GetRandomValues 32; DateNow; Wallet (eth_signTypedData_v4 a d)].

Definition is_send (e : Event) : bool :=
  match e with
  | Wallet (eth_sendTransaction _) => true
  | _ => false
  end.

(** What the receipt loop leaves [revokeApproval] with. *)
Definition revoke_result (polled : thrown + option Receipt) : thrown + unit :=
  match polled with
  | inl e => inl (FailedToRevoke e)
  | inr None => inl RevocationFailure
  | inr (Some receipt) =>
      if bool_decide (receipt_status receipt = Some (js "0x0"))
      then inl RevocationFailure else inr tt
  end.

Section Runs.
Variable W : World.

(** Every way [ensureNetwork] can run. *)
Inductive network_check (h : list Event) : thrown + unit -> list Event -> Prop :=
  | check_rejected e :
      ethereum_request W h eth_chainId = inl e ->
      network_check h (inl e) [Wallet eth_chainId]
  | check_on_chain :
      ethereum_request W h eth_chainId = inr targetChainIdHex ->
      network_check h (inr tt) [Wallet eth_chainId]
  | check_switched chain :
      ethereum_request W h eth_chainId = inr chain ->
      chain <> targetChainIdHex ->
      ethereum_request W (h ++ [Wallet eth_chainId]) switch_request = inr tt ->
      network_check h (inr tt) [Wallet eth_chainId; Wallet switch_request]
  | check_switch_failed chain e :
      ethereum_request W h eth_chainId = inr chain ->
      chain <> targetChainIdHex ->
      ethereum_request W (h ++ [Wallet eth_chainId]) switch_request = inl e ->
      code_of e <> Some 4902 ->
      network_check h (inl e) [Wallet eth_chainId; Wallet switch_request]
  | check_added chain e r :
      ethereum_request W h eth_chainId = inr chain ->
      chain <> targetChainIdHex ->
      ethereum_request W (h ++ [Wallet eth_chainId]) switch_request = inl e ->
      code_of e = Some 4902 ->
      ethereum_request W (h ++ [Wallet eth_chainId; Wallet switch_request])
        add_request = r ->
      network_check h r
        [Wallet eth_chainId; Wallet switch_request; Wallet add_request].

(** Every way [revokeApproval] can run, with what decides it. *)
Inductive revoke_run (info : PaymentInfo) (h : list Event)
    : thrown + unit -> list Event -> Prop :=
  | revoke_no_wallet :
      window_ethereum W h = false ->
      revoke_run info h (inl (Error (js "MetaMask not found"))) []
  | revoke_accounts_rejected e :
      window_ethereum W h = true ->
      ethereum_request W h eth_requestAccounts = inl e ->
      revoke_run info h (inl (FailedToRevoke e)) [Wallet eth_requestAccounts]
  | revoke_accounts_null m :
      window_ethereum W h = true ->
      ethereum_request W h eth_requestAccounts = inr None ->
      revoke_run info h (inl (FailedToRevoke (TypeError m)))
        [Wallet eth_requestAccounts]
  | revoke_no_spender accounts m :
      window_ethereum W h = true ->
      ethereum_request W h eth_requestAccounts = inr (Some accounts) ->
      spender info = None ->
      revoke_run info h (inl (FailedToRevoke (TypeError m)))
        [Wallet eth_requestAccounts]
  | revoke_send_rejected accounts s e :
      window_ethereum W h = true ->
      ethereum_request W h eth_requestAccounts = inr (Some accounts) ->
      spender info = Some s ->
      ethereum_request W (h ++ [Wallet eth_requestAccounts])
        (eth_sendTransaction (revoke_tx (head accounts) info s)) = inl e ->
      revoke_run info h (inl (FailedToRevoke e))
        [Wallet eth_requestAccounts;
         Wallet (eth_sendTransaction (revoke_tx (head accounts) info s))]
  | revoke_polled accounts s txHash polled pevs :
      window_ethereum W h = true ->
      ethereum_request W h eth_requestAccounts = inr (Some accounts) ->
      spender info = Some s ->
      ethereum_request W (h ++ [Wallet eth_requestAccounts])
        (eth_sendTransaction (revoke_tx (head accounts) info s)) = inr txHash ->
      wait_for_receipt W maxAttempts txHash
        (h ++ [Wallet eth_requestAccounts;
               Wallet (eth_sendTransaction (revoke_tx (head accounts) info s))])
        = (polled, pevs) ->
      revoke_run info h (revoke_result polled)
        ([Wallet eth_requestAccounts;
          Wallet (eth_sendTransaction (revoke_tx (head accounts) info s))] ++ pevs).

End Runs.

(** ** The parameters of run and store *)

(** The strings in the parameters are strings of 16-bit units. *)
Definition wf_run_params (params : RunParams) : Prop :=
  wf_string (code params) /\ wf_string (language params) /\
  wf_option (gpu_type params).

Definition wf_store_params (params : StoreParams) : Prop :=
  wf_option (filename params) /\
  match data params with
  | inl text => wf_string text
  | inr file => wf_string (name file)
  end /\
  match options params with
  | Some o => wf_option (provider o)
  | None => True
  end.

(** The wallet answers a signing request with a string. *)
Definition signs_strings (W : World) : Prop :=
  forall hist a d signature,
    ethereum_request W hist (eth_signTypedData_v4 a d) = inr signature ->
    wf_string signature.

(** ** Scenarios *)

Module Scenario.

Definition payee : jsstring := js "0x1111111111111111111111111111111111111111".
Definition payer : jsstring := js "0x2222222222222222222222222222222222222222".
Definition usdc : jsstring := js "0xB97EF9Ef8734C71904D8002F8b6Bc66Dd9c48a6E".

(** A broker challenge whose one option is on the network [base]. *)
Definition challenge : jsstring :=
  JSON_stringify
    (obj [("x402Version", Some (jint 1));
          ("accepts",
           Some (JArr [obj [("scheme", Some (jstr "exact"));
                            ("network", Some (jstr "base"));
                            ("payTo", Some (JStr payee));
                            ("asset", Some (JStr usdc));
                            ("maxAmountRequired", Some (jstr "10000"))]]))]).

Definition base_option : PaymentOption :=
  {| scheme := Some (js "exact"); network := Some (js "base");
     payTo := Some payee; asset := Some usdc;
     maxAmountRequired := Some (js "10000") |}.

(** An option with none of the required members. *)
Definition bare_option : PaymentOption :=
  {| scheme := Some (js "exact"); network := Some (js "base");
     payTo := None; asset := None; maxAmountRequired := None |}.

Definition is_sleep (e : Event) : bool :=
  match e with
  | Sleep _ => true
  | _ => false
  end.

(** A wallet on another chain that knows the account [payer], adds the
    Avalanche chain when asked, signs, and reports a receipt with [status]
    once [receipt_from] pauses have passed ([None]: never). *)
Definition wallet (receipt_from : option nat) (receipt : Receipt)
    (h : list Event) (r : WalletRequest) : thrown + reply r :=
  match r with
  | eth_chainId => inr (js "0x1")
  | eth_accounts | eth_requestAccounts => inr (Some [payer])
  | wallet_switchEthereumChain _ =>
      inl (Rejection (Some 4902) (Some (js "Unrecognized chain ID")))
  | wallet_addEthereumChain _ => inr tt
  | eth_signTypedData_v4 _ _ => inr (js "0xsigned")
  | eth_sendTransaction _ => inr (js "0xhash")
  | eth_getTransactionReceipt _ =>
      inr (match receipt_from with
           | Some n =>
               if bool_decide (n <= count is_sleep h)%nat
               then Some receipt else None
           | None => None
           end)
  end.

Definition job : jsstring :=
  JSON_stringify (obj [("jobId", Some (jstr "abc"));
                       ("status", Some (jstr "completed"))]).

(** A broker that answers the first request with [first] and every later
    one with [later]. *)
Definition world (first later : Response) (receipt_from : option nat)
    (receipt : Receipt) : World :=
  {| window_ethereum := fun _ => true;
     fetch_result := fun h _ _ =>
       match fetches h with
       | [] => inr first
       | _ :: _ => inr later
       end;
     ethereum_request := wallet receipt_from receipt;
     clock_ms := fun _ => 1700000000123;
     random_byte := fun _ i => Z.of_nat i * 37 + 5;
     NEXT_PUBLIC_BROKER_API_URL := None;
     NEXT_PUBLIC_HTTPAYER_RELAY := Some (js "https://relay.example");
     JSON_parse_message := fun _ => js "Unexpected end of JSON input" |}.

Definition success : Receipt := mkReceipt (Some (js "0x1")).
Definition reverted : Receipt := mkReceipt (Some (js "0x0")).

(** 402 then 200 *)
Definition paid : World :=
  world (mkResponse 402 challenge) (mkResponse 200 job) (Some 2%nat) success.

(** 402 and 402 again *)
Definition unpaid : World :=
  world (mkResponse 402 challenge) (mkResponse 402 challenge) None success.

(** 200 at once *)
Definition free : World :=
  world (mkResponse 200 job) (mkResponse 200 job) None success.

Definition options : RequestInit :=
  {| method := Some (js "POST"); body := Some (JSON_stringify (obj [("code", Some (jstr "1"))]));
     headers := {[ js "Authorization" := js "Bearer t" ]} |}.

Definition run_endpoint : jsstring := js "/run".

(** The receipt never comes *)
Definition stalled : World :=
  world (mkResponse 200 job) (mkResponse 200 job) None success.

(** The first receipt reports a reverted transaction *)
Definition reverting : World :=
  world (mkResponse 200 job) (mkResponse 200 job) (Some 0%nat) reverted.

(** The relay takes the payment and the broker asks for payment again *)
Definition relayed : World :=
  {| window_ethereum := fun _ => false;
     fetch_result := fun h url _ =>
       if bool_decide (url = js "https://relay.example/pay")
       then inr (mkResponse 200 (js "{}"))
       else inr (mkResponse 402 challenge);
     ethereum_request := wallet None success;
     clock_ms := fun _ => 0;
     random_byte := fun _ _ => 0;
     NEXT_PUBLIC_BROKER_API_URL := None;
     NEXT_PUBLIC_HTTPAYER_RELAY := Some (js "https://relay.example");
     JSON_parse_message := fun _ => js "Unexpected end of JSON input" |}.



(** 204 with no body *)
Definition silent : World :=
  world (mkResponse 204 []) (mkResponse 200 job) None success.


(** A seller that answers 402 with [challenge] first; the payment is taken
    wherever it is sent, and the replay is answered with the job. *)
Definition seller (challenge : jsstring) : World :=
  {| window_ethereum := fun _ => false;
     fetch_result := fun h _ _ =>
       match fetches h with
       | [] => inr (mkResponse 402 challenge)
       | [_] => inr (mkResponse 200 (js "{}"))
       | _ :: _ :: _ => inr (mkResponse 200 job)
       end;
     ethereum_request := wallet None success;
     clock_ms := fun _ => 0;
     random_byte := fun _ _ => 0;
     NEXT_PUBLIC_BROKER_API_URL := None;
     NEXT_PUBLIC_HTTPAYER_RELAY := Some (js "https://relay.example");
     JSON_parse_message := fun _ => js "Unexpected end of JSON input" |}.

(** An invoice with a place to pay it, as a seller may write it. *)
Definition invoice_challenge : jsstring :=
  quoted "{'invoice': {'id': 7, 'amount': 1.50, 'id': 8, '2': 'b', '1': 'a'}, 'payUrl': 'https://pay.example/x', 'memo': 'm'}".

(** A challenge whose invoice is the number zero and whose [payUrl] is
    empty. *)
Definition void_challenge : jsstring :=
  quoted "{'invoice': 1e-400, 'payUrl': ''}".

(** The broker answers 402 with a body that is not JSON *)
Definition garbled : World :=
  world (mkResponse 402 (js "payment required")) (mkResponse 200 job) None success.

(** The wallet is there and has no connected account *)
Definition locked : World :=
  {| window_ethereum := fun _ => true;
     fetch_result := fetch_result paid;
     ethereum_request := fun h r =>
       match r as r0 return thrown + reply r0 with
       | eth_accounts => inr (Some [])
       | r0 => wallet None success h r0
       end;
     clock_ms := clock_ms paid;
     random_byte := random_byte paid;
     NEXT_PUBLIC_BROKER_API_URL := None;
     NEXT_PUBLIC_HTTPAYER_RELAY := None;
     JSON_parse_message := JSON_parse_message paid |}.

Definition requirements : X402PaymentRequirements :=
  {| x402Version := Some 1; accepts := Some [base_option] |}.

Definition bare_requirements : X402PaymentRequirements :=
  {| x402Version := Some 1; accepts := Some [bare_option] |}.

Definition info : PaymentInfo :=
  {| info_network := Some (js "avalanche"); spender := Some payee;
     info_asset := Some usdc; userAddress := Some payer |}.

Definition paid_run := brokerRequestWithPayment paid run_endpoint options [].
Definition unpaid_run := brokerRequestWithPayment unpaid run_endpoint options [].
Definition sign_run := signWithMetaMask paid base_option payer [].

(** The text that the wallet is asked to sign in [sign_run]. *)
Definition signed_text : jsstring :=
  JSON_stringify
    (typedData base_option payer 1700000000 1700000900
       (nonce_of_bytes (map (fun i => (Z.of_nat i * 37 + 5) mod 256) (seq 0 32)))).

(** That text, written out, and its nonce: the bytes 5, 42, 79, ... of the
    random source of the scenario, two digits each. *)
Definition signed_literal : jsstring :=
  quoted "{'domain':{'name':'USD Coin','version':'2','chainId':43114,'verifyingC" ++
  quoted "ontract':'0xB97EF9Ef8734C71904D8002F8b6Bc66Dd9c48a6E'},'types':{'Trans" ++
  quoted "ferWithAuthorization':[{'name':'from','type':'address'},{'name':'to','" ++
  quoted "type':'address'},{'name':'value','type':'uint256'},{'name':'validAfter" ++
  quoted "','type':'uint256'},{'name':'validBefore','type':'uint256'},{'name':'n" ++
  quoted "once','type':'bytes32'}]},'primaryType':'TransferWithAuthorization','m" ++
  quoted "essage':{'from':'0x2222222222222222222222222222222222222222','to':'0x1" ++
  quoted "111111111111111111111111111111111111111','value':'10000','validAfter':" ++
  quoted "1700000000,'validBefore':1700000900,'nonce':'0x052a4f7499bee3082d52779" ++
  quoted "cc1e60b30557a9fc4e90e33587da2c7ec11365b80'}}".

Definition nonce_literal : jsstring :=
  js "0x052a4f7499bee3082d52779cc1e60b30557a9fc4e90e33587da2c7ec11365b80".


(** The texts that were handed to the wallet for signing. *)
Definition signed_texts (evs : list Event) : list jsstring :=
  omap (fun e => match e with
                 | Wallet (eth_signTypedData_v4 _ d) => Some d
                 | _ => None
                 end) evs.

(** The header that [sign_run] returns. *)
Definition signed_header : jsstring :=
  match sign_run.1 with
  | inr header => header
  | inl _ => []
  end.

Definition script : RunParams :=
  mkRunParams (js "print(1)") (js "python") (Some (js "l40s")) (Some 1)
    (Some 300) (Some false).

(** A text with a space, which is outside the base64 alphabet. *)
Definition note : StoreParams :=
  mkStoreParams (inl (js "hello world")) None None.

(** A file of three bytes, stored under its own name. *)
Definition upload : StoreParams :=
  mkStoreParams (inr (mkFile (js "a.bin") [Byte.x00; Byte.xff; Byte.x10]))
    (Some []) (Some (mkStoreOptions (Some true) None None)).

(** What [createX402Payment] returns in the world [paid]. *)
Definition paid_payment : PaymentResult :=
  match (createX402Payment paid requirements payer []).1 with
  | inr paymentResult => paymentResult
  | inl _ => {| paymentHeader := []; paymentInfo := info |}
  end.

End Scenario.

(** * Properties *)

Arguments js : simpl never.
Arguments maxAttempts : simpl never.
Arguments JSON_stringify : simpl never.
Arguments JSON_parse : simpl never.
Arguments to_base64 : simpl never.
Arguments from_base64 : simpl never.
Arguments encode_payment : simpl never.
Arguments typedData : simpl never.
Arguments paymentData : simpl never.
Arguments nonce_of_bytes : simpl never.

(** Turns a boolean test of the model into the arithmetic fact it decides. *)
Ltac bool_to_prop H :=
  repeat (progress
    rewrite ?andb_true_iff, ?andb_false_iff, ?orb_true_iff, ?orb_false_iff,
      ?negb_true_iff, ?negb_false_iff,
      ?Z.leb_le, ?Z.leb_gt, ?Z.ltb_lt, ?Z.ltb_ge, ?Z.eqb_eq, ?Z.eqb_neq in H).

Ltac arith := Z.div_mod_to_equations; lia.

(** Settles the test of the first conditional of the goal, where the
    context decides it. *)
Ltac case_if :=
  match goal with
  | |- context [if ?b then _ else _] =>
      lazymatch b with
      | context [if _ then _ else _] => fail
      | _ => idtac
      end;
      let E := fresh "E" in
      destruct b eqn:E; bool_to_prop E; try (exfalso; arith)
  end.

Ltac utf8_step :=
  cbn [app utf8_decode_from utf8_initial bytes_needed lower_boundary
         upper_boundary code_point];
  unfold utf8_lead.

Ltac in_events := vm_compute; repeat (first [by left | right]).

(** ** Running computations *)

Lemma bind_run {A B} (m : M A) (f : A -> M B) h :
  (m ≫= f) h =
  match m h with
  | (inr a, evs) => after evs (f a) h
  | (inl e, evs) => (inl e, evs)
  end.
Proof. reflexivity. Qed.

Lemma after_inv {A} (evs : list Event) (k : M A) h r out :
  after evs k h = (r, out) ->
  exists evs', k (h ++ evs) = (r, evs') /\ out = evs ++ evs'.
Proof.
  unfold after. destruct (k (h ++ evs)) as [r' evs'].
  intros [= <- <-]. eauto.
Qed.

Lemma bind_inv {A B} (m : M A) (f : A -> M B) h r out :
  (m ≫= f) h = (r, out) ->
  (exists e, m h = (inl e, out) /\ r = inl e) \/
  (exists a evs evs', m h = (inr a, evs) /\ f a (h ++ evs) = (r, evs')
                      /\ out = evs ++ evs').
Proof.
  rewrite bind_run. destruct (m h) as [[e | a] evs].
  - intros [= <- <-]. left. eauto.
  - intros H. apply after_inv in H as (evs' & H & ->). right. eauto 10.
Qed.

Lemma try_catch_inv {A} (m : M A) (handler : thrown -> M A) h r out :
  try_catch m handler h = (r, out) ->
  (exists a, m h = (inr a, out) /\ r = inr a) \/
  (exists e evs evs', m h = (inl e, evs) /\ handler e (h ++ evs) = (r, evs')
                      /\ out = evs ++ evs').
Proof.
  unfold try_catch. destruct (m h) as [[e | a] evs].
  - intros H. apply after_inv in H as (evs' & H & ->). right. eauto 10.
  - intros [= <- <-]. left. eauto.
Qed.

Lemma lift_run {A} (x : thrown + A) h : lift x h = (x, []).
Proof. destruct x; reflexivity. Qed.

Lemma count_app p evs evs' : count p (evs ++ evs') = (count p evs + count p evs')%nat.
Proof. unfold count. by rewrite List.filter_app, length_app. Qed.

Lemma count_cons p e evs :
  count p (e :: evs) = ((if p e then 1 else 0) + count p evs)%nat.
Proof. unfold count. simpl. by destruct (p e). Qed.

Section ClientFacts.
Variable W : World.

(** The network check asks the wallet up to three times and never fetches
    nor signs. *)
Lemma ensureNetwork_events h r evs :
  ensureNetwork W h = (r, evs) ->
  count is_fetch evs = 0%nat /\ count is_signature evs = 0%nat.
Proof.
  unfold ensureNetwork. intros H.
  apply bind_inv in H as [(e & H & ->) | (c & e1 & e2 & H & Hk & ->)];
    unfold request in H; injection H as _ <-; [done|].
  case_bool_decide.
  - apply try_catch_inv in Hk as [(a & Hk & ->) | (e & e3 & e4 & Hk & Hh & ->)];
      unfold request in Hk; injection Hk as _ <-; [done|].
    case_bool_decide.
    + unfold request in Hh. injection Hh as _ <-. done.
    + injection Hh as _ <-. done.
  - injection Hk as _ <-. done.
Qed.

End ClientFacts.

Section SignFacts.
Variable W : World.

Lemma sign_history (h pre : list Event) :
  h ++ pre ++ [GetRandomValues 32; DateNow]
  = ((h ++ pre) ++ [GetRandomValues 32]) ++ [DateNow].
Proof. by rewrite <- !app_assoc. Qed.

(** Every way [signWithMetaMask] can run. *)
Lemma signWithMetaMask_inv o addr h r evs :
  signWithMetaMask W o addr h = (r, evs) ->
  (window_ethereum W h = false /\ evs = [] /\ r = inl MetaMaskNotFound) \/
  (exists e, ensureNetwork W h = (inl e, evs) /\ r = inl (MetaMaskPaymentFailed e)) \/
  (exists pre,
      ensureNetwork W h = (inr tt, pre) /\
      evs = pre ++ [GetRandomValues 32; DateNow;
                    Wallet (signing_request W (h ++ pre) o addr)] /\
      r = match ethereum_request W (h ++ pre ++ [GetRandomValues 32; DateNow])
                  (signing_request W (h ++ pre) o addr) with
          | inl e => inl (MetaMaskPaymentFailed e)
          | inr signature => inr (signed_payment W (h ++ pre) o addr signature)
          end).
Proof.
  unfold signWithMetaMask. intros H.
  apply bind_inv in H as [(e & H & ->) | (p & e1 & e2 & H & Hk & ->)];
    unfold has_ethereum in H; injection H as Hp <-; [done|].
  rewrite app_nil_r in Hk. simpl.
  destruct p; simpl in Hk; [|left; by injection Hk as <- <-].
  right.
  apply try_catch_inv in Hk as [(a & Hk & ->) | (e & e3 & e4 & Hk & Hh & ->)].
  - apply bind_inv in Hk as [(e & Hk & [=]) | ([] & pre & e5 & Hn & Hk & ->)].
    apply bind_inv in Hk as [(e & Hk & [=]) | (bytes & e6 & e7 & Hb & Hk & ->)].
    injection Hb as <- <-.
    apply bind_inv in Hk as [(e & Hk & [=]) | (now & e8 & e9 & Hd & Hk & ->)].
    injection Hd as <- <-.
    apply bind_inv in Hk as [(e & Hk & [=]) | (sg & e10 & e11 & Hs & Hk & ->)].
    injection Hk as <- <-. unfold request in Hs. injection Hs as Hs <-.
    right. exists pre. split; [done|]. split; [by rewrite app_nil_r|].
    unfold signing_request, signed_payment, validAfter_at, nonceBytes_at.
    rewrite sign_history.
    match type of Hs with
    | _ = ?rhs =>
        match goal with
        | |- context [ethereum_request W ?a ?b] =>
            change (ethereum_request W a b = rhs) in Hs
        end
    end.
    by rewrite Hs.
  - injection Hh as <- <-. rewrite app_nil_r.
    apply bind_inv in Hk as [(e' & Hn & [= <-]) | ([] & pre & e5 & Hn & Hk & ->)];
      [left; eauto|].
    right. exists pre. split; [done|].
    apply bind_inv in Hk as [(e' & Hk & _) | (bytes & e6 & e7 & Hb & Hk & ->)];
      [discriminate Hk|].
    injection Hb as <- <-.
    apply bind_inv in Hk as [(e' & Hk & _) | (now & e8 & e9 & Hd & Hk & ->)];
      [discriminate Hk|].
    injection Hd as <- <-.
    apply bind_inv in Hk as [(e' & Hs & [= <-]) | (sg & e10 & e11 & Hs & Hk & ->)];
      [|discriminate Hk].
    unfold request in Hs. injection Hs as Hs <-. split; [done|].
    unfold signing_request, signed_payment, validAfter_at, nonceBytes_at.
    rewrite sign_history.
    match type of Hs with
    | _ = ?rhs =>
        match goal with
        | |- context [ethereum_request W ?a ?b] =>
            change (ethereum_request W a b = rhs) in Hs
        end
    end.
    by rewrite Hs.
Qed.

Lemma ensureNetwork_inv h r evs :
  ensureNetwork W h = (r, evs) -> network_check W h r evs.
Proof.
  unfold ensureNetwork. intros H.
  apply bind_inv in H as [(e & H & ->) | (c & e1 & e2 & H & Hk & ->)];
    unfold request in H; injection H as Hc <-; [by constructor|].
  case_bool_decide as Hne.
  - apply try_catch_inv in Hk as [(a & Hk & ->) | (e & e3 & e4 & Hk & Hh & ->)];
      unfold request in Hk; injection Hk as Hs <-.
    + destruct a. by eapply check_switched.
    + case_bool_decide as Hcode.
      * unfold request in Hh. injection Hh as Ha <-.
        eapply check_added; try done. by rewrite <- app_assoc in Ha.
      * injection Hh as <- <-. by eapply check_switch_failed.
  - injection Hk as <- <-. subst c. by constructor.
Qed.

Lemma signWithMetaMask_no_wallet o addr h :
  window_ethereum W h = false ->
  signWithMetaMask W o addr h = (inl MetaMaskNotFound, []).
Proof.
  intros Hw. unfold signWithMetaMask. rewrite bind_run. unfold has_ethereum.
  rewrite Hw. reflexivity.
Qed.

Lemma signWithMetaMask_events o addr h r evs :
  signWithMetaMask W o addr h = (r, evs) ->
  count is_fetch evs = 0%nat /\ (count is_signature evs <= 1)%nat.
Proof.
  intros H. apply signWithMetaMask_inv in H
    as [(_ & -> & _) | [(e & H & _) | (pre & H & -> & _)]].
  - unfold count. simpl. lia.
  - apply ensureNetwork_events in H as [-> ->]. lia.
  - apply ensureNetwork_events in H as [H1 H2].
    rewrite !count_app, H1, H2. unfold count, signing_request. simpl. lia.
Qed.

End SignFacts.

Section BrokerFacts.
Variable W : World.

Lemma createX402Payment_inv reqs addr h r evs :
  createX402Payment W reqs addr h = (r, evs) ->
  match accepts reqs with
  | None | Some [] => r = inl InvalidChallenge /\ evs = []
  | Some (o :: _) =>
      exists signed,
        signWithMetaMask W o addr h = (signed, evs) /\ r = payment_result W o signed
  end.
Proof.
  unfold createX402Payment. destruct (accepts reqs) as [[|o rest]|].
  - by intros [= <- <-].
  - intros H.
    apply bind_inv in H as [(e & H & ->) | (hd & e1 & e2 & H & Hk & ->)].
    + exists (inl e). done.
    + exists (inr hd). unfold payment_result.
      apply bind_inv in Hk as [(e & Hk & ->) | (info & e3 & e4 & Hk & Hr & ->)];
        rewrite lift_run in Hk; injection Hk as -> <-.
      * by rewrite app_nil_r.
      * injection Hr as <- <-. by rewrite !app_nil_r.
  - by intros [= <- <-].
Qed.

Lemma createX402Payment_events reqs addr h r evs :
  createX402Payment W reqs addr h = (r, evs) ->
  count is_fetch evs = 0%nat /\ (count is_signature evs <= 1)%nat.
Proof.
  intros H. apply createX402Payment_inv in H.
  destruct (accepts reqs) as [[|o rest]|].
  - destruct H as [_ ->]. unfold count. simpl. lia.
  - destruct H as (signed & H & _). by apply signWithMetaMask_events in H.
  - destruct H as [_ ->]. unfold count. simpl. lia.
Qed.

Lemma finish_run response h : finish W response h = (finish_result W response, []).
Proof.
  unfold finish, finish_result. destruct (ok response); simpl; [|done].
  apply lift_run.
Qed.

Lemma brokerRequestWithPayment_inv endpoint options h r evs :
  brokerRequestWithPayment W endpoint options h = (r, evs) ->
  broker_run W endpoint options h r evs.
Proof.
  unfold brokerRequestWithPayment. intros H.
  apply bind_inv in H as [(e & H & ->) | (resp & e1 & e2 & H & Hk & ->)];
    unfold fetch in H; injection H as H <-; [by apply run_rejected|].
  destruct (status resp =? 402) eqn:Hs.
  2:{ rewrite finish_run in Hk. injection Hk as <- <-.
      eapply run_direct; [done | lia]. }
  apply Z.eqb_eq in Hs.
  apply bind_inv in Hk as [(e & Hk & ->) | (parsed & e3 & e4 & Hp & Hk & ->)].
  { apply try_catch_inv in Hk as [(a & Hk & [=]) | (e' & e3 & e4 & Hp & Hk & ->)].
    rewrite lift_run in Hp. injection Hk as <- <-. injection Hp as Hp <-.
    unfold JSON_parse_or_throw in Hp.
    destruct (JSON_parse (text resp)) eqn:Hj; [done|]. by eapply run_malformed. }
  assert (JSON_parse (text resp) = Some parsed /\ e3 = []) as [Hj ->].
  { apply try_catch_inv in Hp as [(a & Hp & [= <-]) | (e' & e5 & e6 & Hp & Hh & ->)].
    - rewrite lift_run in Hp. injection Hp as Hp <-.
      unfold JSON_parse_or_throw in Hp.
      by destruct (JSON_parse (text resp)); simplify_eq.
    - discriminate Hh. }
  rewrite app_nil_r in Hk. simpl.
  eapply run_paid; [done..|].
  apply bind_inv in Hk as [(e & Hk & ->) | (present & e5 & e6 & Hw & Hk & ->)];
    [discriminate Hk|].
  injection Hw as <- <-. rewrite app_nil_r in Hk. simpl.
  destruct (window_ethereum W _) eqn:Hw; simpl in Hk;
    [|injection Hk as <- <-; by apply leg_no_wallet].
  apply bind_inv in Hk as [(e & Ha & ->) | (accounts & e7 & e8 & Ha & Hk & ->)];
    unfold request in Ha; injection Ha as Ha <-; [by apply leg_accounts_rejected|].
  destruct accounts as [[|userAddress others]|];
    try (injection Hk as <- <-; eapply leg_no_account; eauto).
  apply bind_inv in Hk as [(e & Hq & ->) | (reqs & e9 & e10 & Hq & Hk & ->)];
    rewrite lift_run in Hq; injection Hq as Hq <-;
    [by eapply leg_null|].
  rewrite app_nil_r in Hk. simpl.
  apply bind_inv in Hk as [(e & Hk & ->) | (pr & pevs & e11 & Hc & Hk & ->)];
    [by eapply leg_payment_failed|].
  apply bind_inv in Hk as [(e & Hf & ->) | (resp2 & e12 & e13 & Hf & Hk & ->)];
    unfold fetch in Hf; injection Hf as Hf <-.
  - rewrite <- app_assoc in Hf. simpl in Hf.
    pose proof (leg_retry W endpoint options _ parsed _ _ _ _ _ _ Hw Ha Hq Hc Hf) as L.
    exact L.
  - rewrite finish_run in Hk. injection Hk as <- <-. rewrite app_nil_r.
    rewrite <- app_assoc in Hf. simpl in Hf.
    pose proof (leg_retry W endpoint options _ parsed _ _ _ _ _ _ Hw Ha Hq Hc Hf) as L.
    exact L.
Qed.

End BrokerFacts.

(** ** The payment-gated executor *)

Section Executor.
Variable W : World.


(** The events of a paid leg: at most one more request, which comes last,
    and at most one signature. *)
Lemma paid_leg_events endpoint options h parsed r evs :
  paid_leg W endpoint options h parsed r evs ->
  (count is_fetch evs <= 1)%nat /\ (count is_signature evs <= 1)%nat.
Proof.
  destruct 1 as [| | | |ua others reqs e pevs Hw Ha Hq Hc
                  |ua others reqs pr pevs answer Hw Ha Hq Hc Hf];
    try (unfold count; simpl; lia).
  - apply createX402Payment_events in Hc as [H1 H2].
    rewrite !count_cons. simpl. lia.
  - apply createX402Payment_events in Hc as [H1 H2].
    rewrite !count_cons, !count_app, H1. unfold count at 1 3, retry_fetch.
    simpl. lia.
Qed.

(** C3: one call issues at most two broker requests and asks for at most one
    signature; when a request after the first is answered 402, the call fails
    with that answer (PaymentRetryFailed) and that request is the last
    event. *)
Theorem at_most_one_payment_cycle endpoint options h r evs :
  brokerRequestWithPayment W endpoint options h = (r, evs) ->
  (count is_fetch evs <= 2)%nat /\
  (count is_signature evs <= 1)%nat /\
  forall pre u i post response,
    evs = pre ++ Fetch u i :: post ->
    pre <> [] ->
    fetch_result W (h ++ pre) u i = inr response ->
    status response = 402 ->
    post = [] /\ r = inl (BrokerRequestFailed response).
Proof.
  intros Hrun. apply brokerRequestWithPayment_inv in Hrun.
  destruct Hrun as [e He | resp Hr Hn | resp Hr Hn | resp parsed r evs Hr Hn Hj Hleg].
  1-3: split; [unfold count; simpl; lia|];
       split; [unfold count; simpl; lia|];
       intros [|? [|? ?]] ? ? ? ? ? ?; simplify_eq.
  pose proof (paid_leg_events _ _ _ _ _ _ Hleg) as [H1 H2].
  split; [rewrite count_cons; simpl; lia|].
  split; [rewrite count_cons; simpl; lia|].
  intros pre u i post response Hevs Hpre Hf Hs.
  destruct pre as [|f pre]; [done|]. injection Hevs as <- Hevs.
  destruct Hleg as [| | | |ua others reqs e pevs Hw Ha Hq Hc
                    |ua others reqs pr pevs answer Hw Ha Hq Hc Hans].
  1-4: destruct pre as [|? [|? ?]]; simplify_eq.
  - destruct pre as [|? pre]; [done|]. injection Hevs as _ ->.
    apply createX402Payment_events in Hc as [Hc _].
    rewrite count_app, count_cons in Hc. simpl in Hc. lia.
  - destruct pre as [|? pre]; [done|]. injection Hevs as <- Hevs.
    assert (count is_fetch pevs = 0%nat) as Hz
      by (by apply createX402Payment_events in Hc as [? _]).
    destruct post as [|p post _] using rev_ind.
    + apply app_inj_tail in Hevs as [-> Hevs]. unfold retry_fetch in Hevs.
      injection Hevs as <- <-. split; [done|].
      replace (h ++ first_fetch W endpoint options :: Wallet eth_accounts :: pre)
        with ((h ++ [first_fetch W endpoint options]) ++ Wallet eth_accounts :: pre)
        in Hf by (by rewrite <- app_assoc).
      rewrite Hf in Hans. subst answer. unfold finish_result, ok.
      rewrite Hs. reflexivity.
    + change (Fetch u i :: post ++ [p]) with ((Fetch u i :: post) ++ [p]) in Hevs.
      rewrite app_assoc in Hevs. apply app_inj_tail in Hevs as [-> _].
      rewrite count_app, count_cons in Hz. simpl in Hz. lia.
Qed.

End Executor.

Lemma read_error k o e : read k o = inl e -> exists m, e = TypeError m.
Proof. destruct o as [[]|]; simpl; intros [=]; eauto. Qed.

(** Decoding a header fails with an error of the engine only. *)
Lemma decode_error (W : World) header o e :
  decode_payment_info W header o = inl e ->
  (exists m, e = TypeError m) \/ (exists m, e = SyntaxError m).
Proof.
  unfold decode_payment_info, JSON_parse_or_throw, mbind, thrown_bind.
  destruct (JSON_parse _); [|intros [= <-]; eauto].
  repeat match goal with
         | |- context [read ?k ?v] =>
             let E := fresh "E" in
             destruct (read k v) eqn:E; cbv beta iota;
             [apply read_error in E; intros [= <-]; eauto|]
         end.
  discriminate.
Qed.

Section Retry.
Variable W : World.


(** C4 (amended): [createX402Payment] fails with InvalidChallenge, before any
    effect, exactly when [accepts] is missing, is not an array or is empty;
    otherwise the first option goes to [signWithMetaMask] as it is, also when
    it lacks [asset], [payTo] or [maxAmountRequired]. *)
Theorem invalid_challenge_iff_no_option reqs addr h :
  match accepts reqs with
  | None | Some [] => createX402Payment W reqs addr h = (inl InvalidChallenge, [])
  | Some (o :: _) =>
      (createX402Payment W reqs addr h).1 <> inl InvalidChallenge /\
      (createX402Payment W reqs addr h).2 = (signWithMetaMask W o addr h).2
  end.
Proof.
  destruct (createX402Payment W reqs addr h) as [r evs] eqn:Hrun.
  apply createX402Payment_inv in Hrun.
  destruct (accepts reqs) as [[|o rest]|].
  - by destruct Hrun as [-> ->].
  - destruct Hrun as (signed & Hs & ->). rewrite Hs. split; [|done].
    apply signWithMetaMask_inv in Hs
      as [(_ & _ & ->) | [(e & _ & ->) | (pre & _ & _ & ->)]]; simpl.
    + discriminate.
    + discriminate.
    + destruct (ethereum_request W _ _) as [e|sg]; simpl; [discriminate|].
      destruct (decode_payment_info W _ o) eqn:Hd; [|discriminate].
      apply decode_error in Hd as [[m ->] | [m ->]]; discriminate.
  - by destruct Hrun as [-> ->].
Qed.

End Retry.

(** ** The authorization that is signed *)

Lemma hex2_spec b :
  is_byte b -> hex2 b = [hex_digit (b / 16); hex_digit (b mod 16)].
Proof.
  intros Hb.
  assert (forall n : nat, (n < 256)%nat ->
            hex2 (Z.of_nat n)
            = [hex_digit (Z.of_nat n / 16); hex_digit (Z.of_nat n mod 16)]) as H.
  { intros n Hn.
    assert (forallb (fun n => bool_decide
                      (hex2 (Z.of_nat n)
                       = [hex_digit (Z.of_nat n / 16); hex_digit (Z.of_nat n mod 16)]))
                    (seq 0 256) = true) as Hall by (vm_compute; reflexivity).
    rewrite forallb_forall in Hall.
    assert (In n (seq 0 256)) as Hx by (apply in_seq; lia).
    apply Hall in Hx. by apply bool_decide_eq_true_1 in Hx. }
  unfold is_byte in Hb. specialize (H (Z.to_nat b)).
  rewrite Z2Nat.id in H by lia. apply H. lia.
Qed.

Lemma hex2_two_hex_digits b : is_byte b -> hex2 b = two_hex_digits b.
Proof.
  intros Hb. rewrite hex2_spec by done. unfold is_byte in Hb.
  assert (forall d, 0 <= d < 16 -> hex_digit d = nth (Z.to_nat d) hex_digits 0) as H.
  { intros d Hd.
    assert (d = 0 \/ d = 1 \/ d = 2 \/ d = 3 \/ d = 4 \/ d = 5 \/ d = 6 \/ d = 7 \/
            d = 8 \/ d = 9 \/ d = 10 \/ d = 11 \/ d = 12 \/ d = 13 \/ d = 14 \/
            d = 15) as Hc by lia.
    repeat (destruct Hc as [->|Hc]; [reflexivity|]). by subst d. }
  unfold two_hex_digits. rewrite !H; [done| |]; arith.
Qed.

Lemma nonce_of_bytes_length bytes :
  Forall is_byte bytes ->
  length (nonce_of_bytes bytes) = (2 + 2 * length bytes)%nat.
Proof.
  unfold nonce_of_bytes. intros H. rewrite length_app.
  change (length (js "0x")) with 2%nat. f_equal.
  change (fun b => padStart 2 48 (Number_toString16 b)) with hex2.
  induction H as [|b bytes Hb _ IH]; [done|].
  cbn [map concat]. rewrite length_app, IH, hex2_spec by done. simpl. lia.
Qed.

Lemma message_fields o addr validAfter validBefore nonce :
  let msg := message o addr validAfter validBefore nonce in
  json_get "message" (typedData o addr validAfter validBefore nonce) = Some msg /\
  json_get "from" msg = Some (JStr addr) /\
  json_get "to" msg = JStr <$> payTo o /\
  json_get "value" msg = JStr <$> maxAmountRequired o /\
  json_get "validAfter" msg = Some (JNum validAfter 0) /\
  json_get "validBefore" msg = Some (JNum validBefore 0) /\
  json_get "nonce" msg = Some (JStr nonce).
Proof.
  destruct o as [s n [p|] [a|] [m|]]; vm_compute; done.
Qed.

Lemma domain_chainId o addr validAfter validBefore nonce :
  json_get "domain" (typedData o addr validAfter validBefore nonce)
    ≫= json_get "chainId" = Some (JNum 43114 0).
Proof. destruct o as [s n p [a|] m]; vm_compute; done. Qed.

Section Authorization.
Variable W : World.

Lemma nonceBytes_at_bytes hist :
  length (nonceBytes_at W hist) = 32%nat /\ Forall is_byte (nonceBytes_at W hist).
Proof.
  unfold nonceBytes_at. split; [by rewrite length_map, length_seq|].
  apply Forall_map, Forall_forall. intros i _. unfold is_byte. simpl.
  apply Z.mod_pos_bound. lia.
Qed.

Lemma signature_request_inv o addr h r evs a d :
  signWithMetaMask W o addr h = (r, evs) ->
  In (Wallet (eth_signTypedData_v4 a d)) evs ->
  exists pre,
    ensureNetwork W h = (inr tt, pre) /\
    evs = pre ++ [GetRandomValues 32; DateNow;
                  Wallet (signing_request W (h ++ pre) o addr)] /\
    eth_signTypedData_v4 a d = signing_request W (h ++ pre) o addr.
Proof.
  intros Hrun Hin.
  assert (forall pre res, ensureNetwork W h = (res, pre) ->
            ~ In (Wallet (eth_signTypedData_v4 a d)) pre) as Hpre.
  { intros pre res Hn Hd. apply ensureNetwork_events in Hn as [_ Hn].
    apply in_split in Hd as (l1 & l2 & ->).
    rewrite count_app, count_cons in Hn. simpl in Hn. lia. }
  apply signWithMetaMask_inv in Hrun
    as [(_ & -> & _) | [(e & Hn & _) | (pre & Hn & -> & _)]].
  - destruct Hin.
  - by apply Hpre in Hn.
  - exists pre. split; [done|]. split; [done|].
    apply in_app_or in Hin as [Hin | Hin]; [by apply Hpre in Hn|].
    simpl in Hin. destruct Hin as [|[|[Hin|[]]]]; simplify_eq. done.
Qed.

(** C5: the message that is handed to the wallet for signing has
    [validAfter] equal to the clock in whole seconds, [validBefore] 900
    seconds later, [value] and [to] equal to [maxAmountRequired] and [payTo]
    of the option, and as [nonce] the hexadecimal text of 32 bytes that
    [crypto.getRandomValues] has just produced for this signing. *)
Theorem signed_message_fields o addr h r evs a d :
  signWithMetaMask W o addr h = (r, evs) ->
  In (Wallet (eth_signTypedData_v4 a d)) evs ->
  exists pre,
    evs = pre ++ [GetRandomValues 32; DateNow; Wallet (eth_signTypedData_v4 a d)] /\
    let nonceBytes := map (fun i => random_byte W (h ++ pre) i mod 256) (seq 0 32) in
    let now := clock_ms W ((h ++ pre) ++ [GetRandomValues 32]) in
    let validAfter := now / 1000 in
    let validBefore := validAfter + 900 in
    let nonce := nonce_of_bytes nonceBytes in
    let msg := message o addr validAfter validBefore nonce in
    a = addr /\
    d = JSON_stringify (typedData o addr validAfter validBefore nonce) /\
    json_get "message" (typedData o addr validAfter validBefore nonce) = Some msg /\
    json_get "from" msg = Some (JStr addr) /\
    json_get "to" msg = JStr <$> payTo o /\
    json_get "value" msg = JStr <$> maxAmountRequired o /\
    json_get "validAfter" msg = Some (JNum validAfter 0) /\
    json_get "validBefore" msg = Some (JNum (validAfter + 900) 0) /\
    json_get "nonce" msg = Some (JStr nonce) /\
    length nonceBytes = 32%nat /\
    Forall is_byte nonceBytes /\
    nonce = js "0x" ++ concat (map two_hex_digits nonceBytes) /\
    length nonce = 66%nat.
Proof.
  intros Hrun Hin.
  destruct (signature_request_inv _ _ _ _ _ _ _ Hrun Hin) as (pre & _ & -> & Hreq).
  exists pre. rewrite Hreq. split; [done|].
  unfold signing_request, validAfter_at in Hreq. injection Hreq as -> ->.
  fold (nonceBytes_at W (h ++ pre)).
  destruct (nonceBytes_at_bytes (h ++ pre)) as [Hlen Hbytes].
  cbv zeta.
  pose proof (message_fields o addr
                (clock_ms W ((h ++ pre) ++ [GetRandomValues 32]) / 1000)
                (clock_ms W ((h ++ pre) ++ [GetRandomValues 32]) / 1000 + 900)
                (nonce_of_bytes (nonceBytes_at W (h ++ pre)))) as Hm.
  cbv zeta in Hm.
  repeat split; try done; try apply Hm.
  - unfold nonce_of_bytes. f_equal. f_equal.
    apply map_ext_Forall. eapply Forall_impl; [exact Hbytes|].
    intros b Hb. fold (hex2 b). by apply hex2_two_hex_digits.
  - rewrite nonce_of_bytes_length, Hlen by done. done.
Qed.

End Authorization.

Section Network.
Variable W : World.

(** C1 (amended): the chain id in the domain of every signing request is
    43114, whatever the network of the option.  With a wallet, the run opens
    with [eth_chainId]; when the answer is not [0xa86a] the next request asks
    the wallet to switch to [0xa86a], a rejection with code 4902 is followed
    by the request to add the chain, any other rejection ends the run, and
    only then come the random draw, the clock read and the signing request;
    when the answer is [0xa86a] these three follow at once.
    [getChainIdFromNetwork], whose table sends base to 8453, ethereum to 1
    and polygon to 137 and any label outside it (and outside the two
    inherited names) to 43114, takes no part in it. *)
Theorem domain_chain_is_avalanche o addr h r evs :
  signWithMetaMask W o addr h = (r, evs) ->
  (forall a d, In (Wallet (eth_signTypedData_v4 a d)) evs ->
     exists validAfter validBefore nonce,
       d = JSON_stringify (typedData o addr validAfter validBefore nonce) /\
       json_get "domain" (typedData o addr validAfter validBefore nonce)
         ≫= json_get "chainId" = Some (JNum 43114 0)) /\
  switch_request
    = wallet_switchEthereumChain (JArr [obj [("chainId", Some (jstr "0xa86a"))]]) /\
  (window_ethereum W h = true ->
   exists rest,
     evs = Wallet eth_chainId :: rest /\
     match ethereum_request W h eth_chainId with
     | inl e => rest = [] /\ r = inl (MetaMaskPaymentFailed e)
     | inr chain =>
         if bool_decide (chain = js "0xa86a") then draws_and_signs rest
         else
           exists rest',
             rest = Wallet switch_request :: rest' /\
             match ethereum_request W (h ++ [Wallet eth_chainId]) switch_request with
             | inr _ => draws_and_signs rest'
             | inl e =>
                 if bool_decide (code_of e = Some 4902) then
                   exists rest'',
                     rest' = Wallet add_request :: rest'' /\
                     match ethereum_request W
                             (h ++ [Wallet eth_chainId; Wallet switch_request])
                             add_request with
                     | inr _ => draws_and_signs rest''
                     | inl e' => rest'' = [] /\ r = inl (MetaMaskPaymentFailed e')
                     end
                 else rest' = [] /\ r = inl (MetaMaskPaymentFailed e)
             end
     end) /\
  (forall chain, In (Wallet (wallet_switchEthereumChain chain)) evs ->
      chain = JArr [obj [("chainId", Some (jstr "0xa86a"))]]) /\
  getChainIdFromNetwork (js "base") = ChainId 8453 /\
  getChainIdFromNetwork (js "ethereum") = ChainId 1 /\
  getChainIdFromNetwork (js "polygon") = ChainId 137 /\
  (forall label n,
      chainIds !! toLowerCase label = Some n ->
      getChainIdFromNetwork label = ChainId n) /\
  (forall label,
      chainIds !! toLowerCase label = None ->
      toLowerCase label <> js "constructor" ->
      toLowerCase label <> js "__proto__" ->
      getChainIdFromNetwork label = ChainId 43114).
Proof.
  intros Hrun.
  assert (Hshape : window_ethereum W h = true ->
    exists out pre, network_check W h out pre /\
      match out with
      | inl e => evs = pre /\ r = inl (MetaMaskPaymentFailed e)
      | inr _ => evs = pre ++ [GetRandomValues 32; DateNow;
                               Wallet (signing_request W (h ++ pre) o addr)]
      end).
  { intros Hw. apply signWithMetaMask_inv in Hrun
      as [(Hnw & _) | [(e & Hn & ->) | (pre & Hn & -> & _)]].
    - congruence.
    - exists (inl e), evs. split; [by apply ensureNetwork_inv|done].
    - exists (inr tt), pre. split; [by apply ensureNetwork_inv|done]. }
  split.
  { intros a d Hin.
    destruct (signature_request_inv _ _ _ _ _ _ _ _ Hrun Hin) as (pre & Hn & -> & Hreq).
    unfold signing_request in Hreq. injection Hreq as -> ->.
    eexists _, _, _. split; [done|]. apply domain_chainId. }
  split; [reflexivity|].
  split.
  { intros Hw. destruct (Hshape Hw) as (out & pre & Hcheck & Hout).
    assert (Hsig : forall l, draws_and_signs
              [GetRandomValues 32; DateNow; Wallet (signing_request W l o addr)]).
    { intros l. unfold draws_and_signs, signing_request. by eexists _, _. }
    change (js "0xa86a") with targetChainIdHex.
    inversion Hcheck as [e Hc | Hc | chain Hc Hne Hs | chain e Hc Hne Hs Hcode
                        | chain e a Hc Hne Hs Hcode Ha]; subst; rewrite Hc.
    - destruct Hout as [-> ->]. by exists [].
    - subst evs. eexists. split; [reflexivity|].
      rewrite bool_decide_eq_true_2 by done. apply Hsig.
    - subst evs. eexists. split; [reflexivity|].
      rewrite bool_decide_eq_false_2 by done.
      eexists. split; [reflexivity|]. rewrite Hs. apply Hsig.
    - destruct Hout as [-> ->]. eexists. split; [reflexivity|].
      rewrite bool_decide_eq_false_2 by done.
      exists []. split; [reflexivity|]. rewrite Hs.
      by rewrite bool_decide_eq_false_2 by done.
    - match type of Hout with match ?x with _ => _ end => destruct x as [e'|u] eqn:Ha end.
      + destruct Hout as [-> ->]. eexists. split; [reflexivity|].
        rewrite bool_decide_eq_false_2 by done.
        eexists. split; [reflexivity|]. rewrite Hs, bool_decide_eq_true_2 by done.
        exists []. by split.
      + subst evs. eexists. split; [reflexivity|].
        rewrite bool_decide_eq_false_2 by done.
        eexists. split; [reflexivity|]. rewrite Hs, bool_decide_eq_true_2 by done.
        eexists. split; [reflexivity|]. apply Hsig. }
  split.
  { intros chain Hin.
    destruct (window_ethereum W h) eqn:Hw.
    2:{ rewrite signWithMetaMask_no_wallet in Hrun by done.
        injection Hrun as <- <-. destruct Hin. }
    destruct (Hshape eq_refl) as (out & pre & Hcheck & Hout).
    assert (Hpre : In (Wallet (wallet_switchEthereumChain chain)) pre).
    { destruct out as [e|u]; [by destruct Hout as [<- _]|]. subst evs.
      apply in_app_or in Hin as [Hin|Hin]; [done|].
      simpl in Hin. destruct Hin as [|[|[Hin|[]]]]; simplify_eq. }
    clear Hin Hout.
    inversion Hcheck; subst; simpl in Hpre;
      repeat (destruct Hpre as [Hpre|Hpre]; [simplify_eq|]); try done. }
  split; [by vm_compute|]. split; [by vm_compute|]. split; [by vm_compute|].
  split.
  + intros label n Hl. unfold getChainIdFromNetwork. rewrite Hl.
    assert (map_Forall (fun _ n => n <> 0) chainIds) as Hnz.
    { apply (bool_decide_unpack _). by vm_compute. }
    apply Hnz in Hl. by destruct (Z.eqb_spec n 0).
  + intros label Hl H1 H2. unfold getChainIdFromNetwork. rewrite Hl.
    by rewrite !bool_decide_eq_false_2.
Qed.

End Network.


(** ** Revocation *)

Section Revocation.
Variable W : World.

Lemma idle_polls_S k txHash :
  idle_polls (S k) txHash
  = [Wallet (eth_getTransactionReceipt txHash); Sleep 2000] ++ idle_polls k txHash.
Proof. reflexivity. Qed.

(** The loop stops with the first receipt or after [n] polls, and never
    throws. *)
Lemma wait_for_receipt_inv n txHash h r evs :
  wait_for_receipt W n txHash h = (r, evs) ->
  (r = inr None /\ evs = idle_polls n txHash) \/
  (exists k receipt,
      (k < n)%nat /\ r = inr (Some receipt) /\
      evs = idle_polls k txHash ++ [Wallet (eth_getTransactionReceipt txHash)] /\
      ethereum_request W (h ++ idle_polls k txHash)
        (eth_getTransactionReceipt txHash) = inr (Some receipt)).
Proof.
  revert h r evs. induction n as [|n IH]; intros h r evs H.
  - injection H as <- <-. by left.
  - simpl in H.
    apply bind_inv in H as [(e & H & ->) | (rc & e1 & e2 & H & Hk & ->)].
    { apply try_catch_inv in H as [(a & _ & [=]) | (e' & e3 & e4 & _ & H & _)].
      discriminate H. }
    assert (e1 = [Wallet (eth_getTransactionReceipt txHash)] /\
            (rc = None \/
             ethereum_request W h (eth_getTransactionReceipt txHash) = inr rc))
      as [-> Hrc].
    { apply try_catch_inv in H as [(a & H & [= <-]) | (e' & e3 & e4 & H & Hh & ->)];
        unfold request in H; injection H as H <-.
      - auto.
      - injection Hh as <- <-. auto. }
    destruct rc as [receipt|].
    + injection Hk as <- <-. right. exists 0%nat, receipt.
      destruct Hrc as [|Hrc]; [done|].
      change (idle_polls 0 txHash) with (@nil Event).
      repeat split; rewrite ?app_nil_r; try done. lia.
    + apply bind_inv in Hk as [(e & Hk & _) | ([] & e3 & e4 & Hs & Hk & ->)];
        [discriminate Hk|].
      injection Hs as <-.
      apply IH in Hk as [[-> ->] | (k & receipt & Hlt & -> & -> & Hreq)].
      * left. done.
      * right. exists (S k), receipt. rewrite idle_polls_S.
        rewrite <- !app_assoc in *. repeat split; try done. lia.
Qed.

Lemma count_idle_polls k txHash : count is_poll (idle_polls k txHash) = k.
Proof.
  induction k as [|k IH]; [done|].
  rewrite idle_polls_S, count_app, IH. done.
Qed.

(** Every way [revokeApproval] can run. *)
Lemma revokeApproval_inv info h r evs :
  revokeApproval W info h = (r, evs) ->
  (evs = [] /\ r = inl (Error (js "MetaMask not found"))) \/
  (evs = [Wallet eth_requestAccounts] /\ exists e, r = inl (FailedToRevoke e)) \/
  (exists from s,
      spender info = Some s /\
      let sent := Wallet (eth_sendTransaction (revoke_tx from info s)) in
      (evs = [Wallet eth_requestAccounts; sent] /\
       exists e, r = inl (FailedToRevoke e)) \/
      (exists txHash,
          ethereum_request W (h ++ [Wallet eth_requestAccounts])
            (eth_sendTransaction (revoke_tx from info s)) = inr txHash /\
          ((evs = [Wallet eth_requestAccounts; sent] ++ idle_polls maxAttempts txHash /\
            r = inl RevocationFailure) \/
           (exists k receipt,
               (k < maxAttempts)%nat /\
               evs = [Wallet eth_requestAccounts; sent] ++ idle_polls k txHash
                       ++ [Wallet (eth_getTransactionReceipt txHash)] /\
               ethereum_request W
                 (h ++ [Wallet eth_requestAccounts; sent] ++ idle_polls k txHash)
                 (eth_getTransactionReceipt txHash) = inr (Some receipt) /\
               r = if bool_decide (receipt_status receipt = Some (js "0x0"))
                   then inl RevocationFailure else inr tt)))).
Proof.
  unfold revokeApproval. intros H.
  apply bind_inv in H as [(e & H & _) | (p & e1 & e2 & H & Hk & ->)];
    [discriminate H|].
  injection H as <- <-. rewrite app_nil_r in Hk.
  destruct (window_ethereum W h); cbn [negb] in Hk;
    [|injection Hk as <- <-; by left].
  right. cbv zeta.
  apply try_catch_inv in Hk as [([] & Hk & ->) | (e & evs1 & evs2 & Hk & Hh & ->)].
  - (* no failure *)
    apply bind_inv in Hk as [(e & _ & [=]) | (accounts & e3 & e4 & Ha & Hk & ->)].
    unfold request in Ha. injection Ha as Ha <-.
    apply bind_inv in Hk as [(e & _ & [=]) | (from & e5 & e6 & Hu & Hk & ->)].
    rewrite lift_run in Hu. injection Hu as Hu <-.
    apply bind_inv in Hk as [(e & _ & [=]) | (data & e7 & e8 & Hd & Hk & ->)].
    rewrite lift_run in Hd. injection Hd as Hd <-.
    destruct (spender info) as [s|] eqn:Hsp; [|discriminate Hd].
    injection Hd as <-.
    apply bind_inv in Hk as [(e & _ & [=]) | (txHash & e9 & e10 & Ht & Hk & ->)].
    unfold request in Ht. injection Ht as Ht <-.
    apply bind_inv in Hk as [(e & _ & [=]) | (rc & e11 & e12 & Hw & Hk & ->)].
    rewrite !app_nil_r in *.
    right. exists from, s. split; [done|]. right. exists txHash. split; [done|].
    apply wait_for_receipt_inv in Hw
      as [[[= ->] ->] | (k & receipt & Hlt & [= ->] & -> & Hreq)];
      [discriminate Hk|].
    right. exists k, receipt. rewrite <- !app_assoc in Hreq.
    case_bool_decide; [discriminate Hk|]. injection Hk as <-.
    cbn [app]. rewrite ?app_nil_r, <- ?app_assoc. done.
  - (* some failure, wrapped by the outer handler *)
    injection Hh as <- <-. rewrite app_nil_r.
    apply bind_inv in Hk as [(e' & Ha & [= <-]) | (accounts & e3 & e4 & Ha & Hk & ->)];
      unfold request in Ha; injection Ha as Ha <-; [left; eauto|].
    apply bind_inv in Hk as [(e' & Hu & [= <-]) | (from & e5 & e6 & Hu & Hk & ->)];
      rewrite lift_run in Hu; injection Hu as Hu <-; [left; eauto|].
    apply bind_inv in Hk as [(e' & Hd & [= <-]) | (data & e7 & e8 & Hd & Hk & ->)];
      rewrite lift_run in Hd; injection Hd as Hd <-; [left; eauto|].
    destruct (spender info) as [s|] eqn:Hsp; [|discriminate Hd].
    injection Hd as <-.
    right. exists from, s. split; [done|].
    apply bind_inv in Hk as [(e' & Ht & [= <-]) | (txHash & e9 & e10 & Ht & Hk & ->)];
      unfold request in Ht; injection Ht as Ht <-; [left; eauto|].
    rewrite !app_nil_r in *. right. exists txHash. split; [done|].
    apply bind_inv in Hk as [(e' & Hw & [= <-]) | (rc & e11 & e12 & Hw & Hk & ->)].
    { apply wait_for_receipt_inv in Hw as [[[=] _] | (k & receipt & _ & [=] & _)]. }
    apply wait_for_receipt_inv in Hw
      as [[[= ->] ->] | (k & receipt & Hlt & [= ->] & -> & Hreq)].
    + injection Hk as <- <-. left.
      cbn [app]. rewrite ?app_nil_r, <- ?app_assoc. done.
    + right. exists k, receipt. rewrite <- !app_assoc in Hreq.
      case_bool_decide; [|discriminate Hk]. injection Hk as <- <-.
      cbn [app]. rewrite ?app_nil_r, <- ?app_assoc. done.
Qed.

Lemma revokeApproval_run info h r evs :
  revokeApproval W info h = (r, evs) -> revoke_run W info h r evs.
Proof.
  unfold revokeApproval. intros H.
  apply bind_inv in H as [(e & H & _) | (p & e1 & e2 & H & Hk & ->)];
    [discriminate H|].
  injection H as <- <-. rewrite app_nil_r in Hk.
  destruct (window_ethereum W h) eqn:Hwin; cbn [negb] in Hk;
    [|injection Hk as <- <-; by constructor].
  cbn [app].
  apply try_catch_inv in Hk as [([] & Hk & ->) | (e & evs1 & evs2 & Hk & Hh & ->)].
  - (* no failure *)
    apply bind_inv in Hk as [(e & _ & [=]) | (accounts & e3 & e4 & Ha & Hk & ->)].
    unfold request in Ha. injection Ha as Ha <-.
    apply bind_inv in Hk as [(e & _ & [=]) | (from & e5 & e6 & Hu & Hk & ->)].
    rewrite lift_run in Hu. injection Hu as Hu <-.
    destruct accounts as [accounts|]; [|discriminate Hu]. injection Hu as <-.
    apply bind_inv in Hk as [(e & _ & [=]) | (data & e7 & e8 & Hd & Hk & ->)].
    rewrite lift_run in Hd. injection Hd as Hd <-.
    destruct (spender info) as [s|] eqn:Hsp; [|discriminate Hd].
    injection Hd as <-.
    apply bind_inv in Hk as [(e & _ & [=]) | (txHash & e9 & e10 & Ht & Hk & ->)].
    unfold request in Ht. injection Ht as Ht <-.
    apply bind_inv in Hk as [(e & _ & [=]) | (rc & e11 & e12 & Hw & Hk & ->)].
    rewrite !app_nil_r in *. rewrite <- app_assoc in Hw.
    assert (inr () = revoke_result (inr rc) /\ e12 = []) as [-> ->].
    { destruct rc as [receipt|]; [|discriminate Hk]. unfold revoke_result.
      case_bool_decide; [discriminate Hk|]. by injection Hk as <-. }
    rewrite app_nil_r.
    by eapply (revoke_polled W info h accounts s txHash (inr rc) e11).
  - (* some failure, wrapped by the outer handler *)
    injection Hh as <- <-. rewrite app_nil_r.
    apply bind_inv in Hk as [(e' & Ha & [= <-]) | (accounts & e3 & e4 & Ha & Hk & ->)];
      unfold request in Ha; injection Ha as Ha <-; [by constructor|].
    apply bind_inv in Hk as [(e' & Hu & [= <-]) | (from & e5 & e6 & Hu & Hk & ->)];
      rewrite lift_run in Hu; injection Hu as Hu <-.
    { destruct accounts; [discriminate Hu|]. injection Hu as <-. by constructor. }
    destruct accounts as [accounts|]; [|discriminate Hu]. injection Hu as <-.
    apply bind_inv in Hk as [(e' & Hd & [= <-]) | (data & e7 & e8 & Hd & Hk & ->)];
      rewrite lift_run in Hd; injection Hd as Hd <-.
    { destruct (spender info) eqn:Hsp; [discriminate Hd|]. injection Hd as <-.
      by eapply revoke_no_spender. }
    destruct (spender info) as [s|] eqn:Hsp; [|discriminate Hd].
    injection Hd as <-.
    apply bind_inv in Hk as [(e' & Ht & [= <-]) | (txHash & e9 & e10 & Ht & Hk & ->)];
      unfold request in Ht; injection Ht as Ht <-.
    { rewrite !app_nil_r in *. cbn [app]. by eapply revoke_send_rejected. }
    rewrite !app_nil_r in *.
    apply bind_inv in Hk as [(e' & Hw & [= <-]) | (rc & e11 & e12 & Hw & Hk & ->)];
      rewrite <- app_assoc in Hw.
    { by eapply (revoke_polled W info h accounts s txHash (inl e)). }
    assert (inl (FailedToRevoke e) = revoke_result (inr rc) /\ e12 = []) as [-> ->].
    { unfold FailedToRevoke, RevocationFailure, revoke_result.
      destruct rc as [receipt|]; [case_bool_decide; [|discriminate Hk]|];
        by injection Hk as <- <-. }
    rewrite app_nil_r.
    by eapply (revoke_polled W info h accounts s txHash (inr rc) e11).
Qed.

(** The loop, with the answers that kept it going. *)
Lemma wait_for_receipt_run n txHash h r evs :
  wait_for_receipt W n txHash h = (r, evs) ->
  exists k,
    (forall j receipt, (j < k)%nat ->
       ethereum_request W (h ++ idle_polls j txHash)
         (eth_getTransactionReceipt txHash) <> inr (Some receipt)) /\
    ((k = n /\ r = inr None /\ evs = idle_polls n txHash) \/
     (exists receipt,
        (k < n)%nat /\ r = inr (Some receipt) /\
        evs = idle_polls k txHash ++ [Wallet (eth_getTransactionReceipt txHash)] /\
        ethereum_request W (h ++ idle_polls k txHash)
          (eth_getTransactionReceipt txHash) = inr (Some receipt))).
Proof.
  revert h r evs. induction n as [|n IH]; intros h r evs H.
  - injection H as <- <-. exists 0%nat. split; [intros; lia|]. by left.
  - simpl in H.
    apply bind_inv in H as [(e & H & ->) | (rc & e1 & e2 & H & Hk & ->)].
    { apply try_catch_inv in H as [(a & _ & [=]) | (e' & e3 & e4 & _ & H & _)].
      discriminate H. }
    assert (e1 = [Wallet (eth_getTransactionReceipt txHash)] /\
            ((rc = None /\
              forall receipt, ethereum_request W h (eth_getTransactionReceipt txHash)
                              <> inr (Some receipt)) \/
             (exists receipt, rc = Some receipt /\
              ethereum_request W h (eth_getTransactionReceipt txHash)
                = inr (Some receipt))))
      as [-> Hrc].
    { apply try_catch_inv in H as [(a & H & [= <-]) | (e' & e3 & e4 & H & Hh & ->)];
        unfold request in H; injection H as H <-.
      - split; [done|]. destruct rc as [receipt|].
        + right. by exists receipt.
        + left. split; [done|]. intros receipt. by rewrite H.
      - injection Hh as <- <-. split; [done|]. left. split; [done|].
        intros receipt. by rewrite H. }
    destruct Hrc as [[-> Hidle] | (receipt & -> & Hreq)].
    + apply bind_inv in Hk as [(e & Hk & _) | ([] & e3 & e4 & Hs & Hk & ->)];
        [discriminate Hk|].
      injection Hs as <-.
      apply IH in Hk as (k & Hbefore & Hk).
      exists (S k). split.
      { intros [|j] receipt Hj.
        - change (idle_polls 0 txHash) with (@nil Event). rewrite app_nil_r.
          apply Hidle.
        - specialize (Hbefore j receipt). rewrite idle_polls_S.
          rewrite <- !app_assoc in *. apply Hbefore. lia. }
      destruct Hk as [(-> & -> & ->) | (receipt & Hlt & -> & -> & Hreq)].
      * by left.
      * right. exists receipt. rewrite idle_polls_S.
        rewrite <- !app_assoc in *. repeat split; try done. lia.
    + injection Hk as <- <-. exists 0%nat. split; [intros; lia|].
      right. exists receipt.
      change (idle_polls 0 txHash) with (@nil Event).
      repeat split; rewrite ?app_nil_r; try done. lia.
Qed.

(** A revocation that reaches the wallet with an account and a spender. *)
Lemma revocation_shape info h r evs accounts s :
  revokeApproval W info h = (r, evs) ->
  window_ethereum W h = true ->
  ethereum_request W h eth_requestAccounts = inr (Some accounts) ->
  spender info = Some s ->
  exists rest,
    evs = Wallet eth_requestAccounts
          :: Wallet (eth_sendTransaction (revoke_tx (head accounts) info s)) :: rest /\
    match ethereum_request W (h ++ [Wallet eth_requestAccounts])
            (eth_sendTransaction (revoke_tx (head accounts) info s)) with
    | inl e => rest = [] /\ r = inl (FailedToRevoke e)
    | inr txHash =>
        let sent := h ++ [Wallet eth_requestAccounts;
                          Wallet (eth_sendTransaction
                                    (revoke_tx (head accounts) info s))] in
        exists k,
          (forall j receipt, (j < k)%nat ->
             ethereum_request W (sent ++ idle_polls j txHash)
               (eth_getTransactionReceipt txHash) <> inr (Some receipt)) /\
          ((k = 30%nat /\ rest = idle_polls 30 txHash /\ r = inl RevocationFailure) \/
           (exists receipt,
              (k < 30)%nat /\
              rest = idle_polls k txHash ++ [Wallet (eth_getTransactionReceipt txHash)] /\
              ethereum_request W (sent ++ idle_polls k txHash)
                (eth_getTransactionReceipt txHash) = inr (Some receipt) /\
              r = if bool_decide (receipt_status receipt = Some (js "0x0"))
                  then inl RevocationFailure else inr tt))
    end.
Proof.
  intros Hrun Hw Ha Hs. apply revokeApproval_run in Hrun.
  inversion Hrun as [Hw' | e Hw' Ha' | m Hw' Ha' | acc m Hw' Ha' Hs'
                    | acc s' e Hw' Ha' Hs' Ht
                    | acc s' txHash polled pevs Hw' Ha' Hs' Ht Hloop];
    subst; try congruence.
  - rewrite Ha in Ha'. rewrite Hs in Hs'. simplify_eq.
    exists []. split; [done|]. by rewrite Ht.
  - rewrite Ha in Ha'. rewrite Hs in Hs'. simplify_eq.
    eexists. split; [reflexivity|]. rewrite Ht. cbv zeta.
    apply wait_for_receipt_run in Hloop as (k & Hidle & Hk).
    exists k. split; [exact Hidle|].
    destruct Hk as [(-> & -> & ->) | (receipt & Hlt & -> & -> & Hreq)].
    + by left.
    + right. by exists receipt.
Qed.

End Revocation.

Lemma padStart_length n c s :
  (length s <= n)%nat -> length (padStart n c s) = n.
Proof. unfold padStart. rewrite length_app, length_replicate. lia. Qed.

Lemma idle_polls_snoc k txHash :
  idle_polls (S k) txHash
  = idle_polls k txHash ++ [Wallet (eth_getTransactionReceipt txHash); Sleep 2000].
Proof.
  induction k as [|k IH]; [done|].
  rewrite idle_polls_S at 1. rewrite IH at 1.
  by rewrite idle_polls_S, <- !app_assoc.
Qed.

Lemma in_idle_polls e k txHash :
  In e (idle_polls k txHash) ->
  e = Wallet (eth_getTransactionReceipt txHash) \/ e = Sleep 2000.
Proof.
  induction k as [|k IH]; [done|].
  rewrite idle_polls_S. intros [<-|[<-|H]]; auto.
Qed.

Section RevocationFacts.
Variable W : World.

(** C9 (amended): with a wallet, an account and a spender, [revokeApproval]
    asks for the accounts and then sends, through [eth_sendTransaction], the
    transaction whose data is the selector of [approve], the spender without
    its first [0x] padded with zeros to 64 digits, and 64 zeros, with the
    value [0x0]; a rejected transaction ends the run.  Then the receipt is
    asked for: every poll that gives no receipt is followed by a pause of
    2000 ms, the first receipt ends the loop, and there are at most 30 polls.
    Running out of the 30 attempts and a receipt whose status is [0x0] fail
    with one and the same error, [Failed to revoke approval: Revocation
    transaction failed]. *)
Theorem revocation_budget_and_failure info h r evs :
  revokeApproval W info h = (r, evs) ->
  (window_ethereum W h = true ->
   forall accounts s,
     ethereum_request W h eth_requestAccounts = inr (Some accounts) ->
     spender info = Some s ->
     exists rest,
       evs = Wallet eth_requestAccounts
             :: Wallet (eth_sendTransaction (revoke_tx (head accounts) info s)) :: rest /\
       match ethereum_request W (h ++ [Wallet eth_requestAccounts])
               (eth_sendTransaction (revoke_tx (head accounts) info s)) with
       | inl e => rest = [] /\ r = inl (FailedToRevoke e)
       | inr txHash =>
           let sent := h ++ [Wallet eth_requestAccounts;
                             Wallet (eth_sendTransaction
                                       (revoke_tx (head accounts) info s))] in
           exists k,
             (forall j receipt, (j < k)%nat ->
                ethereum_request W (sent ++ idle_polls j txHash)
                  (eth_getTransactionReceipt txHash) <> inr (Some receipt)) /\
             ((k = 30%nat /\ rest = idle_polls 30 txHash /\ r = inl RevocationFailure) \/
              (exists receipt,
                 (k < 30)%nat /\
                 rest = idle_polls k txHash ++ [Wallet (eth_getTransactionReceipt txHash)] /\
                 ethereum_request W (sent ++ idle_polls k txHash)
                   (eth_getTransactionReceipt txHash) = inr (Some receipt) /\
                 r = if bool_decide (receipt_status receipt = Some (js "0x0"))
                     then inl RevocationFailure else inr tt))
       end) /\
  (count is_poll evs <= 30)%nat /\
  (forall ms, In (Sleep ms) evs -> ms = 2000) /\
  (forall tx, In (Wallet (eth_sendTransaction tx)) evs ->
     exists from s data,
       spender info = Some s /\
       data = js "0x095ea7b3"
                ++ padStart 64 48 (replace_first (js "0x") [] s)
                ++ replicate 64 48 /\
       tx = JArr [obj [("from", json_opt from);
                       ("to", json_opt (info_asset info));
                       ("data", Some (JStr data));
                       ("value", Some (jstr "0x0"))]] /\
       ((length (replace_first (js "0x") [] s) <= 64)%nat ->
        length data = (10 + 64 + 64)%nat)) /\
  (count is_poll evs = 30%nat -> last evs = Some (Sleep 2000) ->
     r = inl RevocationFailure) /\
  (forall pre txHash receipt,
     evs = pre ++ [Wallet (eth_getTransactionReceipt txHash)] ->
     ethereum_request W (h ++ pre) (eth_getTransactionReceipt txHash)
       = inr (Some receipt) ->
     receipt_status receipt = Some (js "0x0") ->
     r = inl RevocationFailure).
Proof.
  intros Hrun. split.
  { intros Hw accounts s Ha Hs. by eapply revocation_shape. }
  apply revokeApproval_inv in Hrun.
  assert (forall from s tx,
            Wallet (eth_sendTransaction (revoke_tx from info s))
              = Wallet (eth_sendTransaction tx) ->
            spender info = Some s ->
            exists from s data,
              spender info = Some s /\
              data = js "0x095ea7b3"
                       ++ padStart 64 48 (replace_first (js "0x") [] s)
                       ++ replicate 64 48 /\
              tx = JArr [obj [("from", json_opt from);
                              ("to", json_opt (info_asset info));
                              ("data", Some (JStr data));
                              ("value", Some (jstr "0x0"))]] /\
              ((length (replace_first (js "0x") [] s) <= 64)%nat ->
               length data = (10 + 64 + 64)%nat)) as Htx.
  { intros from s tx [= <-] Hs. exists from, s. eexists. split; [done|].
    split; [reflexivity|]. split; [reflexivity|].
    intros Hl. rewrite !length_app, padStart_length, length_replicate by done.
    done. }
  destruct Hrun as [[-> ->] | [[-> [e ->]] | (from & s & Hs & Hrun)]].
  - split_and!.
    + unfold count. simpl. lia.
    + intros ms [].
    + intros tx [].
    + done.
    + intros [|? ?] ? ? ?; simplify_eq.
  - split_and!.
    + unfold count. simpl. lia.
    + intros ms [|[]]; simplify_eq.
    + intros tx [|[]]; simplify_eq.
    + done.
    + intros [|? [|? ?]] ? ? ?; simplify_eq.
  - cbv zeta in Hrun.
    destruct Hrun as [[-> [e ->]] | (txHash & Ht & Hrun)].
    { split_and!.
      + unfold count. simpl. lia.
      + intros ms [|[|[]]]; simplify_eq.
      + intros tx [|[H|[]]]; simplify_eq. by eapply Htx.
      + done.
      + intros [|? [|? [|? ?]]] ? ? ?; simplify_eq. }
    destruct Hrun as [[-> ->] | (k & receipt & Hk & -> & Hreq & ->)].
    + split_and!.
      * rewrite count_app, count_idle_polls. unfold count. simpl.
        unfold maxAttempts. lia.
      * intros ms [|[|H]]; simplify_eq. by apply in_idle_polls in H as [|[=]].
      * intros tx [|[H|H]]; simplify_eq; [by eapply Htx|].
        by apply in_idle_polls in H as [|].
      * done.
      * intros pre tx rc H. exfalso. unfold maxAttempts in H.
        rewrite idle_polls_snoc in H.
        change ([Wallet (eth_getTransactionReceipt txHash); Sleep 2000])
          with ([Wallet (eth_getTransactionReceipt txHash)] ++ [Sleep 2000]) in H.
        rewrite !app_assoc in H. by apply app_inj_tail in H as [_ ?].
    + split_and!.
      * rewrite !count_app, count_idle_polls. unfold count. simpl.
        unfold maxAttempts in Hk. lia.
      * intros ms [|[|H]]; simplify_eq.
        apply (in_app_or (idle_polls k txHash) [_]) in H as [H|H];
          [|simpl in H; destruct H as [|[]]; simplify_eq].
        by apply in_idle_polls in H as [|[=]].
      * intros tx [|[H|H]]; simplify_eq; [by eapply Htx|].
        apply (in_app_or (idle_polls k txHash) [_]) in H as [H|H];
          [|simpl in H; destruct H as [|[]]; simplify_eq].
        by apply in_idle_polls in H as [|].
      * intros _ Hl. rewrite !app_assoc, last_snoc in Hl. discriminate Hl.
      * intros pre tx rc H Hr Hst. rewrite !app_assoc in H.
        apply app_inj_tail in H as [<- [= <-]].
        rewrite <- ?app_assoc in Hr. rewrite Hreq in Hr. injection Hr as <-.
        by rewrite bool_decide_eq_true_2.
Qed.

End RevocationFacts.

(** ** [fetchWith402] *)

(** C10: [fetchWith402] returns a first answer that is not a 402; on a 402 it
    POSTs [JSON.stringify(body?.invoice || body)] to [body?.payUrl] or to
    [/pay] on the relay, throws [Payment failed] when that answer is not ok,
    and otherwise repeats the first request with the very same arguments (no
    payment header added) and returns whatever comes back, a 402 included.
    On three sellers: the invoice of the challenge is posted to its
    [payUrl]; with an invoice that is zero and an empty [payUrl] the whole
    body is posted to the relay; and so is [null] when the body is not
    JSON. *)
Theorem fetchWith402_outcomes (W : World) input init h :
  fetchWith402 W input init h =
  match fetch_result W h input init with
  | inl e => (inl e, [Fetch input init])
  | inr res =>
      if status res =? 402 then
        let body := JSON_parse (text res) in
        let relay := or_else (NEXT_PUBLIC_HTTPAYER_RELAY W) [] in
        let payUrl :=
          match body ≫= json_get "payUrl" with
          | Some v => if truthy v then String_of_parsed v else relay ++ js "/pay"
          | None => relay ++ js "/pay"
          end in
        let invoice :=
          match body ≫= json_get "invoice" with
          | Some v => if truthy v then v else default JNull body
          | None => default JNull body
          end in
        let pay := Some {| method := Some (js "POST");
                           body := Some (JSON_stringify_parsed invoice);
                           headers := {[ js "Content-Type" := js "application/json" ]} |} in
        match fetch_result W (h ++ [Fetch input init]) payUrl pay with
        | inl e => (inl e, [Fetch input init; Fetch payUrl pay])
        | inr payRes =>
            if ok payRes then
              (fetch_result W (h ++ [Fetch input init; Fetch payUrl pay]) input init,
               [Fetch input init; Fetch payUrl pay; Fetch input init])
            else (inl PaymentFailed, [Fetch input init; Fetch payUrl pay])
        end
      else (inr res, [Fetch input init])
  end
  /\ (let posted url text :=
        Fetch url (Some {| method := Some (js "POST");
                           body := Some text;
                           headers := {[ js "Content-Type" := js "application/json" ]} |}) in
      fetchWith402 (Scenario.seller Scenario.invoice_challenge) input init []
      = (inr (mkResponse 200 Scenario.job),
         [Fetch input init;
          posted (js "https://pay.example/x")
            (quoted "{'1':'a','2':'b','id':8,'amount':1.5}");
          Fetch input init])
      /\ fetchWith402 (Scenario.seller Scenario.void_challenge) input init []
        = (inr (mkResponse 200 Scenario.job),
           [Fetch input init;
            posted (js "https://relay.example/pay")
              (quoted "{'invoice':0,'payUrl':''}");
            Fetch input init])
      /\ fetchWith402 (Scenario.seller (js "payment required")) input init []
        = (inr (mkResponse 200 Scenario.job),
           [Fetch input init;
            posted (js "https://relay.example/pay") (js "null");
            Fetch input init])).
Proof.
  assert (Hrun : forall V i n k,
    fetchWith402 V i n k =
    match fetch_result V k i n with
    | inl e => (inl e, [Fetch i n])
    | inr res =>
        if status res =? 402 then
          let pay := Some (pay_init (JSON_parse (text res))) in
          let payUrl := payUrl_of V (JSON_parse (text res)) in
          match fetch_result V (k ++ [Fetch i n]) payUrl pay with
          | inl e => (inl e, [Fetch i n; Fetch payUrl pay])
          | inr payRes =>
              if ok payRes then
                (fetch_result V (k ++ [Fetch i n; Fetch payUrl pay]) i n,
                 [Fetch i n; Fetch payUrl pay; Fetch i n])
              else (inl PaymentFailed, [Fetch i n; Fetch payUrl pay])
          end
        else (inr res, [Fetch i n])
    end).
  { intros V i n k. unfold fetchWith402. rewrite bind_run. unfold fetch at 1.
    destruct (fetch_result V k i n) as [e|res]; [done|].
    destruct (status res =? 402); [|done]. cbn [negb]. unfold after.
    rewrite bind_run. unfold fetch at 1. cbv zeta.
    destruct (fetch_result V (k ++ [Fetch i n]) _ _) as [e|payRes]; [done|].
    unfold after. destruct (ok payRes); cbn [negb]; [|done].
    unfold fetch. by rewrite <- app_assoc. }
  split; [exact (Hrun W input init h)|].
  cbv zeta. split_and!; rewrite Hrun; reflexivity.
Qed.

(** ** The scenarios *)

Section OnScenarios.
Import Scenario.


(** C7, as the claim has it, fails: a 204 answer has no body, and the
    executor does not return it but fails with the SyntaxError of
    [response.json()]. *)
Lemma empty_answer_is_a_failure :
  fetch_result silent [] (BROKER_API_BASE silent ++ run_endpoint)
    (Some (first_init options)) = inr (mkResponse 204 []) /\
  ok (mkResponse 204 []) = true /\
  exists m,
    brokerRequestWithPayment silent run_endpoint options [] =
      (inl (SyntaxError m),
       [Fetch (BROKER_API_BASE silent ++ run_endpoint) (Some (first_init options))]).
Proof.
  split; [reflexivity|]. split; [reflexivity|]. eexists. vm_compute. reflexivity.
Qed.

Lemma at_most_one_payment_cycle_witness :
  unpaid_run = (unpaid_run.1, unpaid_run.2) /\
  (count is_fetch unpaid_run.2 <= 2)%nat /\
  (count is_signature unpaid_run.2 <= 1)%nat /\
  forall pre u i post response,
    unpaid_run.2 = pre ++ Fetch u i :: post ->
    pre <> [] ->
    fetch_result unpaid ([] ++ pre) u i = inr response ->
    status response = 402 ->
    post = [] /\ unpaid_run.1 = inl (BrokerRequestFailed response).
Proof.
  split; [apply surjective_pairing|].
  apply (at_most_one_payment_cycle unpaid run_endpoint options []).
  apply surjective_pairing.
Defined.

(** Scenario D of the specification: the paid retry is answered 402. *)
Example retry_402_fails :
  unpaid_run.1 = inl (BrokerRequestFailed (mkResponse 402 challenge)) /\
  count is_fetch unpaid_run.2 = 2%nat /\
  count is_signature unpaid_run.2 = 1%nat.
Proof. by vm_compute. Qed.

(** Scenario B of the specification: the body of the 402 is not JSON. *)
Example malformed_challenge_fails :
  brokerRequestWithPayment garbled run_endpoint options []
  = (inl MalformedChallenge, [first_fetch garbled run_endpoint options]).
Proof. by vm_compute. Qed.

(** Scenario C of the specification: no connected account. *)
Example no_account_fails :
  brokerRequestWithPayment locked run_endpoint options []
  = (inl WalletNotConnected,
     [first_fetch locked run_endpoint options; Wallet eth_accounts]).
Proof. by vm_compute. Qed.

(** Scenario A of the specification: 402, payment, then 200. *)
Example paid_retry_returns_body :
  paid_run.1 = inr (obj [("jobId", Some (jstr "abc"));
                         ("status", Some (jstr "completed"))]) /\
  count is_fetch paid_run.2 = 2%nat /\
  count is_signature paid_run.2 = 1%nat.
Proof. by vm_compute. Qed.



(** C4, as stated, fails: an option without [asset], [payTo] and
    [maxAmountRequired] is not rejected; the wallet is asked to sign and the
    payment is returned. *)
Lemma bare_option_is_signed :
  match createX402Payment paid bare_requirements payer [] with
  | (inr paymentResult, evs) =>
      count is_signature evs = 1%nat /\
      spender (paymentInfo paymentResult) = None
  | (inl _, _) => False
  end.
Proof. by vm_compute. Qed.

(** C1, as stated, fails: for an option on [base] the table gives 8453,
    and the domain that is signed has the chain id 43114. *)
Lemma base_option_signs_for_avalanche :
  network base_option = Some (js "base") /\
  getChainIdFromNetwork (js "base") = ChainId 8453 /\
  signed_texts sign_run.2 = [signed_text] /\
  (JSON_parse signed_text ≫= json_get "domain") ≫= json_get "chainId"
    = Some (JNum 43114 0).
Proof. by vm_compute. Qed.

Lemma domain_chain_is_avalanche_witness :
  sign_run = (sign_run.1, sign_run.2) /\
  exists a d,
    sign_run.2
    = [Wallet eth_chainId;
       Wallet (wallet_switchEthereumChain
                 (JArr [obj [("chainId", Some (jstr "0xa86a"))]]));
       Wallet (wallet_addEthereumChain (JArr [addChainParams]));
       GetRandomValues 32; DateNow; Wallet (eth_signTypedData_v4 a d)] /\
    exists validAfter validBefore nonce,
      d = JSON_stringify (typedData base_option payer validAfter validBefore nonce) /\
      json_get "domain" (typedData base_option payer validAfter validBefore nonce)
        ≫= json_get "chainId" = Some (JNum 43114 0).
Proof.
  assert (Hrun : sign_run = (sign_run.1, sign_run.2)) by apply surjective_pairing.
  split; [exact Hrun|].
  destruct (domain_chain_is_avalanche paid base_option payer [] _ _ Hrun)
    as (Hdomain & Hswitch & Hshape & _).
  destruct (Hshape eq_refl) as (rest & Hevs & Hrest).
  cbn in Hrest. destruct Hrest as (rest' & -> & rest'' & -> & a & d & ->).
  exists a, d. split; [exact Hevs|].
  apply (Hdomain a d). rewrite Hevs. simpl. tauto.
Defined.

Lemma signed_message_fields_witness :
  sign_run = (sign_run.1, sign_run.2) /\
  In (Wallet (eth_signTypedData_v4 payer signed_literal)) sign_run.2 /\
  exists pre,
    sign_run.2 = pre ++ [GetRandomValues 32; DateNow;
                         Wallet (eth_signTypedData_v4 payer signed_literal)] /\
    signed_literal
      = JSON_stringify (typedData base_option payer 1700000000 1700000900 nonce_literal) /\
    json_get "to" (message base_option payer 1700000000 1700000900 nonce_literal)
      = Some (JStr payee) /\
    json_get "value" (message base_option payer 1700000000 1700000900 nonce_literal)
      = Some (jstr "10000") /\
    json_get "validAfter" (message base_option payer 1700000000 1700000900 nonce_literal)
      = Some (JNum 1700000000 0) /\
    json_get "validBefore" (message base_option payer 1700000000 1700000900 nonce_literal)
      = Some (JNum 1700000900 0) /\
    json_get "nonce" (message base_option payer 1700000000 1700000900 nonce_literal)
      = Some (JStr nonce_literal) /\
    nonce_literal
      = js "0x" ++ concat (map two_hex_digits
                             (map (fun i => (Z.of_nat i * 37 + 5) mod 256) (seq 0 32))).
Proof.
  assert (Hin : In (Wallet (eth_signTypedData_v4 payer signed_literal)) sign_run.2)
    by in_events.
  split; [apply surjective_pairing|]. split; [exact Hin|].
  destruct (signed_message_fields paid base_option payer [] sign_run.1 sign_run.2
              payer signed_literal (surjective_pairing _) Hin) as (pre & Hevs & H).
  cbv zeta in H.
  destruct H as (_ & Hd & _ & _ & Hto & Hvalue & Hva & Hvb & Hn & _ & _ & Hnonce & _).
  exists pre. split; [exact Hevs|]. split; [exact Hd|]. split; [exact Hto|].
  split; [exact Hvalue|]. split; [exact Hva|]. split; [exact Hvb|].
  split; [exact Hn|]. exact Hnonce.
Defined.

(** C9, as stated, fails: running out of attempts and a receipt with the
    failure status give the same error. *)
Lemma timeout_and_failure_coincide :
  (revokeApproval stalled info []).1 = inl RevocationFailure /\
  count is_poll (revokeApproval stalled info []).2 = 30%nat /\
  (revokeApproval reverting info []).1 = inl RevocationFailure /\
  count is_poll (revokeApproval reverting info []).2 = 1%nat /\
  (revokeApproval stalled info []).1 = (revokeApproval reverting info []).1.
Proof. by vm_compute. Qed.

Lemma revocation_budget_and_failure_witness :
  (revokeApproval reverting info []
     = ((revokeApproval reverting info []).1, (revokeApproval reverting info []).2) /\
   (revokeApproval reverting info []).2
     = [Wallet eth_requestAccounts;
        Wallet (eth_sendTransaction
                  (JArr [obj [("from", Some (JStr payer));
                              ("to", Some (JStr usdc));
                              ("data",
                               Some (jstr "0x095ea7b300000000000000000000000011111111111111111111111111111111111111110000000000000000000000000000000000000000000000000000000000000000"));
                              ("value", Some (jstr "0x0"))]]));
        Wallet (eth_getTransactionReceipt (js "0xhash"))] /\
   (revokeApproval reverting info []).1
     = inl (Error (js "Failed to revoke approval: Revocation transaction failed"))) /\
  (revokeApproval stalled info []
     = ((revokeApproval stalled info []).1, (revokeApproval stalled info []).2) /\
   drop 2 (revokeApproval stalled info []).2
     = concat (replicate 30 [Wallet (eth_getTransactionReceipt (js "0xhash"));
                             Sleep 2000]) /\
   (revokeApproval stalled info []).1
     = inl (Error (js "Failed to revoke approval: Revocation transaction failed"))).
Proof.
  split.
  - assert (Hrun : revokeApproval reverting info []
              = ((revokeApproval reverting info []).1,
                 (revokeApproval reverting info []).2))
      by apply surjective_pairing.
    split; [exact Hrun|].
    destruct (revocation_budget_and_failure reverting info [] _ _ Hrun)
      as (Hshape & _).
    destruct (Hshape eq_refl [payer] payee eq_refl eq_refl) as (rest & Hevs & Hrest).
    cbn in Hrest. destruct Hrest as (k & Hidle & Hk).
    assert (k = 0%nat) as ->.
    { destruct k as [|k]; [done|]. exfalso.
      apply (Hidle 0%nat reverted); [lia|]. reflexivity. }
    destruct Hk as [(Hk & _) | (receipt & _ & -> & Hreq & Hr)]; [discriminate Hk|].
    injection Hreq as <-.
    split; [exact Hevs | exact Hr].
  - assert (Hrun : revokeApproval stalled info []
              = ((revokeApproval stalled info []).1,
                 (revokeApproval stalled info []).2))
      by apply surjective_pairing.
    split; [exact Hrun|].
    destruct (revocation_budget_and_failure stalled info [] _ _ Hrun)
      as (Hshape & _).
    destruct (Hshape eq_refl [payer] payee eq_refl eq_refl) as (rest & Hevs & Hrest).
    cbn in Hrest. destruct Hrest as (k & Hidle & Hk).
    destruct Hk as [(_ & -> & Hr) | (receipt & _ & _ & Hreq & _)];
      [|discriminate Hreq].
    rewrite Hevs. split; [reflexivity | exact Hr].
Defined.

(** The replay of [fetchWith402] may hand a 402 back to the caller. *)
Example replay_may_be_402 :
  fetchWith402 relayed (js "https://broker.example/run") (Some options) []
  = (inr (mkResponse 402 challenge),
     [Fetch (js "https://broker.example/run") (Some options);
      Fetch (js "https://relay.example/pay")
        (Some (pay_init (JSON_parse challenge)));
      Fetch (js "https://broker.example/run") (Some options)]).
Proof. by vm_compute. Qed.

End OnScenarios.

(** ** The fee calculator *)

Section FeeFacts.
Import Fee.
Local Open Scope float_scope.

Lemma SFmul_comm prec emax x y : SFmul prec emax x y = SFmul prec emax y x.
Proof.
  destruct x as [sx|sx| |sx mx ex], y as [sy|sy| |sy my ey]; simpl;
    rewrite ?(xorb_comm sx sy); try reflexivity.
  by rewrite (Pos.mul_comm mx my), (Z.add_comm ex ey).
Qed.

Lemma float_mul_comm (x y : float) : x * y = y * x.
Proof.
  apply Prim2SF_inj. rewrite !FloatAxioms.mul_spec. unfold SF64mul. apply SFmul_comm.
Qed.

Lemma compare_cases (a b : float) :
  match a ?= b with
  | FLt => (a <? b) = true
  | FEq | FGt | FNotComparable => (a <? b) = false
  end.
Proof.
  rewrite FloatAxioms.compare_spec, FloatAxioms.ltb_spec. unfold SFltb.
  by destruct (SFcompare (Prim2SF a) (Prim2SF b)) as [[]|].
Qed.

(** C8: [calculateRelayFee x] is [Math.max] of 3% of [x] and 0.002, in either
    order of the product, so it is 0.002 where 3% of [x] is below it, 3% of
    [x] where that is above, and never below 0.002; [calculateTotalAmount x]
    is [x] plus that fee; the fee of 0.01 is 0.002 and the fee of 1 is
    0.03. *)
Theorem relay_fee_is_max (x : float) :
  calculateRelayFee x = Math_max (lit_0_03 * x) lit_0_002 /\
  match lit_0_03 * x ?= lit_0_002 with
  | FLt => calculateRelayFee x = lit_0_002
  | FGt => calculateRelayFee x = lit_0_03 * x
  | FEq => calculateRelayFee x = lit_0_03 * x \/ calculateRelayFee x = lit_0_002
  | FNotComparable => calculateRelayFee x = nan
  end /\
  (calculateRelayFee x <? lit_0_002) = false /\
  calculateTotalAmount x = x + calculateRelayFee x /\
  calculateRelayFee lit_0_01 = lit_0_002 /\
  calculateRelayFee 1 = lit_0_03 /\
  calculateTotalAmount 1 = 1 + lit_0_03.
Proof.
  unfold calculateTotalAmount, calculateRelayFee. rewrite (float_mul_comm x).
  split; [done|]. unfold Math_max.
  pose proof (compare_cases (lit_0_03 * x) lit_0_002) as Hc.
  destruct (lit_0_03 * x ?= lit_0_002); split_and!; try done.
  - destruct (_ && _)%bool; auto.
  - destruct (_ && _)%bool; [done|exact Hc].
Qed.

End FeeFacts.

(** ** The payment token: encoding and decoding *)

Lemma base64_index_char i :
  0 <= i < 64 -> base64_index (base64_char i) = Some i /\ base64_char i <> 61.
Proof.
  intros Hi. unfold base64_char, base64_index.
  repeat case_if; split; try done; try (f_equal; lia); try lia.
Qed.

Lemma sextets_char i s :
  0 <= i < 64 -> sextets (base64_char i :: s) = i :: sextets s.
Proof.
  intros Hi. destruct (base64_index_char i Hi) as [Hx Hne].
  cbn [sextets]. rewrite Hx. by destruct (Z.eqb_spec (base64_char i) 61).
Qed.

(** Lists three elements at a time. *)
Lemma list_ind3 {A} (P : list A -> Prop) :
  P [] -> (forall a, P [a]) -> (forall a b, P [a; b]) ->
  (forall a b c r, P r -> P (a :: b :: c :: r)) ->
  forall l, P l.
Proof.
  intros H0 H1 H2 H3.
  assert (forall l, P l /\ (forall a, P (a :: l)) /\ (forall a b, P (a :: b :: l)))
    as H; [|intros l; apply H].
  induction l as [|x l (IH0 & IH1 & IH2)]; [done|].
  split; [apply IH1|]. split; [intros; apply IH2|]. intros. by apply H3.
Qed.

Lemma base64_round_trip bs :
  Forall is_byte bs -> base64_decode (base64_encode bs) = bs.
Proof.
  unfold base64_decode.
  induction bs as [|a|a b|a b c r IH] using list_ind3; intros Hb.
  - done.
  - apply Forall_cons_1 in Hb as [Ha _]. unfold is_byte in Ha.
    cbn [base64_encode]. rewrite !sextets_char by arith.
    change (sextets [61; 61]) with (@nil Z). cbn [bytes_of_sextets].
    f_equal. arith.
  - apply Forall_cons_1 in Hb as [Ha Hb]. apply Forall_cons_1 in Hb as [Hb _].
    unfold is_byte in Ha, Hb.
    cbn [base64_encode]. rewrite !sextets_char by arith.
    change (sextets [61]) with (@nil Z). cbn [bytes_of_sextets].
    f_equal; [arith|]. f_equal. arith.
  - apply Forall_cons_1 in Hb as [Ha Hb]. apply Forall_cons_1 in Hb as [Hb Hc].
    apply Forall_cons_1 in Hc as [Hc Hr]. unfold is_byte in Ha, Hb, Hc.
    cbn [base64_encode]. rewrite !sextets_char by arith.
    cbn [bytes_of_sextets]. rewrite IH by done.
    f_equal; [arith|]. f_equal; [arith|]. f_equal. arith.
Qed.

Lemma scalar_string_app s t :
  scalar_string s -> scalar_string t -> scalar_string (s ++ t).
Proof. induction 1; intros; simpl; [done | by constructor; auto..]. Qed.

Lemma decode_code_point c rest :
  0 <= c < 1114112 -> ~ (55296 <= c <= 57343) ->
  utf8_decode_from utf8_initial (utf8_code_point c ++ rest)
  = utf16_code_point c ++ utf8_decode_from utf8_initial rest.
Proof.
  intros Hc Hs. unfold utf8_code_point.
  repeat case_if; repeat (utf8_step; case_if); utf8_step.
  all: try (f_equal; f_equal; arith).
  unfold utf16_code_point. by case_if.
Qed.

Lemma utf8_code_point_bytes c :
  0 <= c < 1114112 -> Forall is_byte (utf8_code_point c).
Proof.
  intros Hc. unfold utf8_code_point, is_byte.
  repeat case_if; repeat (constructor; [arith|]); constructor.
Qed.

Lemma utf8_encode_bytes s : scalar_string s -> Forall is_byte (utf8_encode s).
Proof.
  induction 1 as [|u s Hu Hs _ IH|u v s Hu Hv _ IH]; [constructor|..].
  - unfold is_unit in Hu. unfold is_surrogate in Hs. bool_to_prop Hs.
    cbn [utf8_encode]. unfold is_high, is_low. repeat case_if.
    apply Forall_app. split; [|done]. apply utf8_code_point_bytes. lia.
  - cbn [utf8_encode]. rewrite Hu, Hv.
    unfold is_high in Hu. unfold is_low in Hv. bool_to_prop Hu. bool_to_prop Hv.
    apply Forall_app. split; [|done]. apply utf8_code_point_bytes. lia.
Qed.

Lemma utf8_round_trip s : scalar_string s -> utf8_decode (utf8_encode s) = s.
Proof.
  unfold utf8_decode.
  induction 1 as [|u s Hu Hs _ IH|u v s Hu Hv _ IH]; [done|..].
  - unfold is_unit in Hu. unfold is_surrogate in Hs. bool_to_prop Hs.
    cbn [utf8_encode]. unfold is_high, is_low. repeat case_if.
    rewrite decode_code_point, IH by lia. unfold utf16_code_point.
    by case_if.
  - cbn [utf8_encode]. rewrite Hu, Hv.
    unfold is_high in Hu. unfold is_low in Hv. bool_to_prop Hu. bool_to_prop Hv.
    rewrite decode_code_point, IH by lia. unfold utf16_code_point.
    case_if. cbn [app]. f_equal; [arith|]. f_equal. arith.
Qed.

(** *** Strings *)

Lemma ascii_scalar s : Forall (fun u => 0 <= u < 128) s -> scalar_string s.
Proof.
  induction 1 as [|u s Hu _ IH]; constructor; [unfold is_unit; lia| |done].
  unfold is_surrogate. apply andb_false_iff. left. apply Z.leb_gt. lia.
Qed.

Lemma hex_digit_ascii d : 0 <= d < 16 -> 0 <= hex_digit d < 128.
Proof. intros Hd. unfold hex_digit. case_if; lia. Qed.

Lemma hex_value_digit d : 0 <= d < 16 -> hex_value (hex_digit d) = Some d.
Proof.
  intros Hd. unfold hex_value, hex_digit, is_digit.
  repeat case_if; f_equal; lia.
Qed.

Lemma not_surrogate u : ~ (55296 <= u <= 57343) -> is_surrogate u = false.
Proof.
  intros Hu. unfold is_surrogate.
  destruct (55296 <=? u) eqn:E1, (u <=? 57343) eqn:E2; bool_to_prop E1;
    bool_to_prop E2; try done. lia.
Qed.

Lemma quote_unit_scalar u : is_unit u -> scalar_string (quote_unit u).
Proof.
  unfold is_unit. intros Hu. unfold quote_unit, is_surrogate.
  repeat case_if; try (apply ascii_scalar; repeat constructor; lia).
  - apply ascii_scalar. unfold hex4.
    repeat (constructor; [try lia; apply hex_digit_ascii; arith|]). constructor.
  - constructor; [done| |constructor]. apply not_surrogate. lia.
Qed.

(** Strings by their length, for functions that read two units at once. *)
Lemma length_ind {A} (P : list A -> Prop) :
  (forall l, (forall l', (length l' < length l)%nat -> P l') -> P l) ->
  forall l, P l.
Proof.
  intros H l. remember (length l) as n eqn:Hn. revert l Hn.
  induction n as [n IH] using lt_wf_ind. intros l ->.
  apply H. intros l' Hl. by eapply IH.
Qed.

Lemma quote_units_scalar s : wf_string s -> scalar_string (quote_units s).
Proof.
  induction s as [s IH] using length_ind. intros Hs.
  destruct s as [|u r]; [constructor|].
  apply Forall_cons_1 in Hs as [Hu Hr]. cbn [quote_units].
  destruct (is_high u) eqn:Hh.
  - destruct r as [|v r']; [by apply quote_unit_scalar|].
    destruct (is_low v) eqn:Hl.
    + apply Forall_cons_1 in Hr as [Hv Hr']. apply scalar_pair; [done..|].
      apply IH; [simpl; lia | done].
    + apply scalar_string_app; [by apply quote_unit_scalar|].
      apply IH; [simpl; lia | done].
  - apply scalar_string_app; [by apply quote_unit_scalar|].
    apply IH; [simpl; lia | done].
Qed.

Lemma JSON_quote_scalar s : wf_string s -> scalar_string (JSON_quote s).
Proof.
  intros Hs. unfold JSON_quote.
  apply (scalar_string_app [34]); [apply ascii_scalar; repeat constructor; lia|].
  apply scalar_string_app; [by apply quote_units_scalar|].
  apply ascii_scalar. repeat constructor; lia.
Qed.

Lemma parse_string_quote_unit u t :
  is_unit u ->
  parse_string (quote_unit u ++ t)
  = match parse_string t with
    | Some (s, rest) => Some (u :: s, rest)
    | None => None
    end.
Proof.
  unfold is_unit. intros Hu. unfold quote_unit, is_surrogate.
  repeat case_if; subst; cbn [app parse_string]; repeat case_if;
    try (unfold unescape; repeat case_if); try done.
  unfold hex4. cbn [app]. rewrite !hex_value_digit by arith.
  destruct (parse_string t) as [[s rest]|]; [|done].
  do 3 f_equal. arith.
Qed.

Lemma parse_string_quote s rest :
  wf_string s -> parse_string (quote_units s ++ 34 :: rest) = Some (s, rest).
Proof.
  induction s as [s IH] using length_ind. intros Hs.
  destruct s as [|u r]; [done|].
  apply Forall_cons_1 in Hs as [Hu Hr]. cbn [quote_units].
  assert (parse_string (quote_unit u ++ quote_units r ++ 34 :: rest)
          = Some (u :: r, rest)) as Hone.
  { rewrite parse_string_quote_unit, IH by (done || (simpl; lia)). done. }
  destruct (is_high u) eqn:Hh; [|by rewrite <- app_assoc].
  destruct r as [|v r']; [exact Hone|].
  destruct (is_low v) eqn:Hl; [|by rewrite <- app_assoc].
  apply Forall_cons_1 in Hr as [Hv Hr'].
  unfold is_high in Hh. unfold is_low in Hl. bool_to_prop Hh. bool_to_prop Hl.
  cbn [app parse_string]. repeat case_if.
  rewrite IH by (done || (simpl; lia)). done.
Qed.

(** *** Numbers *)

Lemma value_end_not_digit rest : value_end rest -> not_digit_start rest.
Proof.
  destruct rest as [|c r]; [done|]. simpl. unfold is_digit.
  intros [-> | [-> | ->]]; reflexivity.
Qed.

Lemma digits_value_snoc ds d :
  digits_value (ds ++ [d]) = digits_value ds * 10 + d.
Proof. unfold digits_value. by rewrite fold_left_app. Qed.

Lemma decimal_fuel_spec f n acc :
  (0 < f)%nat -> 0 <= n < 2 ^ Z.of_nat f ->
  exists d ds,
    decimal_fuel f n acc = digit_units (d :: ds) ++ acc /\
    Forall is_digit_value (d :: ds) /\
    (d = 0 -> n = 0 /\ ds = []) /\
    digits_value (d :: ds) = n.
Proof.
  revert n acc. induction f as [|f IH]; intros n acc Hf Hn; [lia|].
  rewrite Nat2Z.inj_succ, Z.pow_succ_r in Hn by lia.
  cbn [decimal_fuel]. case_if.
  - exists n, []. split; [cbn [digit_units map app]; f_equal; arith|].
    split; [|split; [done|]].
    + repeat constructor; lia.
    + unfold digits_value. simpl. lia.
  - destruct (IH (n / 10) ((48 + n mod 10) :: acc)) as (d & ds & -> & Hd & Hz & Hv).
    + destruct f; [|lia]. simpl in Hn. lia.
    + arith.
    + exists d, (ds ++ [n mod 10]). split_and!.
      * unfold digit_units. rewrite !map_cons, map_app. simpl.
        by rewrite <- app_assoc.
      * rewrite app_comm_cons. apply Forall_app. split; [done|].
        repeat constructor; unfold is_digit_value; arith.
      * intros Hd0. apply Hz in Hd0 as [Hd0 _]. arith.
      * rewrite app_comm_cons, digits_value_snoc, Hv. arith.
Qed.

Lemma decimal_spec n :
  0 <= n ->
  exists d ds,
    decimal n = digit_units (d :: ds) /\
    Forall is_digit_value (d :: ds) /\
    (d = 0 -> n = 0 /\ ds = []) /\
    digits_value (d :: ds) = n.
Proof.
  intros Hn. unfold decimal.
  destruct (decimal_fuel_spec (S (Z.to_nat (Z.log2 n))) n [])
    as (d & ds & H & Hrest); [lia| |].
  - rewrite Nat2Z.inj_succ, Z2Nat.id by apply Z.log2_nonneg.
    destruct (Z.eq_dec n 0) as [->|Hnz]; [done|].
    pose proof (Z.log2_spec n). lia.
  - exists d, ds. by rewrite app_nil_r in H.
Qed.

Lemma span_digits_units ds rest :
  Forall is_digit_value ds -> not_digit_start rest ->
  span_digits (digit_units ds ++ rest) = (ds, rest).
Proof.
  intros Hds Hrest. induction Hds as [|d ds Hd _ IH].
  - destruct rest as [|c r]; [done|]. simpl in *. by rewrite Hrest.
  - unfold is_digit_value in Hd. cbn [digit_units map app span_digits].
    unfold is_digit. case_if. fold (digit_units ds). rewrite IH.
    f_equal. f_equal. lia.
Qed.

Lemma digit_units_scalar ds :
  Forall is_digit_value ds -> scalar_string (digit_units ds).
Proof.
  intros H. apply ascii_scalar, Forall_map.
  eapply Forall_impl; [exact H|]. unfold is_digit_value. simpl. lia.
Qed.

Lemma Number_toString_scalar n : scalar_string (Number_toString n).
Proof.
  unfold Number_toString. case_if.
  - destruct (decimal_spec (- n)) as (d & ds & -> & Hd & _); [lia|].
    apply (scalar_string_app [45]); [apply ascii_scalar; repeat constructor; lia|].
    by apply digit_units_scalar.
  - destruct (decimal_spec n) as (d & ds & -> & Hd & _); [lia|].
    by apply digit_units_scalar.
Qed.

(** The sign and digits of a printed integer, as the number parser reads
    them. *)
Lemma Number_toString_spec n :
  exists d ds,
    Number_toString n = (if n <? 0 then [45] else []) ++ digit_units (d :: ds) /\
    Forall is_digit_value (d :: ds) /\
    (d = 0 -> ds = []) /\
    (if n <? 0 then - digits_value (d :: ds) else digits_value (d :: ds)) = n.
Proof.
  unfold Number_toString. destruct (n <? 0) eqn:E; bool_to_prop E.
  - destruct (decimal_spec (- n)) as (d & ds & -> & Hd & Hz & Hv); [lia|].
    exists d, ds. split_and!; [done|done| |lia]. intros H. by apply Hz in H as [_ ?].
  - destruct (decimal_spec n) as (d & ds & -> & Hd & Hz & Hv); [lia|].
    exists d, ds. split_and!; [done|done| |lia]. intros H. by apply Hz in H as [_ ?].
Qed.

Lemma parse_number_stringify m e rest :
  value_end rest ->
  parse_number (stringify_num m e ++ rest) = Some (JNum m e, rest).
Proof.
  intros Hrest. unfold stringify_num.
  destruct (Number_toString_spec m) as (d & ds & -> & Hd & Hz & Hv).
  set (tail := (if e =? 0 then [] else 101 :: Number_toString e) ++ rest).
  assert (not_digit_start tail /\
          parse_fraction tail = Some ([], tail) /\
          parse_exponent tail = Some (e, rest)) as (Ht1 & Ht2 & Ht3).
  { unfold tail. destruct (e =? 0) eqn:E; bool_to_prop E.
    - subst e. cbn [app]. split; [by apply value_end_not_digit|].
      destruct rest as [|c r]; [done|]. simpl in Hrest.
      unfold parse_fraction, parse_exponent.
      split; repeat case_if; try done; lia.
    - cbn [app]. split; [done|]. split; [done|].
      destruct (Number_toString_spec e) as (d' & ds' & -> & Hd' & _ & Hv').
      unfold parse_exponent. case_if.
      destruct (e <? 0) eqn:E1; bool_to_prop E1; cbn [app].
      + case_if. rewrite span_digits_units; [|done|by apply value_end_not_digit].
        by rewrite Hv'.
      + apply Forall_cons_1 in Hd' as [Hd1 Hd2]. unfold is_digit_value in Hd1.
        cbn [digit_units map app]. repeat case_if.
        change (48 + d' :: map (fun d => 48 + d) ds' ++ rest)
          with (digit_units (d' :: ds') ++ rest).
        rewrite span_digits_units;
          [|by constructor|by apply value_end_not_digit].
        by rewrite Hv'. }
  rewrite <- !app_assoc. fold tail. unfold parse_number.
  assert (span_digits (digit_units (d :: ds) ++ tail) = (d :: ds, tail)) as Hsp
    by (by apply span_digits_units).
  assert ((d =? 0) && negb (bool_decide (ds = [])) = false) as Hlead.
  { destruct (d =? 0) eqn:E; bool_to_prop E; [|done].
    rewrite Hz by done. reflexivity. }
  destruct (m <? 0) eqn:E; bool_to_prop E; cbn [app].
  - case_if. rewrite Hsp, Hlead, Ht2, Ht3, app_nil_r. simpl length.
    do 2 f_equal. f_equal; lia.
  - apply Forall_cons_1 in Hd as [Hd1 Hd2]. unfold is_digit_value in Hd1.
    assert (digit_units (d :: ds) ++ tail = (48 + d) :: (digit_units ds ++ tail))
      as Hcons by done.
    rewrite Hcons. case_if. rewrite <- Hcons, Hsp, Hlead, Ht2, Ht3, app_nil_r.
    simpl length. do 2 f_equal. f_equal; lia.
Qed.

(** *** Values *)

(** Induction on JSON values that reaches inside arrays and objects. *)
Lemma json_ind_nested (P : json -> Prop) :
  P JNull ->
  (forall b, P (JBool b)) ->
  (forall m e, P (JNum m e)) ->
  (forall s, P (JStr s)) ->
  (forall l, Forall P l -> P (JArr l)) ->
  (forall l, Forall (fun kv => P kv.2) l -> P (JObj l)) ->
  forall v, P v.
Proof.
  intros Hnull Hbool Hnum Hstr Harr Hobj.
  fix IH 1. intros [|b|m e|s|l|l].
  - exact Hnull.
  - apply Hbool.
  - apply Hnum.
  - apply Hstr.
  - apply Harr. induction l as [|x l IHl]; constructor; [apply IH | exact IHl].
  - apply Hobj. induction l as [|[k x] l IHl]; constructor; [apply IH | exact IHl].
Qed.

Lemma stringify_obj l :
  JSON_stringify (JObj l) = 123 :: join 44 (map stringify_member l) ++ [125].
Proof.
  change (JSON_stringify (JObj l))
    with (123 :: join 44 (map (fun '(k, x) => JSON_quote k ++ 58 :: JSON_stringify x) l)
            ++ [125]).
  do 3 f_equal. apply map_ext. by intros [k x].
Qed.

Lemma stringify_arr l :
  JSON_stringify (JArr l) = 91 :: join 44 (map JSON_stringify l) ++ [93].
Proof. reflexivity. Qed.

Lemma stringify_str s : JSON_stringify (JStr s) = 34 :: quote_units s ++ [34].
Proof. reflexivity. Qed.

Lemma stringify_number m e : JSON_stringify (JNum m e) = stringify_num m e.
Proof. reflexivity. Qed.

Lemma join_cons sep p q r :
  join sep (p :: q :: r) = p ++ sep :: join sep (q :: r).
Proof. reflexivity. Qed.

Lemma join_scalar sep parts :
  0 <= sep < 128 -> Forall scalar_string parts -> scalar_string (join sep parts).
Proof.
  intros Hsep. induction 1 as [|p parts Hp Hparts IH]; [constructor|].
  destruct parts as [|q r]; [done|]. rewrite join_cons.
  apply scalar_string_app; [done|]. apply (scalar_string_app [sep]); [|done].
  apply ascii_scalar. constructor; [done|constructor].
Qed.

Lemma literal_scalar (s : string) :
  forallb (fun u => (0 <=? u) && (u <? 128)) (js s) = true -> scalar_string (js s).
Proof.
  intros H. apply ascii_scalar, Forall_forall. intros u Hu.
  rewrite forallb_forall in H. apply list_elem_of_In, H in Hu. bool_to_prop Hu. lia.
Qed.

(** The text of a value with well-formed strings has no lone surrogate. *)
Lemma JSON_stringify_scalar v : wf_json v -> scalar_string (JSON_stringify v).
Proof.
  induction v as [|b|m e|s|l IH|l IH] using json_ind_nested; intros Hv.
  - by apply literal_scalar.
  - destruct b; by apply literal_scalar.
  - rewrite stringify_number. unfold stringify_num.
    apply scalar_string_app; [apply Number_toString_scalar|].
    case_if; [constructor|].
    apply (scalar_string_app [101]); [|apply Number_toString_scalar].
    apply ascii_scalar. repeat constructor; lia.
  - inversion Hv; subst. by apply JSON_quote_scalar.
  - inversion Hv as [| | | |l' Hl|]; subst. rewrite stringify_arr.
    apply (scalar_string_app [91]); [apply ascii_scalar; repeat constructor; lia|].
    apply scalar_string_app; [|apply ascii_scalar; repeat constructor; lia].
    apply join_scalar; [lia|]. apply Forall_map.
    rewrite Forall_forall in IH, Hl. apply Forall_forall. intros x Hx. simpl. auto.
  - inversion Hv as [| | | | |l' Hl]; subst. rewrite stringify_obj.
    apply (scalar_string_app [123]); [apply ascii_scalar; repeat constructor; lia|].
    apply scalar_string_app; [|apply ascii_scalar; repeat constructor; lia].
    apply join_scalar; [lia|]. apply Forall_map.
    rewrite Forall_forall in IH, Hl. apply Forall_forall. intros [k x] Hx.
    unfold stringify_member. cbn [fst snd].
    destruct (Hl _ Hx) as [Hk Hwf].
    apply scalar_string_app; [by apply JSON_quote_scalar|].
    apply (scalar_string_app [58]); [apply ascii_scalar; repeat constructor; lia|].
    by apply (IH _ Hx).
Qed.

Lemma stringify_num_head m e rest :
  exists c r, stringify_num m e ++ rest = c :: r /\ (c = 45 \/ 48 <= c <= 57).
Proof.
  unfold stringify_num.
  destruct (Number_toString_spec m) as (d & ds & -> & Hd & _).
  apply Forall_cons_1 in Hd as [Hd _]. unfold is_digit_value in Hd.
  destruct (m <? 0); cbn [app digit_units map]; eexists _, _; split; try done; lia.
Qed.

Lemma JSON_stringify_starts v rest : starts_value (JSON_stringify v ++ rest).
Proof.
  unfold starts_value. destruct v as [|[]|m e|s|l|l].
  1-3, 5-7: eexists _, _; split; [reflexivity|]; by vm_compute.
  rewrite stringify_number.
  destruct (stringify_num_head m e rest) as (c & r & -> & Hc).
  exists c, r. split; [done|]. unfold is_ws.
  split; [|lia]. repeat case_if; try done; lia.
Qed.

Lemma skip_ws_starts s : starts_value s -> skip_ws s = s.
Proof. intros (c & r & -> & Hc & _). cbn [skip_ws]. by rewrite Hc. Qed.

Lemma join_starts (f : json -> jsstring) l t :
  (forall v rest, starts_value (f v ++ rest)) ->
  l <> [] -> starts_value (join 44 (map f l) ++ t).
Proof.
  intros Hf Hl. destruct l as [|x [|y l]]; [done|..]; cbn [map].
  - apply Hf.
  - rewrite join_cons, <- app_assoc. apply Hf.
Qed.

Lemma stringify_member_starts kv rest : starts_value (stringify_member kv ++ rest).
Proof. eexists _, _. split; [reflexivity|]. by vm_compute. Qed.

Lemma join_members_starts l t :
  l <> [] -> starts_value (join 44 (map stringify_member l) ++ t).
Proof.
  intros Hl. destruct l as [|x [|y l]]; [done|..]; cbn [map].
  - apply stringify_member_starts.
  - rewrite join_cons, <- app_assoc. apply stringify_member_starts.
Qed.

Lemma parse_elements_join l :
  l <> [] -> Forall parses l ->
  forall fuel acc rest,
    (length (join 44 (map JSON_stringify l)) + 1 < fuel)%nat ->
    parse_elements fuel (join 44 (map JSON_stringify l) ++ 93 :: rest) acc
    = Some (JArr (rev acc ++ l), rest).
Proof.
  induction l as [|x l IH]; [done|]. intros _ Hall fuel acc rest Hf.
  apply Forall_cons_1 in Hall as [Hx Hall].
  destruct fuel as [|f]; [lia|]. cbn [parse_elements].
  destruct l as [|y l'].
  - cbn [map join] in *. rewrite Hx by (lia || (simpl; auto)).
    cbn [skip_ws]. change (is_ws 93) with false. cbv iota. repeat case_if.
    done.
  - cbn [map] in *. rewrite join_cons in *. rewrite length_app in Hf.
    cbn [length] in Hf. rewrite <- app_assoc. cbn [app].
    rewrite Hx by (lia || (simpl; auto)).
    cbn [skip_ws]. change (is_ws 44) with false. cbv iota. repeat case_if.
    rewrite IH by (done || lia). cbn [rev]. by rewrite <- app_assoc.
Qed.

Lemma parse_members_join l :
  l <> [] -> Forall (fun kv => wf_string kv.1 /\ parses kv.2) l ->
  forall fuel acc rest,
    (length (join 44 (map stringify_member l)) + 1 < fuel)%nat ->
    parse_members fuel (join 44 (map stringify_member l) ++ 125 :: rest) acc
    = Some (JObj (rev acc ++ l), rest).
Proof.
  induction l as [|[k x] l IH]; [done|]. intros _ Hall fuel acc rest Hf.
  apply Forall_cons_1 in Hall as [[Hk Hx] Hall]. cbn [fst snd] in Hk, Hx.
  destruct fuel as [|f]; [lia|]. cbn [parse_members].
  assert (forall t, stringify_member (k, x) ++ t
                    = 34 :: quote_units k ++ 34 :: 58 :: JSON_stringify x ++ t)
    as Hmember.
  { intros t. unfold stringify_member, JSON_quote. cbn [fst snd app].
    by rewrite <- !app_assoc. }
  assert (length (JSON_stringify x) < length (stringify_member (k, x)))%nat
    as Hlen.
  { unfold stringify_member, JSON_quote. cbn [fst snd].
    rewrite length_app. simpl. lia. }
  destruct l as [|y l'].
  - cbn [map join] in *. rewrite Hmember.
    cbn [skip_ws]. change (is_ws 34) with false. cbv iota. repeat case_if.
    rewrite parse_string_quote by done.
    cbn [skip_ws]. change (is_ws 58) with false. cbv iota. repeat case_if.
    rewrite Hx by (lia || (simpl; auto)).
    cbn [skip_ws]. change (is_ws 125) with false. cbv iota. repeat case_if.
    done.
  - cbn [map] in *. rewrite join_cons in *. rewrite length_app in Hf.
    cbn [length] in Hf. rewrite <- app_assoc. rewrite Hmember.
    cbn [skip_ws]. change (is_ws 34) with false. cbv iota. repeat case_if.
    rewrite parse_string_quote by done.
    cbn [skip_ws]. change (is_ws 58) with false. cbv iota. repeat case_if.
    cbn [app]. rewrite Hx by (lia || (simpl; auto)).
    cbn [skip_ws]. change (is_ws 44) with false. cbv iota. repeat case_if.
    rewrite IH by (done || lia). cbn [rev]. by rewrite <- app_assoc.
Qed.

Lemma parse_stringify v : wf_json v -> parses v.
Proof.
  induction v as [|b|m e|s|l IH|l IH] using json_ind_nested;
    intros Hv fuel rest Hf Hrest; (destruct fuel as [|f]; [lia|]).
  - reflexivity.
  - destruct b; reflexivity.
  - rewrite stringify_number in *.
    destruct (stringify_num_head m e rest) as (c & r & Heq & Hc).
    rewrite Heq. cbn [parse_value skip_ws]. unfold is_ws.
    change (js "true") with [116; 114; 117; 101].
    change (js "false") with [102; 97; 108; 115; 101].
    change (js "null") with [110; 117; 108; 108].
    cbn [startsWith]. repeat case_if.
    rewrite <- Heq. by apply parse_number_stringify.
  - inversion Hv; subst. rewrite stringify_str. cbn [app parse_value skip_ws].
    change (is_ws 34) with false. cbv iota. repeat case_if.
    rewrite <- app_assoc. cbn [app]. by rewrite parse_string_quote.
  - inversion Hv as [| | | |l' Hl|]; subst. destruct l as [|x l]; [reflexivity|].
    rewrite stringify_arr in *. cbn [app parse_value skip_ws].
    change (is_ws 91) with false. cbv iota. repeat case_if.
    rewrite <- app_assoc. cbn [app].
    rewrite skip_ws_starts by (apply join_starts; [apply JSON_stringify_starts|done]).
    destruct (join_starts JSON_stringify (x :: l) (93 :: rest)
                JSON_stringify_starts) as (c & r & Heq & _ & Hc & _); [done|].
    remember (join 44 (map JSON_stringify (x :: l)) ++ 93 :: rest) as R eqn:HR.
    destruct R as [|c0 r0]; [discriminate Heq|]. injection Heq as -> ->.
    case_if. rewrite HR. rewrite parse_elements_join; [done|done| |].
    + apply Forall_forall. intros y Hy. rewrite Forall_forall in IH, Hl. auto.
    + cbn [length] in Hf. rewrite length_app in Hf. cbn [length] in Hf. lia.
  - inversion Hv as [| | | | |l' Hl]; subst. destruct l as [|x l]; [reflexivity|].
    rewrite stringify_obj in *. cbn [app parse_value skip_ws].
    change (is_ws 123) with false. cbv iota. repeat case_if.
    rewrite <- app_assoc. cbn [app].
    rewrite skip_ws_starts by (by apply join_members_starts).
    destruct (join_members_starts (x :: l) (125 :: rest))
      as (c & r & Heq & _ & _ & Hc); [done|].
    remember (join 44 (map stringify_member (x :: l)) ++ 125 :: rest) as R eqn:HR.
    destruct R as [|c0 r0]; [discriminate Heq|]. injection Heq as -> ->.
    case_if. rewrite HR. rewrite parse_members_join; [done|done| |].
    + apply Forall_forall. intros y Hy. rewrite Forall_forall in IH, Hl.
      split; [by apply Hl|]. apply IH; [done|]. by apply Hl.
    + cbn [length] in Hf. rewrite length_app in Hf. cbn [length] in Hf. lia.
Qed.

Lemma JSON_parse_stringify v : wf_json v -> JSON_parse (JSON_stringify v) = Some v.
Proof.
  intros Hv. unfold JSON_parse.
  pose proof (parse_stringify v Hv (2 * length (JSON_stringify v) + 2)%nat []) as H.
  rewrite app_nil_r in H. rewrite H; [done|lia|done].
Qed.

(** The base64 text of a value decodes to the text of that value. *)
Lemma base64_text_round_trip v :
  wf_json v -> from_base64 (to_base64 (JSON_stringify v)) = JSON_stringify v.
Proof.
  intros Hv. unfold from_base64, to_base64.
  pose proof (JSON_stringify_scalar v Hv) as Hs.
  rewrite base64_round_trip by (by apply utf8_encode_bytes).
  by apply utf8_round_trip.
Qed.

(** *** The token *)

Lemma paymentData_token signature o addr validAfter validBefore nonce :
  paymentData signature o addr validAfter validBefore nonce
  = payment_token (js "exact") (js "avalanche") signature addr (payTo o)
      (String_of (maxAmountRequired o)) (Number_toString validAfter)
      (Number_toString validBefore) nonce.
Proof. reflexivity. Qed.

Lemma wf_string_check s :
  forallb (fun u => (0 <=? u) && (u <? 65536)) s = true -> wf_string s.
Proof.
  intros H. apply Forall_forall. intros u Hu. rewrite forallb_forall in H.
  apply list_elem_of_In, H in Hu. bool_to_prop Hu. unfold is_unit. lia.
Qed.

Lemma scalar_wf s : scalar_string s -> wf_string s.
Proof.
  induction 1 as [|u s Hu _ _ IH|u v s Hu Hv _ IH]; [constructor|by constructor|].
  unfold is_high in Hu. unfold is_low in Hv. bool_to_prop Hu. bool_to_prop Hv.
  repeat constructor; try done; unfold is_unit; lia.
Qed.

Lemma Number_toString_wf n : wf_string (Number_toString n).
Proof. apply scalar_wf, Number_toString_scalar. Qed.

Lemma payment_token_wf scheme network signature from to value validAfter validBefore nonce :
  wf_string scheme -> wf_string network -> wf_string signature ->
  wf_string from -> wf_option to -> wf_string value ->
  wf_string validAfter -> wf_string validBefore -> wf_string nonce ->
  wf_json (payment_token scheme network signature from to value
             validAfter validBefore nonce).
Proof.
  intros. unfold payment_token.
  destruct to as [t|]; cbn [obj omap json_opt fmap option_fmap option_map fst snd];
    repeat first
      [ assumption
      | apply wf_string_check; reflexivity
      | constructor ].
Qed.

(** C6: for every scheme, network, signature and authorization, decoding the
    base64 token of the payment (as [createX402Payment] does: base64 to text,
    [JSON.parse], then the reads of [network], [payload.authorization.to]
    and [payload.authorization.from]) gives back the whole payment object,
    and so the network, the payee and the payer that were encoded; this holds
    in particular for the payment that [signWithMetaMask] encodes. *)
Theorem payment_token_round_trip (W : World) scheme network signature from to
    value validAfter validBefore nonce (o : PaymentOption) :
  wf_string scheme -> wf_string network -> wf_string signature ->
  wf_string from -> wf_option to -> wf_string value ->
  wf_string validAfter -> wf_string validBefore -> wf_string nonce ->
  let data := payment_token scheme network signature from to value
                validAfter validBefore nonce in
  JSON_parse (from_base64 (encode_payment data)) = Some data /\
  decode_payment_info W (encode_payment data) o
  = inr {| info_network := Some network; spender := to;
           info_asset := asset o; userAddress := Some from |} /\
  forall sig addr va vb,
    wf_string sig -> wf_string addr -> wf_option (payTo o) ->
    wf_option (maxAmountRequired o) ->
    decode_payment_info W
      (encode_payment (paymentData sig o addr va vb nonce)) o
    = inr {| info_network := Some (js "avalanche"); spender := payTo o;
             info_asset := asset o; userAddress := Some addr |}.
Proof.
  intros Hscheme Hnetwork Hsig Hfrom Hto Hvalue Hva Hvb Hnonce data.
  assert (forall scheme network signature from to value validAfter validBefore,
            wf_string scheme -> wf_string network -> wf_string signature ->
            wf_string from -> wf_option to -> wf_string value ->
            wf_string validAfter -> wf_string validBefore ->
            let data := payment_token scheme network signature from to value
                          validAfter validBefore nonce in
            JSON_parse (from_base64 (encode_payment data)) = Some data /\
            decode_payment_info W (encode_payment data) o
            = inr {| info_network := Some network; spender := to;
                     info_asset := asset o; userAddress := Some from |}) as Hgen.
  { clear -Hnonce. intros scheme network signature from to value va vb
      Hscheme Hnetwork Hsig Hfrom Hto Hvalue Hva Hvb token.
    assert (JSON_parse (from_base64 (encode_payment token)) = Some token) as Hparse.
    { unfold encode_payment.
      rewrite base64_text_round_trip by (by apply payment_token_wf).
      apply JSON_parse_stringify. by apply payment_token_wf. }
    split; [done|].
    unfold decode_payment_info, JSON_parse_or_throw. rewrite Hparse.
    unfold token, payment_token. by destruct to. }
  split; [by apply Hgen|]. split; [by apply Hgen|].
  intros sig addr va vb Hs Ha Hp Hm. rewrite paymentData_token.
  apply Hgen; try done; try apply Number_toString_wf;
    try (apply wf_string_check; reflexivity).
  destruct (maxAmountRequired o); [done|]. apply wf_string_check. reflexivity.
Qed.

Section TokenOnScenario.
Import Scenario.

Lemma payment_token_round_trip_witness :
  let nonce := nonce_of_bytes (map (fun i => (Z.of_nat i * 37 + 5) mod 256) (seq 0 32)) in
  let data := payment_token (js "exact") (js "base") (js "0xsigned") payer
                (Some payee) (js "10000") (js "1700000000") (js "1700000900") nonce in
  wf_string (js "exact") /\ wf_string (js "base") /\ wf_string (js "0xsigned") /\
  wf_string payer /\ wf_option (Some payee) /\ wf_string (js "10000") /\
  wf_string (js "1700000000") /\ wf_string (js "1700000900") /\ wf_string nonce /\
  JSON_parse (from_base64 (encode_payment data)) = Some data /\
  decode_payment_info paid (encode_payment data) base_option
  = inr {| info_network := Some (js "base"); spender := Some payee;
           info_asset := Some usdc; userAddress := Some payer |}.
Proof.
  cbv zeta.
  assert (forall s, forallb (fun u => (0 <=? u) && (u <? 65536)) s = true -> wf_string s)
    as Hwf by apply wf_string_check.
  destruct (payment_token_round_trip paid (js "exact") (js "base") (js "0xsigned") payer
              (Some payee) (js "10000") (js "1700000000") (js "1700000900")
              (nonce_of_bytes (map (fun i => (Z.of_nat i * 37 + 5) mod 256) (seq 0 32)))
              base_option) as (Hparse & Hdecode & _);
    try (apply Hwf; vm_compute; reflexivity).
  split_and!; try (apply Hwf; vm_compute; reflexivity).
  - exact Hparse.
  - exact Hdecode.
Defined.

(** The round trip computed on the token of the scenario. *)
Example paid_token_decodes :
  match sign_run.1 with
  | inr token =>
      decode_payment_info paid token base_option
      = inr {| info_network := Some (js "avalanche"); spender := Some payee;
               info_asset := Some usdc; userAddress := Some payer |}
  | inl _ => False
  end.
Proof. by vm_compute. Qed.

End TokenOnScenario.

(** * More of the client *)

(** ** Signing *)

Lemma target_chain_hex : targetChainIdHex = js "0xa86a".
Proof. reflexivity. Qed.

Lemma count_zero_not_in p evs e :
  count p evs = 0%nat -> In e evs -> p e = false.
Proof.
  induction evs as [|x evs IH]; [done|].
  rewrite count_cons. intros Hc [->|Hin].
  - by destruct (p e).
  - apply IH; [|done]. destruct (p x); lia.
Qed.

Lemma paymentData_wf sig o addr va vb nonce :
  wf_string sig -> wf_string addr -> wf_option (payTo o) ->
  wf_option (maxAmountRequired o) -> wf_string nonce ->
  wf_json (paymentData sig o addr va vb nonce).
Proof.
  intros. rewrite paymentData_token.
  apply payment_token_wf; try done; try apply Number_toString_wf;
    try (apply wf_string_check; reflexivity).
  destruct (maxAmountRequired o); [done|]. apply wf_string_check. reflexivity.
Qed.

(** Decoding the header of a payment gives the payment back, and from it the
    payment information. *)
Lemma decode_paymentData (W : World) sig o addr va vb nonce :
  wf_string sig -> wf_string addr -> wf_option (payTo o) ->
  wf_option (maxAmountRequired o) -> wf_string nonce ->
  JSON_parse (from_base64 (encode_payment (paymentData sig o addr va vb nonce)))
  = Some (paymentData sig o addr va vb nonce) /\
  decode_payment_info W (encode_payment (paymentData sig o addr va vb nonce)) o
  = inr {| info_network := Some (js "avalanche"); spender := payTo o;
           info_asset := asset o; userAddress := Some addr |}.
Proof.
  intros Hs Ha Hp Hm Hn.
  pose proof (paymentData_wf sig o addr va vb nonce Hs Ha Hp Hm Hn) as Hwf.
  assert (JSON_parse (from_base64 (encode_payment (paymentData sig o addr va vb nonce)))
          = Some (paymentData sig o addr va vb nonce)) as Hparse.
  { unfold encode_payment. rewrite base64_text_round_trip by done.
    by apply JSON_parse_stringify. }
  split; [done|].
  unfold decode_payment_info, JSON_parse_or_throw. rewrite Hparse.
  unfold paymentData. by destruct (payTo o).
Qed.

Lemma nonce_of_bytes_wf bytes : Forall is_byte bytes -> wf_string (nonce_of_bytes bytes).
Proof.
  intros Hb. unfold nonce_of_bytes. apply Forall_app. split.
  { apply wf_string_check. reflexivity. }
  induction Hb as [|b bs Hb _ IH]; [constructor|].
  cbn [map concat]. apply Forall_app. split; [|exact IH].
  fold (hex2 b). rewrite hex2_spec by done. unfold is_byte in Hb.
  assert (0 <= b / 16 < 16) as H1 by arith.
  assert (0 <= b mod 16 < 16) as H2 by arith.
  apply hex_digit_ascii in H1, H2. unfold wf_string, is_unit.
  repeat constructor; lia.
Qed.

Section Signing.
Variable W : World.


(** A signing that returns a header. *)
Lemma signWithMetaMask_signed o addr h header evs :
  signWithMetaMask W o addr h = (inr header, evs) ->
  exists pre signature,
    ensureNetwork W h = (inr tt, pre) /\
    evs = pre ++ [GetRandomValues 32; DateNow;
                  Wallet (signing_request W (h ++ pre) o addr)] /\
    ethereum_request W (h ++ pre ++ [GetRandomValues 32; DateNow])
      (signing_request W (h ++ pre) o addr) = inr signature /\
    header = signed_payment W (h ++ pre) o addr signature.
Proof.
  intros Hrun. apply signWithMetaMask_inv in Hrun
    as [(_ & _ & [=]) | [(e & _ & [=]) | (pre & Hn & -> & Hr)]].
  destruct (ethereum_request W _ _) as [e|signature] eqn:Hreq; [discriminate|].
  injection Hr as ->. by exists pre, signature.
Qed.


(** X2: a signature is requested only once the wallet is on chain 0xa86a:
    the wallet reported that chain, or the switch to it resolved, or the
    switch was rejected with code 4902 and adding the chain resolved.  The
    random draw, the clock read and the signing request follow in that
    order and end the events. *)
Theorem signature_follows_network_check o addr h r evs a d :
  signWithMetaMask W o addr h = (r, evs) ->
  In (Wallet (eth_signTypedData_v4 a d)) evs ->
  exists pre,
    evs = pre ++ [GetRandomValues 32; DateNow; Wallet (eth_signTypedData_v4 a d)] /\
    ((pre = [Wallet eth_chainId] /\
      ethereum_request W h eth_chainId = inr (js "0xa86a")) \/
     (exists chain,
         ethereum_request W h eth_chainId = inr chain /\ chain <> js "0xa86a" /\
         ((pre = [Wallet eth_chainId; Wallet switch_request] /\
           ethereum_request W (h ++ [Wallet eth_chainId]) switch_request = inr tt) \/
          (pre = [Wallet eth_chainId; Wallet switch_request; Wallet add_request] /\
           exists e,
             ethereum_request W (h ++ [Wallet eth_chainId]) switch_request = inl e /\
             code_of e = Some 4902 /\
             ethereum_request W (h ++ [Wallet eth_chainId; Wallet switch_request])
               add_request = inr tt)))).
Proof.
  intros Hrun Hin.
  destruct (signature_request_inv W _ _ _ _ _ _ _ Hrun Hin) as (pre & Hn & -> & Hreq).
  exists pre. rewrite Hreq. split; [done|].
  apply ensureNetwork_inv in Hn. rewrite <- target_chain_hex.
  inversion Hn as [| Hc | chain Hc Hne Hs | | chain e r' Hc Hne Hs Hcode Ha]; subst.
  - by left.
  - right. exists chain. split_and!; try done. by left.
  - right. exists chain. split_and!; try done. right. split; [done|]. by exists e.
Qed.

(** X3: the header that [signWithMetaMask] returns decodes (base64, UTF-8,
    [JSON.parse]) to the payment whose authorization has the validity window
    and the nonce of the message that was signed, and whose signature is the
    answer of the wallet to that signing request. *)
Theorem token_carries_what_was_signed o addr h header evs :
  wf_string addr -> wf_option (payTo o) -> wf_option (maxAmountRequired o) ->
  signs_strings W ->
  signWithMetaMask W o addr h = (inr header, evs) ->
  exists pre signature validAfter nonce,
    evs = pre ++ [GetRandomValues 32; DateNow;
                  Wallet (eth_signTypedData_v4 addr
                            (JSON_stringify
                               (typedData o addr validAfter (validAfter + 900) nonce)))] /\
    ethereum_request W (h ++ pre ++ [GetRandomValues 32; DateNow])
      (eth_signTypedData_v4 addr
         (JSON_stringify (typedData o addr validAfter (validAfter + 900) nonce)))
      = inr signature /\
    JSON_parse (from_base64 header)
    = Some (paymentData signature o addr validAfter (validAfter + 900) nonce).
Proof.
  intros Ha Hp Hm Hwallet Hrun.
  apply signWithMetaMask_signed in Hrun as (pre & signature & _ & -> & Hreq & ->).
  exists pre, signature, (validAfter_at W (h ++ pre)),
    (nonce_of_bytes (nonceBytes_at W (h ++ pre))).
  split; [done|]. split; [exact Hreq|].
  unfold signed_payment.
  apply decode_paymentData; try done.
  - by eapply Hwallet.
  - apply nonce_of_bytes_wf, nonceBytes_at_bytes.
Qed.

(** X4: [createX402Payment] uses the first option only.  It passes a failure
    of [signWithMetaMask] on unchanged, and when the header is signed the
    decoding does not fail: the payment information has the network
    "avalanche" whatever the network of the option, the [payTo] of the option
    as spender, its [asset], and the wallet address as user address. *)
Theorem payment_info_of_first_option reqs o others addr h :
  accepts reqs = Some (o :: others) ->
  wf_string addr -> wf_option (payTo o) -> wf_option (maxAmountRequired o) ->
  signs_strings W ->
  createX402Payment W reqs addr h =
  match signWithMetaMask W o addr h with
  | (inr header, evs) =>
      (inr {| paymentHeader := header;
              paymentInfo := {| info_network := Some (js "avalanche");
                                spender := payTo o;
                                info_asset := asset o;
                                userAddress := Some addr |} |}, evs)
  | (inl e, evs) => (inl e, evs)
  end.
Proof.
  intros Hacc Ha Hp Hm Hwallet.
  destruct (createX402Payment W reqs addr h) as [r evs] eqn:Hrun.
  apply createX402Payment_inv in Hrun. rewrite Hacc in Hrun.
  destruct Hrun as (signed & Hsign & ->). rewrite Hsign.
  destruct signed as [e|header]; [done|]. unfold payment_result.
  apply signWithMetaMask_signed in Hsign as (pre & signature & _ & -> & Hreq & ->).
  unfold signed_payment.
  destruct (decode_paymentData W signature o addr (validAfter_at W (h ++ pre))
              (validAfter_at W (h ++ pre) + 900)
              (nonce_of_bytes (nonceBytes_at W (h ++ pre)))) as [_ ->]; try done.
  - by eapply Hwallet.
  - apply nonce_of_bytes_wf, nonceBytes_at_bytes.
Qed.

End Signing.

(** ** The base64 alphabet *)

Lemma base64_char_unit i : 0 <= i < 64 -> is_base64_unit (base64_char i) = true.
Proof.
  intros Hi.
  assert (forallb (fun n => is_base64_unit (base64_char (Z.of_nat n))) (seq 0 64) = true)
    as Hall by (vm_compute; reflexivity).
  rewrite forallb_forall in Hall. specialize (Hall (Z.to_nat i)).
  rewrite Z2Nat.id in Hall by lia. apply Hall, in_seq. lia.
Qed.

Lemma base64_encode_units bs :
  Forall is_byte bs -> forallb is_base64_unit (base64_encode bs) = true.
Proof.
  induction bs as [|a|a b|a b c r IH] using list_ind3; intros Hb.
  - done.
  - apply Forall_cons_1 in Hb as [Ha _]. unfold is_byte in Ha.
    cbn [base64_encode forallb]. rewrite !base64_char_unit by arith. done.
  - apply Forall_cons_1 in Hb as [Ha Hb]. apply Forall_cons_1 in Hb as [Hb _].
    unfold is_byte in Ha, Hb.
    cbn [base64_encode forallb]. rewrite !base64_char_unit by arith. done.
  - apply Forall_cons_1 in Hb as [Ha Hb]. apply Forall_cons_1 in Hb as [Hb Hc].
    apply Forall_cons_1 in Hc as [Hc Hr]. unfold is_byte in Ha, Hb, Hc.
    cbn [base64_encode forallb]. rewrite !base64_char_unit by arith.
    rewrite IH by done. done.
Qed.

Lemma binary_of_bytes bytes : Forall is_byte (binary_of bytes).
Proof.
  unfold binary_of. apply Forall_forall. intros u Hu.
  apply list_elem_of_fmap in Hu as (b & -> & _).
  pose proof (Byte.to_N_bounded b). unfold is_byte. lia.
Qed.

Lemma latin1_bytes s :
  wf_string s -> forallb (fun u => u <=? 255) s = true -> Forall is_byte s.
Proof.
  intros Hwf Hs. rewrite forallb_forall in Hs.
  apply Forall_forall. intros u Hu.
  unfold wf_string in Hwf. rewrite Forall_forall in Hwf. specialize (Hwf u Hu).
  apply list_elem_of_In, Hs in Hu. unfold is_unit in Hwf. unfold is_byte. lia.
Qed.

Lemma base64_units_wf s : forallb is_base64_unit s = true -> wf_string s.
Proof.
  intros Hs. rewrite forallb_forall in Hs. apply Forall_forall. intros u Hu.
  apply list_elem_of_In, Hs in Hu. unfold is_base64_unit in Hu. bool_to_prop Hu.
  unfold is_unit. lia.
Qed.

Lemma btoa_bytes s : Forall is_byte s -> btoa s = inr (base64_encode s).
Proof.
  intros Hs. unfold btoa.
  assert (forallb (fun u => u <=? 255) s = true) as ->; [|done].
  apply forallb_forall. intros u Hu. rewrite Forall_forall in Hs.
  apply list_elem_of_In, Hs in Hu. unfold is_byte in Hu. lia.
Qed.

Lemma encode_payment_wf v : wf_json v -> wf_string (encode_payment v).
Proof.
  intros Hv. unfold encode_payment, to_base64.
  apply base64_units_wf, base64_encode_units, utf8_encode_bytes.
  by apply JSON_stringify_scalar.
Qed.

(** ** The payment header of the retry *)

Section PaymentText.
Variable W : World.

(** X5: what the executor puts into [X-Payment], the text
    [JSON.stringify(paymentResult)], is JSON that parses back: its
    [paymentHeader] member is the base64 header, its [paymentInfo] member has
    the network "avalanche", the spender, the asset and the user address, and
    the header decodes to the payment that was signed. *)
Theorem payment_result_text_round_trip reqs o others addr h paymentResult evs :
  accepts reqs = Some (o :: others) ->
  wf_string addr -> wf_option (payTo o) -> wf_option (asset o) ->
  wf_option (maxAmountRequired o) ->
  signs_strings W ->
  createX402Payment W reqs addr h = (inr paymentResult, evs) ->
  exists parsed signature validAfter nonce,
    JSON_parse (stringify_result paymentResult) = Some parsed /\
    json_get "paymentHeader" parsed = Some (JStr (paymentHeader paymentResult)) /\
    json_get "paymentInfo" parsed
    = Some (obj [("network", Some (jstr "avalanche"));
                 ("spender", json_opt (payTo o));
                 ("asset", json_opt (asset o));
                 ("userAddress", Some (JStr addr))]) /\
    JSON_parse (from_base64 (paymentHeader paymentResult))
    = Some (paymentData signature o addr validAfter (validAfter + 900) nonce).
Proof.
  intros Hacc Ha Hp Hasset Hm Hwallet Hrun.
  apply createX402Payment_inv in Hrun. rewrite Hacc in Hrun.
  destruct Hrun as (signed & Hsign & Hr).
  destruct signed as [e|header]; [done|]. unfold payment_result in Hr.
  apply signWithMetaMask_signed in Hsign as (pre & signature & _ & -> & Hreq & ->).
  assert (wf_string signature) as Hsig by (by eapply Hwallet).
  assert (wf_string (nonce_of_bytes (nonceBytes_at W (h ++ pre)))) as Hnonce
    by apply nonce_of_bytes_wf, nonceBytes_at_bytes.
  unfold signed_payment in *.
  destruct (decode_paymentData W signature o addr (validAfter_at W (h ++ pre))
              (validAfter_at W (h ++ pre) + 900)
              (nonce_of_bytes (nonceBytes_at W (h ++ pre)))) as [Hparse Hdecode];
    try done.
  rewrite Hdecode in Hr. injection Hr as ->.
  eexists _, signature, (validAfter_at W (h ++ pre)), _.
  cbn [paymentHeader paymentInfo info_network spender info_asset userAddress].
  split.
  { unfold stringify_result. apply JSON_parse_stringify.
    cbn [paymentHeader paymentInfo info_network spender info_asset userAddress].
    pose proof (encode_payment_wf _
                  (paymentData_wf signature o addr (validAfter_at W (h ++ pre))
                     (validAfter_at W (h ++ pre) + 900) _ Hsig Ha Hp Hm Hnonce)).
    destruct (payTo o), (asset o);
      cbn [obj omap json_opt fmap option_fmap option_map fst snd];
      repeat first
        [ assumption
        | apply wf_string_check; reflexivity
        | constructor ]. }
  split; [by destruct (payTo o), (asset o)|].
  split; [by destruct (payTo o), (asset o)|]. exact Hparse.
Qed.

End PaymentText.

(** ** Revocation, run by run *)

Lemma count_idle_none p k txHash :
  p (Wallet (eth_getTransactionReceipt txHash)) = false ->
  p (Sleep 2000) = false ->
  count p (idle_polls k txHash) = 0%nat.
Proof.
  intros H1 H2. induction k as [|k IH]; [done|].
  rewrite idle_polls_S, count_app, IH, !count_cons, H1, H2. done.
Qed.

Lemma last_idle_polls k txHash :
  last (idle_polls (S k) txHash) = Some (Sleep 2000).
Proof.
  rewrite idle_polls_snoc.
  change [Wallet (eth_getTransactionReceipt txHash); Sleep 2000]
    with ([Wallet (eth_getTransactionReceipt txHash)] ++ [Sleep 2000]).
  by rewrite !app_assoc, last_snoc.
Qed.

Section RevocationRuns.
Variable W : World.

(** The events of the receipt loop. *)
Lemma wait_for_receipt_events n txHash h polled pevs p :
  wait_for_receipt W n txHash h = (polled, pevs) ->
  p (Wallet (eth_getTransactionReceipt txHash)) = false ->
  p (Sleep 2000) = false ->
  count p pevs = 0%nat.
Proof.
  intros H H1 H2.
  apply wait_for_receipt_inv in H as [[_ ->] | (k & receipt & _ & _ & -> & _)].
  - by apply count_idle_none.
  - rewrite count_app, count_idle_none by done. unfold count. simpl. by rewrite H1.
Qed.

(** X6: [revokeApproval] returns exactly when its last event is a receipt
    poll that the wallet answered with a receipt whose status is not "0x0"
    (a receipt without a status counts as success). *)
Theorem revocation_succeeds_iff_receipt info h r evs :
  revokeApproval W info h = (r, evs) ->
  r = inr tt <->
  exists pre txHash receipt,
    evs = pre ++ [Wallet (eth_getTransactionReceipt txHash)] /\
    ethereum_request W (h ++ pre) (eth_getTransactionReceipt txHash)
      = inr (Some receipt) /\
    receipt_status receipt <> Some (js "0x0").
Proof.
  intros Hrun. apply revokeApproval_run in Hrun.
  destruct Hrun as [Hw | e Hw Ha | e Hw Ha | accounts e Hw Ha Hs
                    | accounts s e Hw Ha Hs Ht
                    | accounts s txHash polled pevs Hw Ha Hs Ht Hp].
  1-5: split; [done|]; intros (pre & t & rc & Hevs & _);
       by destruct pre as [|? [|? [|? ?]]].
  apply wait_for_receipt_inv in Hp
    as [[-> ->] | (k & receipt & Hlt & -> & -> & Hreq)].
  - split; [done|]. intros (pre & t & rc & Hevs & _). exfalso.
    apply (f_equal last) in Hevs. rewrite last_snoc in Hevs.
    rewrite last_app in Hevs. unfold maxAttempts in Hevs.
    by rewrite last_idle_polls in Hevs.
  - unfold revoke_result. split.
    + case_bool_decide as Hst; [done|]. intros _.
      exists ([Wallet eth_requestAccounts;
               Wallet (eth_sendTransaction (revoke_tx (head accounts) info s))]
                ++ idle_polls k txHash), txHash, receipt.
      split; [by rewrite <- app_assoc|]. split; [|done].
      by rewrite <- Hreq, <- !app_assoc.
    + intros (pre & t & rc & Hevs & Hreq' & Hst).
      rewrite app_assoc in Hevs. apply app_inj_tail in Hevs as [<- [= <-]].
      rewrite <- app_assoc in Hreq. rewrite Hreq in Hreq'. injection Hreq' as <-.
      by case_bool_decide.
Qed.

(** X7: once the wallet has accepted the transaction, nothing but polls for
    its hash and pauses of 2000 ms follow, a pause after every poll that gave
    no receipt; the call then returns or fails with the revocation failure,
    whatever the polls were answered with, rejections included. *)
Theorem accepted_revocation_only_polls info h r evs pre tx post txHash :
  revokeApproval W info h = (r, evs) ->
  evs = pre ++ Wallet (eth_sendTransaction tx) :: post ->
  ethereum_request W (h ++ pre) (eth_sendTransaction tx) = inr txHash ->
  (r = inr tt \/ r = inl RevocationFailure) /\
  (post = idle_polls 30 txHash \/
   exists k, (k < 30)%nat /\
     post = idle_polls k txHash ++ [Wallet (eth_getTransactionReceipt txHash)]).
Proof.
  intros Hrun Hevs Hsent. apply revokeApproval_run in Hrun.
  destruct Hrun as [Hw | e Hw Ha | e Hw Ha | accounts e Hw Ha Hs
                    | accounts s e Hw Ha Hs Ht
                    | accounts s txHash' polled pevs Hw Ha Hs Ht Hp].
  1-4: by destruct pre as [|? [|? ?]].
  - destruct pre as [|? [|? [|? ?]]]; try done.
    injection Hevs as <- <-. cbn [app] in Hsent. congruence.
  - destruct pre as [|p1 [|p2 pre]]; [done| |].
    + injection Hevs as <- <- <-. cbn [app] in Hsent.
      rewrite Ht in Hsent. injection Hsent as ->.
      apply wait_for_receipt_inv in Hp
        as [[-> ->] | (k & receipt & Hlt & -> & -> & Hreq)].
      * split; [by right|by left].
      * split; [|right; by exists k].
        unfold revoke_result. case_bool_decide; auto.
    + exfalso. injection Hevs as _ _ Hevs.
      apply (wait_for_receipt_events _ _ _ _ _ is_send) in Hp; [|done..].
      rewrite Hevs, count_app, count_cons in Hp. simpl in Hp. lia.
Qed.

(** X8: [revokeApproval] never fetches, never asks for a typed-data signature
    and sends at most one transaction, none when the payment information has
    no spender.  Without a wallet it throws "MetaMask not found" before any
    effect; every other failure comes after [eth_requestAccounts] and has a
    message that starts with "Failed to revoke approval: ". *)
Theorem revocation_failures_are_wrapped info h :
  let '(r, evs) := revokeApproval W info h in
  count is_fetch evs = 0%nat /\
  count is_signature evs = 0%nat /\
  (count is_send evs <= 1)%nat /\
  (spender info = None -> count is_send evs = 0%nat /\ r <> inr tt) /\
  match r with
  | inl e =>
      if window_ethereum W h then
        head evs = Some (Wallet eth_requestAccounts) /\
        exists cause,
          e = Error (js "Failed to revoke approval: " ++ message_of cause)
      else e = Error (js "MetaMask not found") /\ evs = []
  | inr _ => window_ethereum W h = true
  end.
Proof.
  destruct (revokeApproval W info h) as [r evs] eqn:Hrun.
  apply revokeApproval_run in Hrun.
  destruct Hrun as [Hw | e Hw Ha | e Hw Ha | accounts e Hw Ha Hs
                    | accounts s e Hw Ha Hs Ht
                    | accounts s txHash polled pevs Hw Ha Hs Ht Hp];
    rewrite ?Hw.
  1-5: split_and!; try done; try (unfold count; simpl; lia);
       try (intros _; split; [reflexivity|done]);
       try (intros ?; congruence);
       by eexists.
  pose proof (wait_for_receipt_events _ _ _ _ _ is_fetch Hp eq_refl eq_refl) as H1.
  pose proof (wait_for_receipt_events _ _ _ _ _ is_signature Hp eq_refl eq_refl) as H2.
  pose proof (wait_for_receipt_events _ _ _ _ _ is_send Hp eq_refl eq_refl) as H3.
  rewrite !count_app, H1, H2, H3.
  split_and!; try done; try (unfold count; simpl; lia); try (intros ?; congruence).
  apply wait_for_receipt_inv in Hp
    as [[-> ->] | (k & receipt & Hlt & -> & -> & Hreq)]; unfold revoke_result.
  - split; [done|]. by exists RevocationTransactionFailed.
  - case_bool_decide; [|done]. split; [done|]. by exists RevocationTransactionFailed.
Qed.

End RevocationRuns.

(** X9: for a spender written as "0x" and 40 further units, the calldata is
    the selector, 24 zeros, the 40 units, and 64 zeros. *)
Theorem approve_calldata_of_address digits :
  length digits = 40%nat ->
  approve_zero_data (js "0x" ++ digits)
  = js "0x095ea7b3" ++ replicate 24 48 ++ digits ++ replicate 64 48.
Proof.
  intros Hlen. unfold approve_zero_data, approveSignature.
  change (js "0x") with [48; 120]. cbn [app replace_first startsWith].
  rewrite !Z.eqb_refl. cbn [andb length drop app].
  rewrite drop_0. unfold padStart. rewrite Hlen, <- app_assoc. reflexivity.
Qed.

(** ** The executor, edge by edge *)

Section ExecutorEdges.
Variable W : World.

(** X10: when [brokerRequestWithPayment] returns a value, its last event is
    a request to the broker that was answered with a status from 200 to 299,
    and the value is [JSON.parse] of the text of that answer; no 402 is ever
    handed to the caller as a result. *)
Theorem success_is_an_ok_answer endpoint options h v evs :
  brokerRequestWithPayment W endpoint options h = (inr v, evs) ->
  exists pre init response,
    evs = pre ++ [Fetch (BROKER_API_BASE W ++ endpoint) (Some init)] /\
    fetch_result W (h ++ pre) (BROKER_API_BASE W ++ endpoint) (Some init)
      = inr response /\
    200 <= status response <= 299 /\
    JSON_parse (text response) = Some v.
Proof.
  assert (forall response, finish_result W response = inr v ->
            200 <= status response <= 299 /\ JSON_parse (text response) = Some v)
    as Hfinish.
  { intros response. unfold finish_result, JSON_parse_or_throw.
    destruct (ok response) eqn:Hok; [|done]. unfold ok in Hok. bool_to_prop Hok.
    destruct (JSON_parse (text response)); [|done]. intros [= ->]. split; [lia|done]. }
  intros Hrun. apply brokerRequestWithPayment_inv in Hrun.
  inversion Hrun as [| response Hf Hn Hr | | response parsed r evs' Hf Hs Hp Hleg];
    subst.
  - exists [], (first_init options), response. rewrite app_nil_r.
    split; [done|]. split; [exact Hf|]. by apply Hfinish.
  - inversion Hleg as [| | | |
        | ua others reqs pr pevs answer Hw Ha Hq Hc Hans Hres]; subst.
    match type of Hres with
    | match ?x with _ => _ end = _ => destruct x as [e|answer] eqn:Hretry; [done|]
    end.
    exists (first_fetch W endpoint options :: Wallet eth_accounts :: pevs),
      (retry_init options (stringify_result pr)), answer.
    split; [done|]. split; [|by apply Hfinish].
    rewrite <- Hretry. f_equal. by rewrite <- app_assoc.
Qed.

(** X11: after a first answer 402, the executor fails before any payment
    when the body is not JSON (with one request and no wallet call), when
    there is no wallet (the same), when [eth_accounts] is rejected (the
    rejection is passed on as it is) and when it resolves to [null] or to no
    account; in the last two cases the wallet was asked for nothing else. *)
Theorem challenge_failures_before_payment endpoint options h response :
  fetch_result W h (BROKER_API_BASE W ++ endpoint) (Some (first_init options))
    = inr response ->
  status response = 402 ->
  match JSON_parse (text response) with
  | None =>
      brokerRequestWithPayment W endpoint options h
      = (inl MalformedChallenge, [first_fetch W endpoint options])
  | Some _ =>
      if window_ethereum W (h ++ [first_fetch W endpoint options]) then
        match ethereum_request W (h ++ [first_fetch W endpoint options])
                eth_accounts with
        | inl e =>
            brokerRequestWithPayment W endpoint options h
            = (inl e, [first_fetch W endpoint options; Wallet eth_accounts])
        | inr None | inr (Some []) =>
            brokerRequestWithPayment W endpoint options h
            = (inl WalletNotConnected,
               [first_fetch W endpoint options; Wallet eth_accounts])
        | inr (Some (_ :: _)) => True
        end
      else
        brokerRequestWithPayment W endpoint options h
        = (inl WalletUnavailable, [first_fetch W endpoint options])
  end.
Proof.
  intros Hf Hs.
  destruct (brokerRequestWithPayment W endpoint options h) as [r evs] eqn:Hrun.
  apply brokerRequestWithPayment_inv in Hrun.
  inversion Hrun as [e Hf' | resp Hf' Hn | resp Hf' Hs' Hp
                     | resp parsed r' evs' Hf' Hs' Hp Hleg];
    unfold broker_url in *; subst; rewrite Hf in Hf'; simplify_eq.
  - by rewrite Hp.
  - rewrite Hp.
    inversion Hleg as [Hw | e Hw Ha | accounts Hw Ha Hacc | ua others e Hw Ha Hq
        | ua others reqs e pevs Hw Ha Hq Hc
        | ua others reqs pr pevs answer Hw Ha Hq Hc Hans Hres];
      rewrite Hw; try done; rewrite Ha; try done.
    by destruct Hacc as [-> | ->].
Qed.

(** X12: every request of the executor goes to the broker URL of the
    endpoint with the method and the body of the caller; its [Content-Type]
    is the one of the caller, or "application/json" when the caller gave
    none, and every other header of the caller except [X-Payment] is sent
    as it was given. *)
Theorem requests_keep_the_callers_request endpoint options h r evs u i :
  brokerRequestWithPayment W endpoint options h = (r, evs) ->
  In (Fetch u i) evs ->
  u = BROKER_API_BASE W ++ endpoint /\
  exists init,
    i = Some init /\
    method init = method options /\
    body init = body options /\
    headers init !! js "Content-Type"
    = Some (default (js "application/json") (headers options !! js "Content-Type")) /\
    forall k, k <> js "Content-Type" -> k <> js "X-Payment" ->
      headers init !! k = headers options !! k.
Proof.
  assert (first_headers options !! js "Content-Type"
          = Some (default (js "application/json")
                    (headers options !! js "Content-Type"))) as Hct.
  { unfold first_headers. rewrite lookup_union.
    destruct (headers options !! js "Content-Type"); by rewrite ?lookup_singleton. }
  assert (forall k, k <> js "Content-Type" ->
            first_headers options !! k = headers options !! k) as Hother.
  { intros k Hk. unfold first_headers. rewrite lookup_union.
    rewrite lookup_singleton_ne by done. by destruct (headers options !! k). }
  assert (forall e, e = first_fetch W endpoint options \/
                    (exists pr, e = retry_fetch W endpoint options pr) ->
                    e = Fetch u i ->
                    u = BROKER_API_BASE W ++ endpoint /\
                    exists init, i = Some init /\ method init = method options /\
                      body init = body options /\
                      headers init !! js "Content-Type"
                      = Some (default (js "application/json")
                                (headers options !! js "Content-Type")) /\
                      forall k, k <> js "Content-Type" -> k <> js "X-Payment" ->
                        headers init !! k = headers options !! k) as Hboth.
  { intros e [-> | [pr ->]] [= <- <-]; (split; [done|]); eexists; split; try done;
      cbn [method body headers first_init retry_init]; split_and!; try done.
    - intros k Hk _. by apply Hother.
    - rewrite lookup_insert_ne; [done|]. by vm_compute.
    - intros k Hk Hx. rewrite lookup_insert_ne by done. by apply Hother. }
  intros Hrun Hin. apply brokerRequestWithPayment_inv in Hrun.
  inversion Hrun as [e Hf | resp Hf Hn | resp Hf Hs Hp
                     | resp parsed r' evs' Hf Hs Hp Hleg]; subst.
  1-3: destruct Hin as [Hin|Hin]; [|destruct Hin]; (eapply Hboth; [by left|done]).
  destruct Hin as [Hin|Hin]; [eapply Hboth; [by left|done]|].
  inversion Hleg as [Hw | e Hw Ha | accounts Hw Ha Hacc | ua others e Hw Ha Hq
        | ua others reqs e pevs Hw Ha Hq Hc
        | ua others reqs pr pevs answer Hw Ha Hq Hc Hans Hres]; subst;
    try (by destruct Hin); try (by destruct Hin as [|[]]).
  - destruct Hin as [|Hin]; [done|].
    apply createX402Payment_events in Hc as [Hc _].
    by apply (count_zero_not_in _ _ _ Hc) in Hin.
  - destruct Hin as [|Hin]; [done|]. apply in_app_or in Hin as [Hin|[Hin|[]]].
    + apply createX402Payment_events in Hc as [Hc _].
      by apply (count_zero_not_in _ _ _ Hc) in Hin.
    + eapply Hboth; [right; by eexists|done].
Qed.

End ExecutorEdges.

(** ** run and store *)

Lemma run_body_wf params : wf_run_params params -> wf_json (run_body params).
Proof.
  destruct params as [c l [g|] [n|] [t|] [d|]]; intros (Hc & Hl & Hg);
    cbn [code language gpu_type] in *; unfold run_body;
    cbn [obj omap json_opt fmap option_fmap option_map fst snd
           code language gpu_type gpu_count timeout on_demand];
    repeat first
      [ assumption
      | apply wf_string_check; reflexivity
      | constructor ].
Qed.

Lemma store_body_wf base64Data finalFilename params :
  wf_string base64Data -> wf_string finalFilename ->
  match options params with
  | Some o => wf_option (provider o)
  | None => True
  end ->
  wf_json (store_body base64Data finalFilename params).
Proof.
  destruct params as [d f [[[p|] [t|] [v|]]|]]; intros Hb Hf Ho;
    cbn [options provider] in *; unfold store_body, options_json;
    cbn [obj omap json_opt fmap option_fmap option_map fst snd
           options permanent ttl provider];
    repeat first
      [ assumption
      | apply wf_string_check; reflexivity
      | constructor ].
Qed.

Lemma or_else_wf a b : wf_option a -> wf_string b -> wf_string (or_else a b).
Proof. by destruct a as [[|c s]|]. Qed.

(** X14: for a file, [store] sends the base64 text of its bytes, under the
    given file name or, when none (or an empty one) is given, the name of the
    file; decoding that text gives the bytes back. *)
Theorem store_file_round_trip file fname opts :
  store_payload (mkStoreParams (inr file) fname opts)
  = inr (base64_encode (binary_of (arrayBuffer file)), or_else fname (name file)) /\
  base64_decode (base64_encode (binary_of (arrayBuffer file)))
  = binary_of (arrayBuffer file).
Proof.
  unfold store_payload. cbn [data filename].
  rewrite btoa_bytes by apply binary_of_bytes. split; [done|].
  apply base64_round_trip, binary_of_bytes.
Qed.

Section Store.
Variable W : World.

(** X15: a text that is not empty and has only letters, digits, [+], [/] and
    [=] is sent as it is, whether or not it is the base64 of anything; any
    other text whose units are all below 256 is sent as its base64 text,
    which decodes to the text; a text with a unit above 255 makes [store]
    throw the error of [btoa] before any request.  Without a file name the
    name is "data.txt". *)
Theorem store_text_encoding text fname opts h :
  wf_string text ->
  if looks_base64 text then
    store_payload (mkStoreParams (inl text) fname opts)
    = inr (text, or_else fname (js "data.txt"))
  else if forallb (fun u => u <=? 255) text then
    store_payload (mkStoreParams (inl text) fname opts)
    = inr (base64_encode text, or_else fname (js "data.txt")) /\
    base64_decode (base64_encode text) = text
  else
    store W (mkStoreParams (inl text) fname opts) h
    = (inl InvalidCharacterError, []).
Proof.
  intros Hwf. unfold store, store_payload. cbn [data filename].
  destruct (looks_base64 text); [done|]. unfold btoa.
  destruct (forallb _ text) eqn:Hl; [|done].
  split; [done|]. by apply base64_round_trip, latin1_bytes.
Qed.

(** The data that [store] computes has only units of the base64 alphabet. *)
Lemma store_payload_units params base64Data finalFilename :
  match data params with inl text => wf_string text | inr _ => True end ->
  store_payload params = inr (base64Data, finalFilename) ->
  forallb is_base64_unit base64Data = true.
Proof.
  intros Hwf Hp. unfold store_payload in Hp. destruct (data params) as [text|file].
  - destruct (looks_base64 text) eqn:Hlooks.
    + injection Hp as <- _. unfold looks_base64 in Hlooks.
      by apply andb_true_iff in Hlooks as [_ Hlooks].
    + unfold btoa in Hp. destruct (forallb _ text) eqn:Hl; [|done].
      injection Hp as <- _. by apply base64_encode_units, latin1_bytes.
  - rewrite btoa_bytes in Hp by apply binary_of_bytes. injection Hp as <- _.
    apply base64_encode_units, binary_of_bytes.
Qed.

(** X16: whatever [store] sends as [data] has only units of the base64
    alphabet, and storing that data again as a text sends it unchanged. *)
Theorem store_sends_base64_text params base64Data finalFilename :
  match data params with inl text => wf_string text | inr _ => True end ->
  store_payload params = inr (base64Data, finalFilename) ->
  forallb is_base64_unit base64Data = true /\
  forall fname opts,
    store_payload (mkStoreParams (inl base64Data) fname opts)
    = inr (base64Data, or_else fname (js "data.txt")).
Proof.
  intros Hwf Hp.
  pose proof (store_payload_units params base64Data finalFilename Hwf Hp) as Hunits.
  split; [done|]. intros fname opts. unfold store_payload. cbn [data filename].
  unfold looks_base64. rewrite Hunits.
  destruct base64Data as [|u s]; [done|]. done.
Qed.

Lemma broker_first_event endpoint options h :
  head (brokerRequestWithPayment W endpoint options h).2
  = Some (first_fetch W endpoint options).
Proof.
  destruct (brokerRequestWithPayment W endpoint options h) as [r evs] eqn:Hrun.
  apply brokerRequestWithPayment_inv in Hrun. by destruct Hrun.
Qed.

(** X13: the first request of [run] is a POST to the broker URL followed by
    "/run" with the one header [Content-Type: application/json], and its body
    is JSON that parses back to the parameters: [code] and [language] as
    given, and each optional member as given or absent. *)
Theorem run_posts_its_parameters params h :
  wf_run_params params ->
  exists first text,
    head (run W params h).2
    = Some (Fetch (BROKER_API_BASE W ++ js "/run") (Some first)) /\
    method first = Some (js "POST") /\
    headers first = {[ js "Content-Type" := js "application/json" ]} /\
    body first = Some text /\
    JSON_parse text = Some (run_body params) /\
    json_get "code" (run_body params) = Some (JStr (code params)) /\
    json_get "language" (run_body params) = Some (JStr (language params)) /\
    json_get "gpu_type" (run_body params) = JStr <$> gpu_type params /\
    json_get "gpu_count" (run_body params) = jint <$> gpu_count params /\
    json_get "timeout" (run_body params) = jint <$> timeout params /\
    json_get "on_demand" (run_body params) = JBool <$> on_demand params.
Proof.
  intros Hwf. unfold run. eexists _, _. rewrite broker_first_event.
  split; [reflexivity|]. cbn [method body headers first_init].
  split; [done|]. split.
  { unfold first_headers. cbn [headers]. by rewrite (left_id_L ∅ (∪)). }
  split; [done|]. split; [by apply JSON_parse_stringify, run_body_wf|].
  destruct params as [c l [g|] [n|] [t|] [d|]]; vm_compute; done.
Qed.

(** X17: the first request of [store] is a POST to the broker URL followed
    by "/store" with the one header [Content-Type: application/json]; its body
    is JSON that parses back to the members [data] and [filename] and, only
    when options were given, [options]; the file name is the one given or,
    when none (or an empty one) is given, "data.txt" for a text and the name
    of the file for a file. *)
Theorem store_posts_its_payload params base64Data finalFilename h :
  wf_store_params params ->
  store_payload params = inr (base64Data, finalFilename) ->
  exists first text,
    head (store W params h).2
    = Some (Fetch (BROKER_API_BASE W ++ js "/store") (Some first)) /\
    method first = Some (js "POST") /\
    headers first = {[ js "Content-Type" := js "application/json" ]} /\
    body first = Some text /\
    JSON_parse text = Some (store_body base64Data finalFilename params) /\
    json_get "data" (store_body base64Data finalFilename params)
    = Some (JStr base64Data) /\
    json_get "filename" (store_body base64Data finalFilename params)
    = Some (JStr finalFilename) /\
    json_get "options" (store_body base64Data finalFilename params)
    = options_json <$> options params /\
    finalFilename
    = or_else (filename params)
        match data params with
        | inl _ => js "data.txt"
        | inr file => name file
        end.
Proof.
  intros (Hf & Hd & Ho) Hp.
  assert (wf_string base64Data /\
          finalFilename = or_else (filename params)
                            match data params with
                            | inl _ => js "data.txt"
                            | inr file => name file
                            end) as [Hb Hname].
  { split.
    { apply base64_units_wf, (store_payload_units params base64Data finalFilename);
        [revert Hd; by destruct (data params)|done]. }
    unfold store_payload in Hp. destruct (data params) as [text|file].
    - destruct (looks_base64 text); [by injection Hp as _ <-|].
      destruct (btoa text); [done|]. by injection Hp as _ <-.
    - destruct (btoa _); [done|]. by injection Hp as _ <-. }
  assert (wf_string finalFilename) as Hwf.
  { rewrite Hname. apply or_else_wf; [done|].
    revert Hd. destruct (data params); [|done]. intros _. apply wf_string_check. reflexivity. }
  unfold store. rewrite bind_run, lift_run, Hp. cbn [fst snd].
  assert (forall (k : M json) hist, (after [] k hist).2 = (k (hist ++ [])).2) as Hafter.
  { intros k hist. unfold after. by destruct (k (hist ++ [])). }
  rewrite Hafter. eexists _, _. rewrite broker_first_event.
  split; [reflexivity|]. cbn [method body headers first_init].
  split; [done|]. split.
  { unfold first_headers. cbn [headers]. by rewrite (left_id_L ∅ (∪)). }
  split; [done|]. split; [by apply JSON_parse_stringify, store_body_wf|].
  split_and!; try done; unfold store_body; destruct (options params); vm_compute; done.
Qed.

End Store.

(** ** The chain table *)

(** X18: [getChainIdFromNetwork] depends on the lower-cased label only, and
    its result is one of the seven chain ids of the table, never 0 and never
    [undefined]; a label that lower-cases to [constructor] or [__proto__]
    gives the member inherited from [Object.prototype] instead. *)
Theorem chain_lookup_range label :
  (forall other, toLowerCase other = toLowerCase label ->
     getChainIdFromNetwork other = getChainIdFromNetwork label) /\
  match getChainIdFromNetwork label with
  | ChainId n => In n [43114; 8453; 84532; 1; 137; 42161; 10]
  | Inherited member =>
      member = toLowerCase label /\
      (member = js "constructor" \/ member = js "__proto__")
  end.
Proof.
  split.
  { intros other Heq. unfold getChainIdFromNetwork. by rewrite Heq. }
  unfold getChainIdFromNetwork. cbv zeta.
  destruct (chainIds !! toLowerCase label) as [n|] eqn:Hn.
  - apply elem_of_list_to_map_2 in Hn.
    repeat (apply elem_of_cons in Hn as [Hn|Hn];
            [injection Hn as _ ->; simpl; tauto|]).
    by apply elem_of_nil in Hn.
  - destruct (bool_decide (toLowerCase label = js "constructor")) eqn:Hc;
      [apply bool_decide_eq_true_1 in Hc|];
      (destruct (bool_decide (toLowerCase label = js "__proto__")) eqn:Hp;
       [apply bool_decide_eq_true_1 in Hp|]);
      cbn [orb]; try (split; [done|]; auto); simpl; tauto.
Qed.

(** ** The fee of an amount that is not positive *)

Section FeeEdges.
Import Fee.
Local Open Scope float_scope.

Lemma shr_1_nonneg mrs : (0 <= shr_m mrs)%Z -> (0 <= shr_m (shr_1 mrs))%Z.
Proof. destruct mrs as [[|[p|p|]|p] r s]; simpl; lia. Qed.

Lemma iter_shr_1_nonneg p mrs :
  (0 <= shr_m mrs)%Z -> (0 <= shr_m (SpecFloat.iter_pos shr_1 p mrs))%Z.
Proof.
  revert mrs. induction p as [p IH|p IH|]; intros mrs H; simpl.
  - apply IH, IH, shr_1_nonneg, H.
  - apply IH, IH, H.
  - by apply shr_1_nonneg.
Qed.

Lemma shr_fexp_nonneg prec emax m e l :
  (0 <= m)%Z -> (0 <= shr_m (shr_fexp prec emax m e l).1)%Z.
Proof.
  intros Hm. unfold shr_fexp, shr.
  assert (0 <= shr_m (shr_record_of_loc m l))%Z as H0.
  { by destruct l as [|[]]. }
  destruct (_ - e)%Z; simpl; try done. by apply iter_shr_1_nonneg.
Qed.

Lemma round_nearest_even_nonneg m l : (0 <= m)%Z -> (0 <= round_nearest_even m l)%Z.
Proof.
  intros Hm. unfold round_nearest_even.
  destruct l as [|[]]; try done; [destruct (Z.even m)|]; lia.
Qed.

(** Rounding keeps the sign. *)
Lemma binary_round_aux_sign prec emax s m e :
  match binary_round_aux prec emax s (Z.pos m) e loc_Exact with
  | S754_zero s' | S754_infinity s' | S754_finite s' _ _ => s' = s
  | S754_nan => False
  end.
Proof.
  unfold binary_round_aux.
  pose proof (shr_fexp_nonneg prec emax (Z.pos m) e loc_Exact) as H1.
  destruct (shr_fexp prec emax (Z.pos m) e loc_Exact) as [mrs' e'].
  cbn [fst] in H1. specialize (H1 ltac:(lia)).
  pose proof (shr_fexp_nonneg prec emax
                (round_nearest_even (shr_m mrs') (loc_of_shr_record mrs')) e' loc_Exact) as H2.
  destruct (shr_fexp prec emax _ e' loc_Exact) as [mrs'' e''].
  cbn [fst] in H2. specialize (H2 (round_nearest_even_nonneg _ _ H1)).
  destruct (shr_m mrs''); [done| |lia]. by destruct (_ <=? _)%Z.
Qed.

(** X19: for every amount that is not above zero (negative amounts, both
    zeros and minus infinity) the relay fee is the minimum 0.002, and the
    total is the amount plus 0.002. *)
Theorem fee_of_non_positive_amount (x : float) :
  (x <=? 0) = true ->
  calculateRelayFee x = lit_0_002 /\
  calculateTotalAmount x = x + lit_0_002.
Proof.
  intros Hx.
  assert (calculateRelayFee x = lit_0_002) as Hfee; [|by unfold calculateTotalAmount; rewrite Hfee].
  unfold calculateRelayFee, Math_max. cbv zeta.
  rewrite FloatAxioms.leb_spec in Hx. rewrite FloatAxioms.compare_spec, FloatAxioms.mul_spec.
  change (Prim2SF 0) with (S754_zero false) in Hx.
  change (Prim2SF lit_0_002) with (S754_finite false 4611686018427388 (-61)).
  change (Prim2SF lit_0_03) with (S754_finite false 8646911284551352 (-58)).
  unfold SF64mul.
  destruct (Prim2SF x) as [s|[]| |[] m e]; try done.
  cbn [SFmul xorb].
  pose proof (binary_round_aux_sign prec emax true (m * 8646911284551352) (e + -58)) as Hs.
  destruct (binary_round_aux _ _ _ _ _ _) as [s|s| |s m' e']; try done; by subst s.
Qed.

End FeeEdges.

(** ** The scenarios, again *)

Section MoreOnScenarios.
Import Scenario.

Lemma signature_follows_network_check_witness :
  sign_run = (sign_run.1, sign_run.2) /\
  In (Wallet (eth_signTypedData_v4 payer signed_text)) sign_run.2 /\
  exists pre,
    sign_run.2 = pre ++ [GetRandomValues 32; DateNow;
                         Wallet (eth_signTypedData_v4 payer signed_text)].
Proof.
  split; [apply surjective_pairing|]. split; [in_events|].
  destruct (signature_follows_network_check paid base_option payer []
              sign_run.1 sign_run.2 payer signed_text (surjective_pairing _))
    as (pre & Hevs & _); [in_events|].
  exists pre. exact Hevs.
Defined.

Lemma token_carries_what_was_signed_witness :
  wf_string payer /\ wf_option (payTo base_option) /\
  wf_option (maxAmountRequired base_option) /\ signs_strings paid /\
  signWithMetaMask paid base_option payer [] = (inr signed_header, sign_run.2) /\
  exists signature validAfter nonce,
    JSON_parse (from_base64 signed_header)
    = Some (paymentData signature base_option payer validAfter (validAfter + 900) nonce).
Proof.
  assert (wf_string payer) as H1 by (apply wf_string_check; reflexivity).
  assert (wf_option (payTo base_option)) as H2 by (apply wf_string_check; reflexivity).
  assert (wf_option (maxAmountRequired base_option)) as H3
    by (apply wf_string_check; reflexivity).
  assert (signs_strings paid) as H4.
  { intros hist a d signature [= <-]. apply wf_string_check. reflexivity. }
  assert (signWithMetaMask paid base_option payer [] = (inr signed_header, sign_run.2))
    as H5 by (vm_compute; reflexivity).
  split; [exact H1|]. split; [exact H2|]. split; [exact H3|].
  split; [exact H4|]. split; [exact H5|].
  destruct (token_carries_what_was_signed paid base_option payer [] signed_header
              sign_run.2 H1 H2 H3 H4 H5)
    as (pre & signature & validAfter & nonce & _ & _ & Hparse).
  exists signature, validAfter, nonce. exact Hparse.
Defined.

Lemma payment_info_of_first_option_witness :
  accepts requirements = Some [base_option] /\
  wf_string payer /\ wf_option (payTo base_option) /\
  wf_option (maxAmountRequired base_option) /\ signs_strings paid /\
  createX402Payment paid requirements payer [] =
  match signWithMetaMask paid base_option payer [] with
  | (inr header, evs) =>
      (inr {| paymentHeader := header;
              paymentInfo := {| info_network := Some (js "avalanche");
                                spender := payTo base_option;
                                info_asset := asset base_option;
                                userAddress := Some payer |} |}, evs)
  | (inl e, evs) => (inl e, evs)
  end.
Proof.
  assert (wf_string payer) as H1 by (apply wf_string_check; reflexivity).
  assert (wf_option (payTo base_option)) as H2 by (apply wf_string_check; reflexivity).
  assert (wf_option (maxAmountRequired base_option)) as H3
    by (apply wf_string_check; reflexivity).
  assert (signs_strings paid) as H4.
  { intros hist a d signature [= <-]. apply wf_string_check. reflexivity. }
  split; [reflexivity|]. split; [exact H1|]. split; [exact H2|].
  split; [exact H3|]. split; [exact H4|].
  exact (payment_info_of_first_option paid requirements base_option [] payer []
           eq_refl H1 H2 H3 H4).
Defined.

Lemma payment_result_text_round_trip_witness :
  accepts requirements = Some [base_option] /\
  wf_string payer /\ wf_option (payTo base_option) /\ wf_option (asset base_option) /\
  wf_option (maxAmountRequired base_option) /\ signs_strings paid /\
  createX402Payment paid requirements payer []
  = (inr paid_payment, (createX402Payment paid requirements payer []).2) /\
  exists parsed,
    JSON_parse (stringify_result paid_payment) = Some parsed /\
    json_get "paymentHeader" parsed = Some (JStr (paymentHeader paid_payment)).
Proof.
  assert (wf_string payer) as H1 by (apply wf_string_check; reflexivity).
  assert (wf_option (payTo base_option)) as H2 by (apply wf_string_check; reflexivity).
  assert (wf_option (asset base_option)) as H2' by (apply wf_string_check; reflexivity).
  assert (wf_option (maxAmountRequired base_option)) as H3
    by (apply wf_string_check; reflexivity).
  assert (signs_strings paid) as H4.
  { intros hist a d signature [= <-]. apply wf_string_check. reflexivity. }
  assert (createX402Payment paid requirements payer []
          = (inr paid_payment, (createX402Payment paid requirements payer []).2))
    as H5 by (vm_compute; reflexivity).
  split; [reflexivity|]. split; [exact H1|]. split; [exact H2|].
  split; [exact H2'|]. split; [exact H3|]. split; [exact H4|]. split; [exact H5|].
  destruct (payment_result_text_round_trip paid requirements base_option [] payer []
              paid_payment _ eq_refl H1 H2 H2' H3 H4 H5)
    as (parsed & _ & _ & _ & Hparse & Hheader & _).
  exists parsed. split; [exact Hparse|exact Hheader].
Defined.

Lemma revocation_succeeds_iff_receipt_witness :
  revokeApproval paid info []
  = ((revokeApproval paid info []).1, (revokeApproval paid info []).2) /\
  (revokeApproval paid info []).1 = inr tt /\
  exists pre txHash receipt,
    (revokeApproval paid info []).2
    = pre ++ [Wallet (eth_getTransactionReceipt txHash)] /\
    ethereum_request paid ([] ++ pre) (eth_getTransactionReceipt txHash)
      = inr (Some receipt) /\
    receipt_status receipt <> Some (js "0x0").
Proof.
  split; [apply surjective_pairing|].
  assert ((revokeApproval paid info []).1 = inr tt) as H by (vm_compute; reflexivity).
  split; [exact H|].
  exact (proj1 (revocation_succeeds_iff_receipt paid info [] _ _
                  (surjective_pairing _)) H).
Defined.

Lemma accepted_revocation_only_polls_witness :
  revokeApproval stalled info []
  = ((revokeApproval stalled info []).1, (revokeApproval stalled info []).2) /\
  (revokeApproval stalled info []).2
  = [Wallet eth_requestAccounts]
      ++ Wallet (eth_sendTransaction (revoke_tx (Some payer) info payee))
      :: idle_polls 30 (js "0xhash") /\
  ethereum_request stalled ([] ++ [Wallet eth_requestAccounts])
    (eth_sendTransaction (revoke_tx (Some payer) info payee)) = inr (js "0xhash") /\
  ((revokeApproval stalled info []).1 = inr tt \/
   (revokeApproval stalled info []).1 = inl RevocationFailure).
Proof.
  split; [apply surjective_pairing|].
  assert ((revokeApproval stalled info []).2
          = [Wallet eth_requestAccounts]
              ++ Wallet (eth_sendTransaction (revoke_tx (Some payer) info payee))
              :: idle_polls 30 (js "0xhash")) as H1 by (vm_compute; reflexivity).
  assert (ethereum_request stalled ([] ++ [Wallet eth_requestAccounts])
            (eth_sendTransaction (revoke_tx (Some payer) info payee))
          = inr (js "0xhash")) as H2 by reflexivity.
  split; [exact H1|]. split; [exact H2|].
  exact (proj1 (accepted_revocation_only_polls stalled info [] _ _ _ _ _ _
                  (surjective_pairing _) H1 H2)).
Defined.

Lemma approve_calldata_of_address_witness :
  length (replicate 40 49) = 40%nat /\
  approve_zero_data (js "0x" ++ replicate 40 49)
  = js "0x095ea7b3" ++ replicate 24 48 ++ replicate 40 49 ++ replicate 64 48.
Proof.
  split; [reflexivity|].
  exact (approve_calldata_of_address (replicate 40 49) eq_refl).
Defined.

Lemma success_is_an_ok_answer_witness :
  paid_run = (inr (obj [("jobId", Some (jstr "abc"));
                        ("status", Some (jstr "completed"))]), paid_run.2) /\
  exists pre init response,
    paid_run.2 = pre ++ [Fetch (BROKER_API_BASE paid ++ run_endpoint) (Some init)] /\
    fetch_result paid ([] ++ pre) (BROKER_API_BASE paid ++ run_endpoint) (Some init)
      = inr response /\
    200 <= status response <= 299 /\
    JSON_parse (text response)
    = Some (obj [("jobId", Some (jstr "abc")); ("status", Some (jstr "completed"))]).
Proof.
  assert (paid_run = (inr (obj [("jobId", Some (jstr "abc"));
                                ("status", Some (jstr "completed"))]), paid_run.2))
    as H by (vm_compute; reflexivity).
  split; [exact H|].
  exact (success_is_an_ok_answer paid run_endpoint options [] _ _ H).
Defined.

Lemma challenge_failures_before_payment_witness :
  fetch_result garbled [] (BROKER_API_BASE garbled ++ run_endpoint)
    (Some (first_init options)) = inr (mkResponse 402 (js "payment required")) /\
  status (mkResponse 402 (js "payment required")) = 402 /\
  brokerRequestWithPayment garbled run_endpoint options []
  = (inl MalformedChallenge, [first_fetch garbled run_endpoint options]).
Proof.
  split; [reflexivity|]. split; [reflexivity|].
  exact (challenge_failures_before_payment garbled run_endpoint options []
           (mkResponse 402 (js "payment required")) eq_refl eq_refl).
Defined.

Lemma requests_keep_the_callers_request_witness :
  paid_run = (paid_run.1, paid_run.2) /\
  In (Fetch (broker_url paid run_endpoint) (Some (first_init options))) paid_run.2 /\
  exists init,
    Some (first_init options) = Some init /\
    method init = method options /\
    body init = body options.
Proof.
  split; [apply surjective_pairing|].
  assert (In (Fetch (broker_url paid run_endpoint) (Some (first_init options)))
            paid_run.2) as H by in_events.
  split; [exact H|].
  destruct (requests_keep_the_callers_request paid run_endpoint options []
              paid_run.1 paid_run.2 _ _ (surjective_pairing _) H)
    as (_ & init & Hi & Hm & Hb & _).
  exists init. split; [exact Hi|]. split; [exact Hm|exact Hb].
Defined.

Lemma run_posts_its_parameters_witness :
  wf_run_params script /\
  exists first text,
    head (run paid script []).2
    = Some (Fetch (BROKER_API_BASE paid ++ js "/run") (Some first)) /\
    body first = Some text /\
    JSON_parse text = Some (run_body script).
Proof.
  assert (wf_run_params script) as H
    by (split_and!; apply wf_string_check; reflexivity).
  split; [exact H|].
  destruct (run_posts_its_parameters paid script [] H)
    as (first & text & Hhead & _ & _ & Hbody & Hparse & _).
  exists first, text. split; [exact Hhead|]. split; [exact Hbody|exact Hparse].
Defined.

Lemma store_text_encoding_witness :
  wf_string (js "hello world") /\
  store_payload note = inr (base64_encode (js "hello world"), js "data.txt") /\
  base64_decode (base64_encode (js "hello world")) = js "hello world".
Proof.
  assert (wf_string (js "hello world")) as H by (apply wf_string_check; reflexivity).
  split; [exact H|].
  exact (store_text_encoding paid (js "hello world") None None [] H).
Defined.

Lemma store_sends_base64_text_witness :
  match data note with inl text => wf_string text | inr _ => True end /\
  store_payload note = inr (js "aGVsbG8gd29ybGQ=", js "data.txt") /\
  forallb is_base64_unit (js "aGVsbG8gd29ybGQ=") = true.
Proof.
  assert (match data note with inl text => wf_string text | inr _ => True end) as H1
    by (apply wf_string_check; reflexivity).
  assert (store_payload note = inr (js "aGVsbG8gd29ybGQ=", js "data.txt")) as H2
    by reflexivity.
  split; [exact H1|]. split; [exact H2|].
  exact (proj1 (store_sends_base64_text note _ _ H1 H2)).
Defined.

Lemma store_posts_its_payload_witness :
  wf_store_params upload /\
  store_payload upload = inr (js "AP8Q", js "a.bin") /\
  exists first text,
    head (store paid upload []).2
    = Some (Fetch (BROKER_API_BASE paid ++ js "/store") (Some first)) /\
    body first = Some text /\
    JSON_parse text = Some (store_body (js "AP8Q") (js "a.bin") upload).
Proof.
  assert (wf_store_params upload) as H1.
  { split_and!; try done; apply wf_string_check; reflexivity. }
  assert (store_payload upload = inr (js "AP8Q", js "a.bin")) as H2 by reflexivity.
  split; [exact H1|]. split; [exact H2|].
  destruct (store_posts_its_payload paid upload _ _ [] H1 H2)
    as (first & text & Hhead & _ & _ & Hbody & Hparse & _).
  exists first, text. split; [exact Hhead|]. split; [exact Hbody|exact Hparse].
Defined.

End MoreOnScenarios.

Section FeeOnAnAmount.
Import Fee.
Local Open Scope float_scope.

Lemma fee_of_non_positive_amount_witness :
  (-1 <=? 0) = true /\ calculateRelayFee (-1) = lit_0_002.
Proof.
  split; [reflexivity|].
  exact (proj1 (fee_of_non_positive_amount (-1) eq_refl)).
Defined.

End FeeOnAnAmount.
